(** * Logos & Light: the content engines, the digest builder and the image
    resolution chain, embedded from the TypeScript sources.

    Conventions of the embedding.
    - A JavaScript string is a [string]: a sequence of code units below 256.
      Every key that is hashed, parsed or compared (topic keys, themes, ISO
      dates, article ids, CSV text, storage keys) lives in that range; the
      prose of the content pools is carried as opaque payload.
    - A seed or a length is an [N]: these stay far below 2^53, where the
      numbers of JavaScript are exact.  An index, which [parseInt] reads from
      free text, is a [number]: a double that holds a non-negative integer,
      or [Infinity], written by [String] as JavaScript writes it.  The 32-bit
      arithmetic inside [hash] is written out on [Z].
    - [string | null | undefined] is [option string]; truthiness is [truthy].
    - A plain object used as a lookup table is a [gmap] of its own keys.
      The content overrides and the rows of [parseCSV] index such an object
      by free text: there the members inherited from [Object.prototype] are
      accounted for ([get_member], [assign]).
    - A [Date] is a valid instant, in milliseconds since the epoch; the time
      zone of the host is a parameter ([TimeZone]).
    - [localStorage] is an explicit value threaded through the functions; the
      [try]/[catch] blocks of the source appear as the branches taken when the
      storage refuses a read or a write. *)

From Stdlib Require Import ZArith NArith List String Ascii Bool Lia.
From Stdlib Require Import DecimalString DecimalN DecimalPos.
From stdpp Require Import base option list gmap strings.

Import ListNotations.
Local Open Scope string_scope.
Local Open Scope N_scope.

(** ** The JavaScript primitives the sources rely on *)

Module JS.

(** Outcome of a call that may throw. *)
Inductive result (A : Type) : Type :=
| Ok (a : A)
| Throw (message : string).
Arguments Ok {A} a.
Arguments Throw {A} message.

Definition bind {A B} (r : result A) (k : A -> result B) : result B :=
  match r with
  | Ok a => k a
  | Throw m => Throw m
  end.

Definition code (c : ascii) : N := N_of_ascii c.

(** The double quote character, U+0022. *)
Definition dquote_char : ascii := ascii_of_N 34.
Definition dquote : string := String dquote_char EmptyString.

(** [!!s] for a string: the empty string is the only falsy one. *)
Definition nonempty (s : string) : bool :=
  match s with
  | EmptyString => false
  | String _ _ => true
  end.

(** [!!v] for [string | null | undefined]. *)
Definition truthy (v : option string) : bool :=
  match v with
  | Some s => nonempty s
  | None => false
  end.

(** [a || b] on [string | null | undefined]. *)
Definition or_else (a b : option string) : option string :=
  if truthy a then a else b.

(** [a ?? b]: only [null]/[undefined] fall through. *)
Definition nullish {A} (a b : option A) : option A :=
  match a with
  | Some _ => a
  | None => b
  end.

(** The first truthy candidate of a chain of [if (v) return v] tests, and
    [last] when none is. *)
Fixpoint first_truthy (candidates : list (option string)) (last : string)
    : string :=
  match candidates with
  | [] => last
  | v :: rest => if truthy v then default last v else first_truthy rest last
  end.

(** White space of [String.prototype.trim] among the code units below 256. *)
Definition is_white (c : ascii) : bool :=
  let n := code c in
  (n =? 9) || (n =? 10) || (n =? 11) || (n =? 12) || (n =? 13)
  || (n =? 32) || (n =? 160).

Fixpoint trim_start (s : string) : string :=
  match s with
  | String c r => if is_white c then trim_start r else s
  | EmptyString => EmptyString
  end.

(** Drops the trailing white space: a character is kept when it is not
    white or when something is kept after it. *)
Fixpoint trim_end (s : string) : string :=
  match s with
  | EmptyString => EmptyString
  | String c r =>
      match trim_end r with
      | EmptyString => if is_white c then EmptyString else String c EmptyString
      | r' => String c r'
      end
  end.

Definition trim (s : string) : string := trim_end (trim_start s).

(** [toLowerCase] on code units below 256: A-Z and the Latin-1 capitals. *)
Definition lower_char (c : ascii) : ascii :=
  let n := code c in
  if ((65 <=? n) && (n <=? 90))
     || ((192 <=? n) && (n <=? 222) && negb (n =? 215))
  then ascii_of_N (n + 32) else c.

Fixpoint toLowerCase (s : string) : string :=
  match s with
  | EmptyString => EmptyString
  | String c r => String (lower_char c) (toLowerCase r)
  end.

Definition is_digit (c : ascii) : bool :=
  let n := code c in (48 <=? n) && (n <=? 57).

Fixpoint all_chars (p : ascii -> bool) (s : string) : bool :=
  match s with
  | EmptyString => true
  | String c r => p c && all_chars p r
  end.

Fixpoint str_take (n : nat) (s : string) : string :=
  match n, s with
  | S n', String c r => String c (str_take n' r)
  | _, _ => EmptyString
  end.

Fixpoint str_drop (n : nat) (s : string) : string :=
  match n, s with
  | S n', String _ r => str_drop n' r
  | _, _ => s
  end.

(** [s.slice(a, b)] for [0 <= a <= b]. *)
Definition slice (a b : nat) (s : string) : string :=
  str_take (b - a) (str_drop a s).

(** [s.startsWith(p)]. *)
Fixpoint starts_with (p s : string) : bool :=
  match p, s with
  | EmptyString, _ => true
  | String a p', String b s' => Ascii.eqb a b && starts_with p' s'
  | String _ _, EmptyString => false
  end.

(** [s.replace(/pat/g, by)] for a literal, non-empty pattern and a
    replacement without [$] patterns: leftmost matches, not overlapping. *)
Fixpoint replace_all_fuel (fuel : nat) (pat by_ s : string) : string :=
  match fuel with
  | O => s
  | S fuel' =>
      match s with
      | EmptyString => EmptyString
      | String c r =>
          if starts_with pat s
          then by_ +:+ replace_all_fuel fuel' pat by_ (str_drop (String.length pat) s)
          else String c (replace_all_fuel fuel' pat by_ r)
      end
  end.

Definition replace_all (pat by_ s : string) : string :=
  replace_all_fuel (S (String.length s)) pat by_ s.

(** *** Numbers that hold a non-negative integer *)

(** An index is a double that holds a non-negative integer, or [Infinity].
    [Int n] is the double of value [n]; an [n] that no double holds is the
    value of no number. *)
Inductive number : Type :=
| Int (n : N)
| Infinity.
Coercion Int : N >-> number.

(** [Number.MAX_SAFE_INTEGER]: up to here every integer is a double. *)
Definition MAX_SAFE_INTEGER : N := 2 ^ 53 - 1.

(** The double nearest to the integer [n]: 53 significant bits, ties to
    the even significand. *)
Definition round_double (n : N) : N :=
  if n <? 2 ^ 53 then n
  else
    let e := N.log2 n - 52 in
    let q := N.shiftr n e in
    let r := n - N.shiftl q e in
    let half := N.shiftl 1 (e - 1) in
    let q' := if (half <? r) || ((r =? half) && N.odd q) then q + 1 else q in
    N.shiftl q' e.

(** The number of an integer value: rounded, and [Infinity] beyond the
    largest double. *)
Definition to_number (n : N) : number :=
  let d := round_double n in
  if d <? 2 ^ 1024 then Int d else Infinity.

(** The decimal digits of [n]. *)
Definition decimal (n : N) : string :=
  NilEmpty.string_of_uint (N.to_uint n).

(** Among the multiples of [10^e], the one that [String] would write for
    the double [d]: it must round to [d]; of the two nearest the closer to
    [d] is taken, and of two equally close the one with the even digits. *)
Definition nearest_with (d e : N) : option N :=
  let p := 10 ^ e in
  let lo := d / p * p in
  let hi := lo + p in
  match round_double lo =? d, round_double hi =? d with
  | true, true =>
      if d - lo <? hi - d then Some lo
      else if hi - d <? d - lo then Some hi
      else if N.even (lo / p) then Some lo else Some hi
  | true, false => Some lo
  | false, true => Some hi
  | false, false => None
  end.

(** Fewest significant digits first: [e] trailing zeros, then [e - 1], ...;
    with no zero left the digits of [d] itself are found. *)
Fixpoint shortest_from (fuel : nat) (d e : N) : N :=
  match fuel with
  | O => d
  | S fuel' =>
      match nearest_with d e with
      | Some v => v
      | None => shortest_from fuel' d (e - 1)
      end
  end.

(** The integer with the fewest significant digits that denotes the double
    [d] (Number::toString, step 5 of ECMAScript 6.1.6.1.20). *)
Definition shortest_value (d : N) : N :=
  let len := String.length (decimal d) in
  shortest_from len d (N.of_nat len - 1).

Fixpoint strip_zeros (s : string) : string :=
  match s with
  | EmptyString => EmptyString
  | String c r =>
      match strip_zeros r with
      | EmptyString => if Ascii.eqb c "0" then EmptyString else String c EmptyString
      | r' => String c r'
      end
  end.

(** [d.ddde+NN]: the significant digits and the decimal exponent. *)
Definition exponent_form (v : N) : string :=
  let all := decimal v in
  let exponent := decimal (N.of_nat (String.length all) - 1) in
  match strip_zeros all with
  | String c EmptyString => String c EmptyString +:+ "e+" +:+ exponent
  | String c r => String c EmptyString +:+ "." +:+ r +:+ "e+" +:+ exponent
  | EmptyString => all
  end.

(** [String(x)], also [`${x}`].  Below 2^53 every integer is a double, so
    the digits of [d] are the shortest that denote it; from 10^21 on the
    exponent form is written (10^21 is itself a double, so the digits
    written denote a number below 10^21 exactly when [d] is below it). *)
Definition number_to_string (x : number) : string :=
  match x with
  | Infinity => "Infinity"
  | Int d =>
      if d <? 2 ^ 53 then decimal d
      else
        let v := shortest_value d in
        if d <? 10 ^ 21 then decimal v else exponent_form v
  end.

(** [parseInt(s, 10)] on a string of decimal digits (the only use in the
    sources, behind [\d+]): the number nearest to the value written; [0]
    stands for [NaN] elsewhere. *)
Definition parseInt10 (s : string) : number :=
  match NilEmpty.uint_of_string s with
  | Some u => to_number (N.of_uint u)
  | None => Int 0
  end.

(** [n] written with at least [w] decimal digits. *)
Definition pad_start (w : nat) (s : string) : string :=
  String.concat "" (repeat "0" (w - String.length s)) +:+ s.

(** *** Dates *)

(** A valid [Date]: milliseconds since 1970-01-01T00:00:00Z. *)
Definition Date : Type := Z.

Definition msPerDay : Z := 86400000.

(** Civil date of a day number counted from 1970-01-01 (proleptic
    Gregorian calendar, as ECMAScript prescribes). *)
Definition civil_from_days (days : Z) : Z * Z * Z :=
  let z := (days + 719468)%Z in
  let era := (z / 146097)%Z in
  let doe := (z - era * 146097)%Z in
  let yoe := ((doe - doe / 1460 + doe / 36524 - doe / 146096) / 365)%Z in
  let y := (yoe + era * 400)%Z in
  let doy := (doe - (365 * yoe + yoe / 4 - yoe / 100))%Z in
  let mp := ((5 * doy + 2) / 153)%Z in
  let d := (doy - (153 * mp + 2) / 5 + 1)%Z in
  let m := (if (mp <? 10)%Z then mp + 3 else mp - 9)%Z in
  ((if (m <=? 2)%Z then y + 1 else y)%Z, m, d).

Definition digits (w : nat) (z : Z) : string :=
  pad_start w (number_to_string (Z.to_N z)).

(** [d.toISOString()]: four-digit years from 0 to 9999, signed six-digit
    years otherwise. *)
Definition toISOString (d : Date) : string :=
  let '(y, m, dd) := civil_from_days (d / msPerDay)%Z in
  let t := (d mod msPerDay)%Z in
  let year :=
    if ((0 <=? y) && (y <=? 9999))%Z then digits 4 y
    else (if (y <? 0)%Z then "-" else "+") +:+ digits 6 (Z.abs y) in
  year +:+ "-" +:+ digits 2 m +:+ "-" +:+ digits 2 dd
    +:+ "T" +:+ digits 2 (t / 3600000)%Z
    +:+ ":" +:+ digits 2 ((t / 60000) mod 60)%Z
    +:+ ":" +:+ digits 2 ((t / 1000) mod 60)%Z
    +:+ "." +:+ digits 3 (t mod 1000)%Z +:+ "Z".

(** The time zone of the host: the offset of local time from UTC, in
    milliseconds, at an instant ([LocalTZA(t, true)]) and at a local time
    ([LocalTZA(t, false)]: a local time that a clock change skips or
    repeats is read with the offset before the change). *)
Record TimeZone : Type := {
  offset_at : Z -> Z;
  offset_of_local : Z -> Z
}.

Definition LocalTime (tz : TimeZone) (t : Z) : Z := (t + offset_at tz t)%Z.

Definition UTC (tz : TimeZone) (t : Z) : Z := (t - offset_of_local tz t)%Z.

(** [d.getDate()]: the day of the month in local time. *)
Definition getDate (tz : TimeZone) (d : Date) : Z :=
  let '(_, _, dd) := civil_from_days (LocalTime tz d / msPerDay) in dd.

(** [d.setDate(dt)]: the instant at which local time shows the same month
    and time of day and the day of the month [dt], days before the first or
    after the last of the month counting into the neighbouring months
    ([MakeDay] counts them from the first of the month). *)
Definition setDate (tz : TimeZone) (d : Date) (dt : Z) : Date :=
  let t := LocalTime tz d in
  let day := (t / msPerDay)%Z in
  let '(_, _, dd) := civil_from_days day in
  UTC tz ((day - dd + dt) * msPerDay + t mod msPerDay)%Z.

(** A zone whose clocks never change. *)
Definition fixed_zone (offset : Z) : TimeZone :=
  {| offset_at := fun _ => offset; offset_of_local := fun _ => offset |}.

(** *** 32-bit integer arithmetic *)

Definition toInt32 (z : Z) : Z :=
  let m := (z mod 2 ^ 32)%Z in
  if (m <? 2 ^ 31)%Z then m else (m - 2 ^ 32)%Z.

(** [a ^ b] *)
Definition xor32 (a b : Z) : Z := toInt32 (Z.lxor (toInt32 a) (toInt32 b)).

(** [Math.imul(a, b)] *)
Definition imul (a b : Z) : Z := toInt32 (toInt32 a * toInt32 b).

(** *** Plain objects read and written under free-text keys *)

(** The properties every plain object inherits from [Object.prototype]. *)
Definition object_prototype_members : list string :=
  [ "constructor"; "__defineGetter__"; "__defineSetter__"; "hasOwnProperty";
    "__lookupGetter__"; "__lookupSetter__"; "isPrototypeOf";
    "propertyIsEnumerable"; "toString"; "valueOf"; "__proto__";
    "toLocaleString" ].

Definition is_prototype_member (k : string) : bool :=
  existsb (String.eqb k) object_prototype_members.

(** What [obj[k]] finds: an own property, a member of [Object.prototype]
    (a function, or the prototype itself under [__proto__]: truthy, and
    without enumerable properties of its own), or [undefined]. *)
Inductive Member (A : Type) : Type :=
| Own (a : A)
| Inherited
| Missing.
Arguments Own {A} a.
Arguments Inherited {A}.
Arguments Missing {A}.

Definition get_member {A} (obj : gmap string A) (k : string) : Member A :=
  match obj !! k with
  | Some a => Own a
  | None => if is_prototype_member k then Inherited else Missing
  end.

(** [obj[k] = v]: the own property is created or replaced, except that on
    an object without an own [__proto__] the key [__proto__] reaches the
    setter of [Object.prototype], which replaces the prototype when [v] is
    an object and ignores a string, and creates no own property. *)
Definition assign {A} (obj : gmap string A) (k : string) (v : A)
    : gmap string A :=
  match obj !! k with
  | None => if String.eqb k "__proto__" then obj else <[k := v]> obj
  | Some _ => <[k := v]> obj
  end.

(** A JSON codec at one type: [JSON.stringify], and [JSON.parse] followed
    by the cast the source applies.  [parse] answers [None] when
    [JSON.parse] throws or yields nothing usable at that type ([null],
    [false], [0]). *)
Class JSON (A : Type) : Type := {
  stringify : A -> string;
  parse : string -> option A
}.

(** *** localStorage *)

(** The items, and whether the browser lets the page read and write them
    (a disabled or full storage throws, which every caller catches). *)
Record LocalStorage : Type := {
  items : gmap string string;
  readable : bool;
  writable : bool
}.

(** [localStorage.getItem(k)]: [Throw] when the storage is unavailable,
    otherwise the item or [null]. *)
Definition getItem (ls : LocalStorage) (k : string) : result (option string) :=
  if readable ls then Ok (items ls !! k) else Throw "SecurityError".

(** [localStorage.setItem(k, v)]: [None] when it throws. *)
Definition setItem (ls : LocalStorage) (k v : string) : option LocalStorage :=
  if writable ls
  then Some {| items := <[k := v]> (items ls);
               readable := readable ls; writable := writable ls |}
  else None.

(** [localStorage.removeItem(k)]: [None] when it throws. *)
Definition removeItem (ls : LocalStorage) (k : string) : option LocalStorage :=
  if readable ls
  then Some {| items := delete k (items ls);
               readable := readable ls; writable := writable ls |}
  else None.

End JS.

Import JS.

(** The object shapes [{ text, ref }] and [{ text, author }], shared by both
    engines. *)
Record Scripture : Type := { s_text : string; s_ref : string }.
Record Quote : Type := { q_text : string; q_author : string }.

(** ** contentEngine.ts: the daily reflection generator and its cache *)

Module ContentEngine.

Inductive ReflectionTheme : Type :=
| mindfulness | hope | gratitude | discernment | suffering | faith_reason.

(** The string each theme is at run time. *)
Definition theme_string (t : ReflectionTheme) : string :=
  match t with
  | mindfulness => "mindfulness"
  | hope => "hope"
  | gratitude => "gratitude"
  | discernment => "discernment"
  | suffering => "suffering"
  | faith_reason => "faith-reason"
  end.

Record Reflection : Type := {
  dateISO : string;
  theme : ReflectionTheme;
  title : string;
  scripture : Scripture;
  quote : Quote;
  body : list string;
  prayer : string;
  questions : list string;
  tags : list string
}.

Definition themes : list ReflectionTheme :=
  [mindfulness; hope; gratitude; discernment; suffering; faith_reason].

(** [for (i ...) { h ^= str.charCodeAt(i); h = Math.imul(h, 16777619) }] *)
Fixpoint hash_loop (h : Z) (str : string) : Z :=
  match str with
  | EmptyString => h
  | String c r => hash_loop (imul (xor32 h (Z.of_N (code c))) 16777619) r
  end.

Definition hash (str : string) : N :=
  Z.to_N (Z.abs (hash_loop 2166136261 str)).

Definition pick {T} (arr : list T) (seed : N) : result T :=
  match arr with
  | [] => Throw "Cannot pick from empty array"
  | x :: _ => Ok (nth (N.to_nat (seed mod N.of_nat (length arr))) arr x)
  end.

(** The module-level tables, gathered so that a later edit of the tables
    can be expressed. *)
Record Pools : Type := {
  scripturePool : list Scripture;
  quotePool : list Quote;
  titleFragments : ReflectionTheme -> list string;
  bodyTemplates : list string;
  prayers : list string;
  questionsPool : list string
}.

Definition sourcePools : Pools := {|
  scripturePool := [
    {| s_text := "Be still, and know that I am God."; s_ref := "Psalm 46:10" |};
    {| s_text := "In quietness and in confidence shall be your strength."; s_ref := "Isaiah 30:15" |};
    {| s_text := "Pray without ceasing."; s_ref := "1 Thessalonians 5:17" |};
    {| s_text := "In Him was life; and the life was the light of men."; s_ref := "John 1:4" |};
    {| s_text := "Be transformed by the renewing of your mind."; s_ref := "Romans 12:2" |};
    {| s_text := "Draw nigh to God, and he will draw nigh to you."; s_ref := "James 4:8" |} ];
  quotePool := [
    {| q_text := "The unexamined life is not worth living."; q_author := "Socrates" |};
    {| q_text := "You have made us for Yourself, and our heart is restless until it rests in You."; q_author := "Augustine" |};
    {| q_text := "Faith seeks understanding."; q_author := "Anselm" |};
    {| q_text := "All truth is God’s truth."; q_author := "Arthur Holmes" |};
    {| q_text := "He who has God and everything else has no more than he who has God only."; q_author := "C. S. Lewis" |};
    {| q_text := "What we think about when we are free to think about what we will—that is what we are or will soon become."; q_author := "A. W. Tozer" |} ];
  titleFragments := fun t =>
    match t with
    | mindfulness =>
        [ "Be Still and Know"; "Attention in the Presence of Christ";
          "Breath, Body, and Beloved"; "Christ-centered Stillness" ]
    | hope => [ "Bright Hope in the Present"; "Anchored Expectation"; "Light at the Edge"; "Hope That Does Not Shame" ]
    | gratitude => [ "Receiving the Day"; "Gratitude as Worship"; "Counting Gifts with God"; "Eucharistic Vision" ]
    | discernment => [ "Hearing the Still Small Voice"; "Wisdom for the Way"; "Testing and Holding Fast"; "Walking in Light" ]
    | suffering => [ "Meaning in the Night"; "Companion in Sorrow"; "Cross and Consolation"; "Lament and Trust" ]
    | faith_reason => [ "Logos and Light"; "Mind Renewed"; "Reason as Servant of Love"; "Harmony of Faith and Mind" ]
    end;
  bodyTemplates := [
    "Today’s reflection considers THEME as a posture of loving attention before God. In SCRIPTURE, we are invited not to escape the world but to behold God within it.";
    "Mindfulness in Christ is not emptying into nothingness, but opening to communion. As QUOTE reminds us, the examined life is ordered toward Truth Himself.";
    "Practice a gentle rhythm: inhale “Jesus,” exhale “have mercy.” Let distractions become cues for returning to Presence without judgment.";
    "Let your reason serve love. Ask: what is true here, what is good to do, and what is beautiful to behold in light of the Gospel?" ];
  prayers := [
    "Lord Jesus, quiet my restless heart and tune my attention to Your presence. Teach me to abide in love. Amen.";
    "Father, renew my mind and guide my steps. Let Your light illumine my thoughts and actions today. Amen.";
    "Holy Spirit, breathe in me a steady, gentle awareness of Your presence, and kindle hope within. Amen." ];
  questionsPool := [
    "Where did I notice God’s presence today?";
    "What stirred anxiety, and how might I bring it to prayer?";
    "What is one small act of love or truth I can offer next?";
    "How can I let my breath become a reminder to return to Christ?" ]
|}.

Definition humanizeTheme (t : ReflectionTheme) : string :=
  match t with
  | mindfulness => "mindfulness in Christ"
  | hope => "Christian hope"
  | gratitude => "gratitude before God"
  | discernment => "spiritual discernment"
  | suffering => "suffering with Christ"
  | faith_reason => "the harmony of faith and reason"
  end.

(** The three chained [replace] calls on each template. *)
Definition makeBody (P : Pools) (t : ReflectionTheme) (scr : Scripture)
    (q : Quote) (seed : N) : list string :=
  map (fun tpl =>
         replace_all "QUOTE"
           (dquote +:+ q_text q +:+ dquote +:+ " — " +:+ q_author q)
           (replace_all "SCRIPTURE"
              (dquote +:+ s_text scr +:+ dquote +:+ " (" +:+ s_ref scr +:+ ")")
              (replace_all "THEME" (humanizeTheme t) tpl)))
      (bodyTemplates P).

(** [arr.indexOf(v)]: position of the first element equal to [v]. *)
Fixpoint indexOf (v : string) (arr : list string) : option nat :=
  match arr with
  | [] => None
  | x :: r => if String.eqb x v then Some O else option_map S (indexOf v r)
  end.

(** [arr.filter((v, idx, arr) => arr.indexOf(v) === idx)], walking the
    positions from [idx] on. *)
Fixpoint keep_first_from (idx : nat) (rest arr : list string) : list string :=
  match rest with
  | [] => []
  | v :: r =>
      let tl := keep_first_from (S idx) r arr in
      match indexOf v arr with
      | Some i => if Nat.eqb i idx then v :: tl else tl
      | None => tl
      end
  end.

Definition keep_first (arr : list string) : list string :=
  keep_first_from O arr arr.

Definition dateISO_of (date : Date) : string := slice 0 10 (toISOString date).

Definition generateReflection (P : Pools) (date : Date) (t : ReflectionTheme)
    : result Reflection :=
  let dateISO := dateISO_of date in
  let seed := hash (dateISO +:+ "|" +:+ theme_string t) in
  bind (pick (scripturePool P) (seed + 1)) (fun scripture =>
  bind (pick (quotePool P) (seed + 7)) (fun quote =>
  bind (pick (titleFragments P t) (seed + 13)) (fun title =>
  let body := makeBody P t scripture quote seed in
  bind (pick (prayers P) (seed + 17)) (fun prayer =>
  bind (pick (questionsPool P) (seed + 19)) (fun q1 =>
  bind (pick (questionsPool P) (seed + 23)) (fun q2 =>
  let questions := keep_first [q1; q2] in
  let tags := [humanizeTheme t; "daily"; "reflection"] in
  Ok {| dateISO := dateISO; theme := t; title := title;
        scripture := scripture; quote := quote; body := body;
        prayer := prayer; questions := questions; tags := tags |})))))).

Section Cache.
Context {codec : JSON Reflection}.

Definition getStoredReflection (ls : LocalStorage) (key : string)
    : option Reflection :=
  match getItem ls key with
  | Ok (Some raw) => if nonempty raw then parse raw else None
  | Ok None => None
  | Throw _ => None
  end.

Definition storeReflection (ls : LocalStorage) (key : string)
    (value : Reflection) : LocalStorage :=
  match setItem ls key (stringify value) with
  | Some ls' => ls'
  | None => ls
  end.

Definition cacheKey (date : Date) (t : ReflectionTheme) : string :=
  "ll-reflection:" +:+ dateISO_of date +:+ ":" +:+ theme_string t.

(** Returns the reflection (or the exception of [generateReflection])
    and the storage after the call. *)
Definition getReflectionForDate (P : Pools) (ls : LocalStorage)
    (date : Date) (t : ReflectionTheme) : result Reflection * LocalStorage :=
  let key := cacheKey date t in
  match getStoredReflection ls key with
  | Some existing => (Ok existing, ls)
  | None =>
      match generateReflection P date t with
      | Ok generated => (Ok generated, storeReflection ls key generated)
      | Throw m => (Throw m, ls)
      end
  end.
End Cache.

End ContentEngine.

(** ** articleEngine.ts: the per-topic article generator *)

Module ArticleEngine.

Inductive TopicKey : Type :=
| faith_and_reason | ethics | metaphysics | theology
| scripture | aesthetics | history | apologetics.

(** The string each topic key is at run time. *)
Definition key_string (k : TopicKey) : string :=
  match k with
  | faith_and_reason => "faith-and-reason"
  | ethics => "ethics"
  | metaphysics => "metaphysics"
  | theology => "theology"
  | scripture => "scripture"
  | aesthetics => "aesthetics"
  | history => "history"
  | apologetics => "apologetics"
  end.

Record TopicMeta : Type := {
  key : TopicKey;
  label : string;
  imageKeyword : string
}.

Definition topics : list TopicMeta := [
  {| key := faith_and_reason; label := "Faith & Reason"; imageKeyword := "compass" |};
  {| key := ethics; label := "Ethics"; imageKeyword := "scales" |};
  {| key := metaphysics; label := "Metaphysics"; imageKeyword := "galaxy" |};
  {| key := theology; label := "Theology"; imageKeyword := "stained glass" |};
  {| key := scripture; label := "Scripture"; imageKeyword := "cross sunrise" |};
  {| key := aesthetics; label := "Aesthetics"; imageKeyword := "statue" |};
  {| key := history; label := "History"; imageKeyword := "ruins" |};
  {| key := apologetics; label := "Apologetics"; imageKeyword := "shield" |} ].

Fixpoint hash_loop (h : Z) (str : string) : Z :=
  match str with
  | EmptyString => h
  | String c r => hash_loop (imul (xor32 h (Z.of_N (code c))) 16777619) r
  end.

Definition hash (str : string) : N :=
  Z.to_N (Z.abs (hash_loop 2166136261 str)).

(** [arr[seed % arr.length]]: no guard here, so on an empty array the
    index is [NaN] and the element read is [undefined] ([None]). *)
Definition pick {T} (arr : list T) (seed : N) : option T :=
  if (length arr =? 0)%nat then None
  else arr !! N.to_nat (seed mod N.of_nat (length arr)).

Definition rotate {T} (arr : list T) (seed : N) : list T :=
  let n := length arr in
  if (n =? 0)%nat then arr
  else
    let offset := N.to_nat (seed mod N.of_nat n) in
    (drop offset arr ++ take offset arr)%list.

Definition sampleDeterministic {T} (arr : list T) (count : N) (seed : N)
    : list T :=
  if (length arr =? 0)%nat then []
  else
    let rotated := rotate arr seed in
    if N.of_nat (length arr) <=? count then rotated
    else take (N.to_nat count) rotated.

Definition titlePool (topic : TopicKey) : list string :=
  match topic with
  | faith_and_reason =>
      [ "Reason in Service of Love";
        "Logos and the Light of Faith";
        "When Inquiry Kneels";
        "Thinking with the Church";
        "Mind Renewed in Christ";
        "Truth Weds Trust" ]
  | ethics =>
      [ "The Shape of the Good Life";
        "Virtue and the Beatitudes";
        "Habits of Holy Courage";
        "Mercy and Justice";
        "Formed by Love" ]
  | metaphysics =>
      [ "Being, Gift, and Creator";
        "Contingency and the Necessary";
        "Light from First Principles";
        "Participation in Being";
        "Wonder Before What Is" ]
  | theology =>
      [ "Knowing God in Mystery";
        "Trinity and the Life of Love";
        "The Cross at the Center";
        "Grace and Nature";
        "Speaking of God Well" ]
  | scripture =>
      [ "Reading with the Saints";
        "Scripture as Living Word";
        "Hearing God Today";
        "From Text to Transformation";
        "Word that Forms Us" ]
  | aesthetics =>
      [ "Beauty as a Path to God";
        "Icons of Glory";
        "Art and the Ache for Home";
        "The Radiance of Form";
        "Attention to Splendor" ]
  | history =>
      [ "Lessons from the Fathers";
        "Streams of Tradition";
        "Renewal in Every Age";
        "Pilgrims and Witnesses";
        "Memory for Mission" ]
  | apologetics =>
      [ "A Reason for Hope";
        "Answering with Gentleness";
        "Truth in the Public Square";
        "Confidence without Arrogance";
        "Giving the Why with Love" ]
  end.

Definition excerptPool (topic : TopicKey) : list string :=
  match topic with
  | faith_and_reason =>
      [ "How faith and inquiry enrich one another without compromise.";
        "Why the life of the mind belongs inside discipleship.";
        "Honoring both revelation and reasoned arguments.";
        "Thinking deeply as an act of trust." ]
  | ethics =>
      [ "From habits to holiness: character shaped by grace.";
        "What the Beatitudes teach about real flourishing.";
        "Navigating moral gray with the light of Christ.";
        "Virtue as love’s steady form." ]
  | metaphysics =>
      [ "From contingency to Creator: a first-philosophy path.";
        "Seeing creation as gift and participation.";
        "How being and goodness anchor our lives.";
        "Wonder before the fact of existence." ]
  | theology =>
      [ "Entering mystery with reverence and clarity.";
        "The Cross and Resurrection as interpretive center.";
        "Grace elevates, not erases, nature.";
        "The Trinity as love’s eternal life." ]
  | scripture =>
      [ "Lectio with the Church: hearing the living Word.";
        "From text to transformation in daily life.";
        "Reading as communion, not mere information.";
        "Word that reads us back." ]
  | aesthetics =>
      [ "Beauty draws us toward the True and the Good.";
        "Seeing with new eyes: a theology of art.";
        "Why form and radiance matter to the soul.";
        "Attention trained by splendor." ]
  | history =>
      [ "Receiving the wisdom of saints and teachers.";
        "Movements of renewal across the centuries.";
        "Witnesses who show faith under pressure.";
        "Tradition as faithful memory." ]
  | apologetics =>
      [ "Giving reasons for hope with gentleness.";
        "Truth in the public square without fear.";
        "Confidence rooted in Christ, not in victory.";
        "Clarity with compassion persuades." ]
  end.

Definition paragraphsByTopic (topic : TopicKey) : list string :=
  match topic with
  | faith_and_reason =>
      [ "Faith and reason are not rivals but friends; each asks for the whole truth and receives it as gift.";
        "Christian inquiry kneels before revelation without abandoning clear thinking or careful argument.";
        "To love God with the mind is to let thought be purified by humility and guided by the Church’s wisdom.";
        "Reason serves love best when it seeks understanding that becomes worship.";
        "In prayer, questions become places of trust; in study, trust becomes patient inquiry.";
        "Christ, the Logos, unites what we know and whom we love.";
        "A disciple’s intellect is not neutral ground; it is soil for seeds of light." ]
  | ethics =>
      [ "Virtue is form given to love—habits trained to choose the good with joy.";
        "The Beatitudes describe a life beautiful in God’s eyes, not merely successful.";
        "Conscience matures when taught by truth, strengthened by grace, and exercised in small, concrete acts.";
        "Mercy perfects justice by fulfilling its aim: the good of the other.";
        "Freedom grows where desire is healed, not indulged.";
        "Holiness is not sterility but the fullness of love’s courage." ]
  | metaphysics =>
      [ "To ask why there is anything at all is to stand at the edge of wonder.";
        "Creation is given, not necessary; it participates in Being who is first.";
        "Causality opens onto meaning: final causes point beyond utility to purpose.";
        "Contingent things echo a more-than-contingent Source.";
        "The true, good, and beautiful are convertible because they flow from one simple act of being.";
        "First principles are not shortcuts but foundations for reverent thought." ]
  | theology =>
      [ "Theology speaks after listening; it answers revelation with careful reverence.";
        "God is not an item among items but the One in whom we live and move and have our being.";
        "The Cross reveals both the gravity of sin and the greater gravity of love.";
        "Grace heals, elevates, and perfects nature without erasing it.";
        "The Trinity is not an abstract puzzle but the living life of God shared with us.";
        "Dogma protects mystery so it can be adored rather than flattened." ]
  | scripture =>
      [ "Scripture is living Word: to read is to be addressed by God.";
        "We read with the Church so that private impressions are tested by common faith.";
        "Lectio divina forms a rhythm of hearing, responding, resting, and being sent.";
        "Meditation turns words into prayer; contemplation lets prayer ripen into quiet joy.";
        "The canon is a symphony where Christ is the theme.";
        "To memorize a verse is to carry light in the mind." ]
  | aesthetics =>
      [ "Beauty does not distract from God; it discloses Him.";
        "Form is the radiance of order; splendor invites attention made pure.";
        "Icons teach us to see; art can become prayer when offered in love.";
        "Desire learns to love the beautiful truly when healed by grace.";
        "The Church’s arts are not luxuries but language for glory.";
        "A crafted thing can tutor the heart toward patience." ]
  | history =>
      [ "The communion of saints is not nostalgia but companionship for mission.";
        "Renewal appears in every age when hearts return to the first love.";
        "Councils, creeds, and catechesis are memory serving charity.";
        "Martyrs witness that truth is worth more than comfort.";
        "Tradition carries fire, not ashes; it hands on life.";
        "History chastens our pride and enlarges our hope." ]
  | apologetics =>
      [ "Apologetics is not winning arguments but winning trust for the Truth.";
        "Give reasons, yes—but with gentleness and patience born of prayer.";
        "Public square clarity should be salted with compassion.";
        "Confidence rests in Christ’s lordship, not in our eloquence.";
        "Questions are doors, not threats, when the Church is secure in her hope.";
        "Beauty and goodness often persuade where syllogisms cannot." ]
  end.

Definition practiceByTopic (topic : TopicKey) : list string :=
  match topic with
  | faith_and_reason =>
      [ "Practice: write one honest question to bring into prayer and study today.";
        "Practice: read a paragraph from a Doctor of the Church and journal one line of light." ]
  | ethics =>
      [ "Practice: choose one concrete act of mercy and do it quietly.";
        "Practice: name a virtue to practice in a small decision before noon." ]
  | metaphysics =>
      [ "Practice: spend five minutes in wonder outdoors and thank God simply.";
        "Practice: trace a cause in your day back to its purpose and offer it to God." ]
  | theology =>
      [ "Practice: pray the Creed slowly, lingering at one phrase.";
        "Practice: read one paragraph of a classic catechism and respond in prayer." ]
  | scripture =>
      [ "Practice: try lectio divina on a short psalm today.";
        "Practice: memorize one verse and repeat it at noon and evening." ]
  | aesthetics =>
      [ "Practice: sit with a sacred image for two minutes and notice one detail.";
        "Practice: create one small thing and offer it to God in gratitude." ]
  | history =>
      [ "Practice: read a short life of a saint and imitate one habit today.";
        "Practice: ask someone older in faith one question about God’s faithfulness." ]
  | apologetics =>
      [ "Practice: write a gentle, clear answer to a common question you hear.";
        "Practice: pray for someone who disagrees with you by name." ]
  end.

Definition extraTags (topic : TopicKey) : list string :=
  match topic with
  | faith_and_reason =>
      [ "reason";
        "revelation";
        "logos" ]
  | ethics =>
      [ "virtue";
        "mercy";
        "justice" ]
  | metaphysics =>
      [ "being";
        "first principles";
        "causality" ]
  | theology =>
      [ "trinity";
        "incarnation";
        "grace" ]
  | scripture =>
      [ "lectio divina";
        "word";
        "canon" ]
  | aesthetics =>
      [ "beauty";
        "form";
        "icon" ]
  | history =>
      [ "tradition";
        "saints";
        "renewal" ]
  | apologetics =>
      [ "hope";
        "gentleness";
        "public square" ]
  end.

Definition scriptureByTopic (topic : TopicKey) : list Scripture :=
  match topic with
  | faith_and_reason =>
      [ {| s_text := "Be transformed by the renewing of your mind.";
           s_ref := "Romans 12:2" |};
        {| s_text := "In him was life; and the life was the light of men.";
           s_ref := "John 1:4" |} ]
  | ethics =>
      [ {| s_text := "Blessed are the pure in heart, for they shall see God.";
           s_ref := "Matthew 5:8" |};
        {| s_text := "What does the Lord require of you but to do justice, and to love kindness, and to walk humbly?";
           s_ref := "Micah 6:8" |} ]
  | metaphysics =>
      [ {| s_text := "In him we live and move and have our being.";
           s_ref := "Acts 17:28" |};
        {| s_text := "He is before all things, and in him all things hold together.";
           s_ref := "Colossians 1:17" |} ]
  | theology =>
      [ {| s_text := "The Word became flesh and dwelt among us.";
           s_ref := "John 1:14" |};
        {| s_text := "Holy, holy, holy is the Lord of hosts.";
           s_ref := "Isaiah 6:3" |} ]
  | scripture =>
      [ {| s_text := "Your word is a lamp to my feet and a light to my path.";
           s_ref := "Psalm 119:105" |};
        {| s_text := "All Scripture is breathed out by God and profitable for teaching.";
           s_ref := "2 Timothy 3:16" |} ]
  | aesthetics =>
      [ {| s_text := "Worship the Lord in the beauty of holiness.";
           s_ref := "Psalm 96:9" |};
        {| s_text := "Whatever is lovely, think about these things.";
           s_ref := "Philippians 4:8" |} ]
  | history =>
      [ {| s_text := "Remember the days of old; consider the years of many generations.";
           s_ref := "Deuteronomy 32:7" |};
        {| s_text := "We are surrounded by so great a cloud of witnesses…";
           s_ref := "Hebrews 12:1" |} ]
  | apologetics =>
      [ {| s_text := "Always be prepared to make a defense… yet with gentleness and respect.";
           s_ref := "1 Peter 3:15" |};
        {| s_text := "Let your speech always be gracious, seasoned with salt.";
           s_ref := "Colossians 4:6" |} ]
  end.

Definition generalConnective : list string :=
  [ "Prayer steadies inquiry so that thought becomes worship and action becomes charity.";
    "Gratitude clears vision; from gratitude we can think, choose, and love more truly.";
    "Small, faithful acts shape the soul more than rare heroic moments." ].

Definition quotePool : list Quote :=
  [ {| q_text := "Faith seeks understanding.";
       q_author := "Anselm" |};
    {| q_text := "The unexamined life is not worth living.";
       q_author := "Socrates" |};
    {| q_text := "You have made us for Yourself, and our heart is restless until it rests in You.";
       q_author := "Augustine" |};
    {| q_text := "All truth is God’s truth.";
       q_author := "Arthur Holmes" |};
    {| q_text := "He who has God and everything else has no more than he who has God only.";
       q_author := "C. S. Lewis" |} ].
Definition toDateISO (d : Date) : string := slice 0 10 (toISOString d).

(** The shape [YYYY-MM-DD]: four digits, two digits, two digits, joined by
    hyphens. *)
Definition is_iso_date (s : string) : bool :=
  match s with
  | String y1 (String y2 (String y3 (String y4 (String h1
      (String m1 (String m2 (String h2 (String d1 (String d2 EmptyString))))))))) =>
      is_digit y1 && is_digit y2 && is_digit y3 && is_digit y4
      && Ascii.eqb h1 "-" && is_digit m1 && is_digit m2
      && Ascii.eqb h2 "-" && is_digit d1 && is_digit d2
  | _ => false
  end.

Definition articleId (topic : TopicKey) (dateISO : string) (index : number)
    : string :=
  key_string topic +:+ "-" +:+ replace_all "-" "" dateISO
    +:+ "-" +:+ number_to_string index.

Definition find_topic (k : string) : option TopicMeta :=
  find (fun t => String.eqb (key_string (key t)) k) topics.

Definition humanLabel (topic : TopicKey) : string :=
  match find_topic (key_string topic) with
  | Some meta => label meta
  | None => key_string topic
  end.

Definition keywordFor (topic : TopicKey) : string :=
  match find_topic (key_string topic) with
  | Some meta => imageKeyword meta
  | None => "abstract gradient"
  end.

(** [None] stands for a body that cannot be built because a pick read
    [undefined]; [buildBody_defined] shows it never happens. *)
Definition buildBody (topic : TopicKey) (seed : N) : option (list string) :=
  let baseCount := 3 + seed mod 2 in
  let core := sampleDeterministic (paragraphsByTopic topic) baseCount (seed + 101) in
  scr ← pick (scriptureByTopic topic) (seed + 211);
  let scripturePara :=
    "Scripture: “" +:+ s_text scr +:+ "” (" +:+ s_ref scr +:+ ")." in
  connect ← pick generalConnective (seed + 307);
  practice ← pick (practiceByTopic topic) (seed + 409);
  Some (core ++ [connect; scripturePara; practice])%list.

(** *** The id pattern [/^([a-z-]+)-(\d{8})-(\d+)$/] *)

(** [[a-z-]] *)
Definition is_slug_char (c : ascii) : bool :=
  let n := code c in ((97 <=? n) && (n <=? 122)) || (n =? 45).

(** Length of the longest prefix made of characters satisfying [p]. *)
Fixpoint run_length (p : ascii -> bool) (s : string) : nat :=
  match s with
  | String c r => if p c then S (run_length p r) else O
  | EmptyString => O
  end.

(** [-(\d{8})-(\d+)$] matched at the head of [s]: the two groups. *)
Definition match_date_index (s : string) : option (string * string) :=
  match s with
  | String c r =>
      let d8 := str_take 8 r in
      match str_drop 8 r with
      | String c2 ds =>
          if Ascii.eqb c "-" && (String.length d8 =? 8)%nat
             && all_chars is_digit d8 && Ascii.eqb c2 "-"
             && nonempty ds && all_chars is_digit ds
          then Some (d8, ds) else None
      | EmptyString => None
      end
  | EmptyString => None
  end.

(** The greedy first group: the longest run first, then one character
    less at a time, down to one character. *)
Fixpoint match_id_from (k : nat) (s : string)
    : option (string * string * string) :=
  match k with
  | O => None
  | S k' =>
      match match_date_index (str_drop k s) with
      | Some (d8, ds) => Some (str_take k s, d8, ds)
      | None => match_id_from k' s
      end
  end.

(** [id.match(/^([a-z-]+)-(\d{8})-(\d+)$/)]: groups 1 to 3. *)
Definition match_id (id : string) : option (string * string * string) :=
  match_id_from (run_length is_slug_char id) id.

Record ParsedId : Type := {
  p_topic : TopicKey;
  p_dateISO : string;
  p_index : number
}.

Definition parseArticleId (id : string) : option ParsedId :=
  match match_id id with
  | None => None
  | Some (m1, m2, m3) =>
      match find_topic m1 with
      | None => None
      | Some meta =>
          let y := slice 0 4 m2 in
          let mo := slice 4 6 m2 in
          let d := slice 6 8 m2 in
          Some {| p_topic := key meta;
                  p_dateISO := y +:+ "-" +:+ mo +:+ "-" +:+ d;
                  p_index := parseInt10 m3 |}
      end
  end.

Record Article : Type := {
  id : string;
  title : string;
  excerpt : string;
  image : string;
  tags : list string;
  body : list string;
  quote : Quote;
  topic : TopicKey;
  dateISO : string
}.

(** The image query built from the title is computed and dropped by the
    source (the image is a literal), so it is left out here. *)
Definition generateArticleCore (topic : TopicKey) (dateISO : string)
    (index : number) : option Article :=
  let seedBase :=
    hash (key_string topic +:+ "|" +:+ dateISO +:+ "|" +:+ number_to_string index) in
  let id := articleId topic dateISO index in
  title ← pick (titlePool topic) (seedBase + 3);
  excerpt ← pick (excerptPool topic) (seedBase + 7);
  quote ← pick quotePool (seedBase + 11);
  body ← buildBody topic (seedBase + 13);
  let image := "https://pub-cdn.sider.ai/u/U0AWH6J28LO/web-coder/6896d87314f019f2a83e5a14/resource/ab6ea90d-af37-40dd-879c-6732198db0be.jpg" in
  extra ← pick (extraTags topic) (seedBase + 29);
  let tags := [humanLabel topic; "daily"; extra] in
  Some {| id := id; title := title; excerpt := excerpt; image := image;
          tags := tags; body := body; quote := quote; topic := topic;
          dateISO := dateISO |}.

(** The card shape of [components/ArticleCard]. *)
Record ArticleCard : Type := {
  c_id : string;
  c_title : string;
  c_excerpt : string;
  c_image : string;
  c_tags : list string;
  c_path : string;
  c_topic : TopicKey
}.

Definition card_of (core : Article) : ArticleCard :=
  {| c_id := id core; c_title := title core; c_excerpt := excerpt core;
     c_image := image core; c_tags := tags core;
     c_path := "/articles/" +:+ id core; c_topic := topic core |}.

(** [for (let i = 1; i <= perTopic; i++)], as the indices it visits: up to
    [MAX_SAFE_INTEGER] the counter steps by one exactly (a larger [perTopic]
    is never passed, and the loop of the source would not end). *)
Definition indices (perTopic : N) : list N :=
  map (fun i => N.of_nat i) (seq 1 (N.to_nat perTopic)).

(** [None]: some card could not be built (see [buildBody]). *)
Definition listArticlesForDate (date : Date) (perTopic : N)
    : option (list ArticleCard) :=
  let dateISO := toDateISO date in
  mapM (fun '((t, i) : TopicMeta * N) =>
          card_of <$> generateArticleCore (key t) dateISO i)
       (t ← topics; i ← indices perTopic; [(t, i)]).

End ArticleEngine.

(** ** newsletterDigest.ts: daily and weekly digests *)

Module NewsletterDigest.

Record Digest : Type := {
  subject : string;
  reflection : ContentEngine.Reflection;
  articles : list ArticleEngine.ArticleCard
}.

(** [for (let i = 0; i < count; i++)] pushing a copy of [base] after
    [d.setDate(base.getDate() - i)]. *)
Definition previousDays (tz : TimeZone) (base : Date) (count : nat)
    : list Date :=
  map (fun i => setDate tz base (getDate tz base - Z.of_nat i)%Z) (seq 0 count).

(** Lifts a list of cards that could not be built to the exception the
    failed property read raises. *)
Definition cards_or_throw {A} (o : option A) : result A :=
  match o with
  | Some a => Ok a
  | None => Throw "TypeError"
  end.

Section Digest.
Context {codec : JSON ContentEngine.Reflection}.
(** [d.toLocaleDateString(undefined, {...})] depends on the locale of
    the host. *)
Variable formatHumanDate : Date -> string.
(** The time zone of the host. *)
Variable tz : TimeZone.

Definition buildDailyDigest (P : ContentEngine.Pools) (ls : LocalStorage)
    (date : Date) : result Digest * LocalStorage :=
  let '(r, ls') :=
    ContentEngine.getReflectionForDate P ls date ContentEngine.mindfulness in
  (bind r (fun reflection =>
   bind (cards_or_throw (ArticleEngine.listArticlesForDate date 1)) (fun all =>
   let articles := take 3 all in
   let subject := "Daily • " +:+ formatHumanDate date in
   Ok {| subject := subject; reflection := reflection;
         articles := articles |})), ls').

(** [days.map(d => listArticlesForDate(d, 1)[0])]: the first card of
    each day, [undefined] ([None]) for a day without cards. *)
Definition highlights (days : list Date)
    : result (list (option ArticleEngine.ArticleCard)) :=
  cards_or_throw
    (mapM (fun d => head <$> ArticleEngine.listArticlesForDate d 1) days).

Definition buildWeeklyDigest (P : ContentEngine.Pools) (ls : LocalStorage)
    (endDate : Date) : result Digest * LocalStorage :=
  let days := previousDays tz endDate 7 in
  let '(r, ls') :=
    ContentEngine.getReflectionForDate P ls endDate ContentEngine.faith_reason in
  (bind r (fun reflection =>
   bind (highlights days) (fun firsts =>
   let articles := take 7 (omap id firsts) in
   let weekRange :=
     formatHumanDate (nth (length days - 1) days endDate) +:+ " – "
       +:+ formatHumanDate (nth 0 days endDate) in
   let subject := "Weekly Digest • " +:+ weekRange in
   Ok {| subject := subject; reflection := reflection;
         articles := articles |})), ls').
End Digest.

(** The card [c] is the article of topic [t], index 1, for the day of [d]. *)
Definition card_for (t : ArticleEngine.TopicKey) (d : Date)
    (c : ArticleEngine.ArticleCard) : Prop :=
  exists a, ArticleEngine.generateArticleCore t (ArticleEngine.toDateISO d) 1 = Some a
            /\ c = ArticleEngine.card_of a.

End NewsletterDigest.

(** ** env.ts *)

Module Env.

(** [/^(localhost|127\.0\.0\.1)$/i.test(hostname)] *)
Definition is_local_host (hostname : string) : bool :=
  let h := toLowerCase hostname in
  String.eqb h "localhost" || String.eqb h "127.0.0.1".

(** [hostname] is [None] when there is no [window]. *)
Definition IS_PUBLIC (hostname : option string) : bool :=
  match hostname with
  | Some h => negb (is_local_host h)
  | None => true
  end.

Definition IS_LOCAL (hostname : option string) : bool :=
  negb (IS_PUBLIC hostname).

End Env.

(** ** remoteImages.ts: remote mappings and the CSV reader *)

Module RemoteImages.

Record RemoteMaps : Type := {
  topics : gmap string string;
  articles : gmap string string
}.

(** The four module-level tables. *)
Record State : Type := {
  remoteTopicMap : gmap string string;
  remoteArticleMap : gmap string string;
  localTopicMap : gmap string string;
  localArticleMap : gmap string string
}.

Definition getRemoteTopicImage (st : State) (topicKey : string)
    : option string :=
  nullish (localTopicMap st !! topicKey) (remoteTopicMap st !! topicKey).

Definition getRemoteArticleImage (st : State) (articleId : string)
    : option string :=
  nullish (localArticleMap st !! articleId) (remoteArticleMap st !! articleId).

Definition comma : ascii := ascii_of_N 44.
Definition LF : ascii := ascii_of_N 10.
Definition CR : ascii := ascii_of_N 13.

(** The loop of [parseCsvLine]; the [i++] of an escaped quote is the step
    over two characters. *)
Fixpoint csv_fields (line : string) (inQuotes : bool) (cur : string)
    (out : list string) : list string :=
  match line with
  | EmptyString => (out ++ [cur])%list
  | String ch rest =>
      if inQuotes then
        if Ascii.eqb ch dquote_char then
          match rest with
          | String next rest' =>
              if Ascii.eqb next dquote_char
              then csv_fields rest' true (cur +:+ dquote) out
              else csv_fields rest false cur out
          | EmptyString => csv_fields rest false cur out
          end
        else csv_fields rest true (cur +:+ String ch EmptyString) out
      else
        if Ascii.eqb ch comma then csv_fields rest false EmptyString (out ++ [cur])%list
        else if Ascii.eqb ch dquote_char then csv_fields rest true cur out
        else csv_fields rest false (cur +:+ String ch EmptyString) out
  end.

Definition parseCsvLine (line : string) : list string :=
  map trim (csv_fields line false EmptyString []).

(** [text.split(/\r?\n/)] *)
Fixpoint split_lines (text : string) : list string :=
  match text with
  | EmptyString => [EmptyString]
  | String c r =>
      let continue_ :=
        match split_lines r with
        | l :: ls => String c l :: ls
        | [] => [String c EmptyString]
        end in
      if Ascii.eqb c LF then EmptyString :: split_lines r
      else if Ascii.eqb c CR then
        match r with
        | String c2 r2 =>
            if Ascii.eqb c2 LF then EmptyString :: split_lines r2
            else continue_
        | EmptyString => continue_
        end
      else continue_
  end.

(** [text.replace(/^\uFEFF/, '')]: U+FEFF is not a code unit below 256,
    so no string of the embedding starts with it. *)
Definition strip_bom (text : string) : string := text.

(** [arr.indexOf(v)], [None] for [-1]. *)
Fixpoint indexOf (v : string) (arr : list string) : option nat :=
  match arr with
  | [] => None
  | x :: r => if String.eqb x v then Some O else S <$> indexOf v r
  end.

(** [a >= 0 ? a : b] on two [indexOf] results. *)
Definition index_or (a b : option nat) : option nat :=
  match a with
  | Some _ => a
  | None => b
  end.

(** The columns read for a data row. *)
Record Columns : Type := { typeIdx : nat; keyIdx : nat; urlIdx : nat }.

(** The header decides the columns; without a full header the first line
    is data and the columns are 0, 1, 2. *)
Definition header_columns (headerFields : list string) : option Columns :=
  match indexOf "type" headerFields,
        index_or (indexOf "key" headerFields) (indexOf "id" headerFields),
        index_or (indexOf "url" headerFields) (indexOf "image" headerFields)
  with
  | Some t, Some k, Some u => Some {| typeIdx := t; keyIdx := k; urlIdx := u |}
  | _, _, _ => None
  end.

Definition empty_maps : RemoteMaps := {| topics := ∅; articles := ∅ |}.

(** [[row[typeIdx], row[keyIdx], row[urlIdx]]]: the three fields read
    from a line, each [undefined] when the line is too short. *)
Definition row_fields (cols : Columns) (line : string)
    : option string * option string * option string :=
  let row := parseCsvLine line in
  (row !! typeIdx cols, row !! keyIdx cols, row !! urlIdx cols).

(** [!t || !k || !u] is false: the three fields are there and not empty. *)
Definition complete (fields : option string * option string * option string)
    : bool :=
  let '(t, k, u) := fields in truthy t && truthy k && truthy u.

(** One turn of the row loop. *)
Definition add_row (cols : Columns) (acc : RemoteMaps) (line : string)
    : RemoteMaps :=
  match row_fields cols line with
  | (Some t, Some k, Some u) =>
      if negb (nonempty t) || negb (nonempty k) || negb (nonempty u) then acc
      else
        let type := toLowerCase t in
        if String.eqb type "topic"
        then {| topics := assign (topics acc) k u; articles := articles acc |}
        else if String.eqb type "article"
        then {| topics := topics acc; articles := assign (articles acc) k u |}
        else acc
  | _ => acc
  end.

Definition csv_lines (text : string) : list string :=
  filter (fun l => nonempty l = true) (map trim (split_lines (strip_bom text))).

Definition parseCSV (text : string) : RemoteMaps :=
  match csv_lines text with
  | [] => empty_maps
  | first :: rest =>
      match header_columns (map toLowerCase (parseCsvLine first)) with
      | Some cols => fold_left (add_row cols) rest empty_maps
      | None =>
          fold_left (add_row {| typeIdx := 0; keyIdx := 1; urlIdx := 2 |})
                    (first :: rest) empty_maps
      end
  end.

End RemoteImages.

(** ** config/images.ts and imageOverrides.ts: the image resolution chain *)

Module ImageOverrides.
Import ArticleEngine.

(** The three exports of [config/images.ts]. *)
Record Config : Type := {
  siteWideImageOverride : option string;
  topicDefaultImages : TopicKey -> option string;
  articleDefaultImages : gmap string string
}.

(** The configuration as committed. *)
Definition sourceConfig : Config := {|
  siteWideImageOverride :=
    Some "https://pub-cdn.sider.ai/u/U0AWH6J28LO/web-coder/6896d87314f019f2a83e5a14/resource/40a7f191-0501-4b2f-9f2f-478e08a0354e.png";
  topicDefaultImages := fun t => Some
    match t with
    | faith_and_reason => "https://pub-cdn.sider.ai/u/U0AWH6J28LO/web-coder/6896d87314f019f2a83e5a14/resource/1165a6e5-d918-498f-a892-da02f7b9f33a.jpg"
    | ethics => "https://pub-cdn.sider.ai/u/U0AWH6J28LO/web-coder/6896d87314f019f2a83e5a14/resource/73f2a284-a52f-4bf1-bf95-3e39633111ca.jpg"
    | metaphysics => "https://pub-cdn.sider.ai/u/U0AWH6J28LO/web-coder/6896d87314f019f2a83e5a14/resource/af573bbf-31f8-442b-8503-451b73c6c684.jpg"
    | theology => "https://pub-cdn.sider.ai/u/U0AWH6J28LO/web-coder/6896d87314f019f2a83e5a14/resource/a43918b1-181b-4638-b410-ab48ccf35af3.jpg"
    | scripture => "https://pub-cdn.sider.ai/u/U0AWH6J28LO/web-coder/6896d87314f019f2a83e5a14/resource/e15f031d-3ed1-4ca3-8278-ad0baf2303a4.jpg"
    | aesthetics => "https://pub-cdn.sider.ai/u/U0AWH6J28LO/web-coder/6896d87314f019f2a83e5a14/resource/df1cf8b6-e235-4955-8670-5f8be3b3abbb.jpg"
    | history => "https://pub-cdn.sider.ai/u/U0AWH6J28LO/web-coder/6896d87314f019f2a83e5a14/resource/1fd06e00-e387-4481-8236-f43db402e908.jpg"
    | apologetics => "https://pub-cdn.sider.ai/u/U0AWH6J28LO/web-coder/6896d87314f019f2a83e5a14/resource/329c538a-dc7f-4d23-9679-d5eff2ad8f2b.jpg"
    end;
  articleDefaultImages := ∅
|}.

(** What [JSON.parse] finds in the stored overrides: either table may be
    absent. *)
Record StoredOverrides : Type := {
  stored_topics : option (gmap string string);
  stored_articles : option (gmap string string)
}.

Record ImageOverrides : Type := {
  topics : gmap string string;
  articles : gmap string string
}.

Definition STORAGE_KEY : string := "ll-image-overrides:v1".
Definition STORAGE_SITE_WIDE : string := "ll-sitewide-image:v1".
Definition OV_EVENT : string := "ll-image-overrides-changed".

(** What the functions of the module read and change: the storage, the
    events dispatched on [window] so far, and the tables of
    [remoteImages.ts]. *)
Record World : Type := {
  storage : LocalStorage;
  dispatched : list string;
  remote : RemoteImages.State
}.

(** [if (v) return v], then the rest of the function. *)
Definition return_if (v : option string) (rest : string) : string :=
  match v with
  | Some s => if nonempty s then s else rest
  | None => rest
  end.

Definition getSiteWideImageLocal (ls : LocalStorage) : option string :=
  match getItem ls STORAGE_SITE_WIDE with
  | Ok (Some v) =>
      if nonempty v && nonempty (trim v) then Some (trim v) else None
  | Ok None => None
  | Throw _ => None
  end.

(** [src && src.trim()]: the text to store, if any. *)
Definition text_of (src : option string) : option string :=
  match src with
  | Some s => if nonempty s && nonempty (trim s) then Some (trim s) else None
  | None => None
  end.

(** The store or the removal, then the event; a throw skips the event. *)
Definition setSiteWideImage (w : World) (src : option string) : World :=
  let attempt :=
    match text_of src with
    | Some v => setItem (storage w) STORAGE_SITE_WIDE v
    | None => removeItem (storage w) STORAGE_SITE_WIDE
    end in
  match attempt with
  | Some ls' =>
      {| storage := ls'; dispatched := (dispatched w ++ [OV_EVENT])%list;
         remote := remote w |}
  | None => w
  end.

Section Overrides.
Context {codec : JSON StoredOverrides}.

Definition no_overrides : ImageOverrides := {| topics := ∅; articles := ∅ |}.

Definition getOverrides (ls : LocalStorage) : ImageOverrides :=
  match getItem ls STORAGE_KEY with
  | Ok (Some raw) =>
      if nonempty raw then
        match parse raw with
        | Some parsed =>
            {| topics := default ∅ (stored_topics parsed);
               articles := default ∅ (stored_articles parsed) |}
        | None => no_overrides
        end
      else no_overrides
  | Ok None => no_overrides
  | Throw _ => no_overrides
  end.

Definition saveOverrides (w : World) (next : ImageOverrides) : World :=
  let payload :=
    stringify {| stored_topics := Some (topics next);
                 stored_articles := Some (articles next) |} in
  {| storage :=
       match setItem (storage w) STORAGE_KEY payload with
       | Some ls' => ls'
       | None => storage w
       end;
     dispatched := (dispatched w ++ [OV_EVENT])%list;
     remote := remote w |}.

Definition resolveTopicDefault (cfg : Config) (topic : TopicKey)
    (fallback : string) : string :=
  return_if (topicDefaultImages cfg topic) fallback.

Definition resolveArticleDefault (cfg : Config) (articleId : string)
    (fallback : string) (topicKey : option TopicKey) : string :=
  return_if (articleDefaultImages cfg !! articleId)
    (match topicKey with
     | Some t => return_if (topicDefaultImages cfg t) fallback
     | None => fallback
     end).

Definition setTopicImage (IS_PUBLIC : bool) (w : World) (topic : TopicKey)
    (src : option string) : World :=
  if IS_PUBLIC then w
  else
    let ov := getOverrides (storage w) in
    saveOverrides w
      match text_of src with
      | Some v => {| topics := <[key_string topic := v]> (topics ov);
                     articles := articles ov |}
      | None => {| topics := delete (key_string topic) (topics ov);
                   articles := articles ov |}
      end.

Definition setArticleImage (IS_PUBLIC : bool) (w : World)
    (articleId : string) (src : option string) : World :=
  if IS_PUBLIC then w
  else
    let ov := getOverrides (storage w) in
    saveOverrides w
      match text_of src with
      | Some v => {| topics := topics ov;
                     articles := <[articleId := v]> (articles ov) |}
      | None => {| topics := topics ov;
                   articles := delete articleId (articles ov) |}
      end.

(** [siteWideImageOverride || getSiteWideImageLocal()] *)
Definition siteWide (cfg : Config) (w : World) : option string :=
  or_else (siteWideImageOverride cfg) (getSiteWideImageLocal (storage w)).

Definition getTopicImage (cfg : Config) (IS_PUBLIC : bool) (w : World)
    (topic : TopicKey) (defaultSrc : string) : string :=
  return_if (siteWide cfg w)
    (if IS_PUBLIC then
       return_if (RemoteImages.getRemoteTopicImage (remote w) (key_string topic))
         (resolveTopicDefault cfg topic defaultSrc)
     else
       let ov := getOverrides (storage w) in
       return_if (topics ov !! key_string topic)
         (return_if (RemoteImages.getRemoteTopicImage (remote w) (key_string topic))
            (resolveTopicDefault cfg topic defaultSrc))).

(** [if (topicKey) { const rt = ...; if (rt) return rt }] *)
Definition remote_topic_of (w : World) (topicKey : option TopicKey)
    : option string :=
  match topicKey with
  | Some t => RemoteImages.getRemoteTopicImage (remote w) (key_string t)
  | None => None
  end.

Definition getArticleImage (cfg : Config) (IS_PUBLIC : bool) (w : World)
    (articleId : string) (defaultSrc : string) (topicKey : option TopicKey)
    : string :=
  return_if (siteWide cfg w)
    (if IS_PUBLIC then
       (* 1) remote article mapping *)
       return_if (RemoteImages.getRemoteArticleImage (remote w) articleId)
       (* 2) remote topic mapping *)
       (return_if (remote_topic_of w topicKey)
       (* 3) code default for this article *)
       (return_if (articleDefaultImages cfg !! articleId)
       (* 4) generated per-article default *)
       (return_if (Some defaultSrc)
       (* 5) code default of the topic *)
       (return_if (match topicKey with
                   | Some t => topicDefaultImages cfg t
                   | None => None
                   end)
          defaultSrc))))
     else
       let ov := getOverrides (storage w) in
       return_if (articles ov !! articleId)
       (return_if (match topicKey with
                   | Some t => topics ov !! key_string t
                   | None => None
                   end)
       (return_if (RemoteImages.getRemoteArticleImage (remote w) articleId)
       (return_if (remote_topic_of w topicKey)
          (resolveArticleDefault cfg articleId defaultSrc topicKey))))).

Definition getAllOverrides (IS_PUBLIC : bool) (w : World) : ImageOverrides :=
  if IS_PUBLIC then no_overrides else getOverrides (storage w).
End Overrides.

End ImageOverrides.


(** ** articleEngine.ts, continued: details by id *)

Module ArticleDetail.
Import ArticleEngine.

(** [hay.includes(needle)] *)
Fixpoint includes (needle hay : string) : bool :=
  starts_with needle hay
  || match hay with
     | EmptyString => false
     | String _ r => includes needle r
     end.

Definition guessTopicFromSlug (slug : string) : option TopicKey :=
  let lower := toLowerCase slug in
  key <$> find (fun t => includes (key_string (key t)) lower) topics.

(** [seed] defaults to 0 in the source; every call passes it. *)
Definition buildPrimerBody (topic : TopicKey) (seed : N) : option (list string) :=
  let intro :=
    "A short primer on " +:+ humanLabel topic
      +:+ ": key ideas, a scripture to ponder, and one simple practice to begin." in
  let core := sampleDeterministic (paragraphsByTopic topic) 3 (seed + 1) in
  scr ← pick (scriptureByTopic topic) (seed + 2);
  let scripturePara :=
    "Scripture to ponder: “" +:+ s_text scr +:+ "” (" +:+ s_ref scr +:+ ")." in
  practice ← pick (practiceByTopic topic) (seed + 3);
  Some ([intro] ++ core ++ [scripturePara; practice])%list.

(** [[-_]] *)
Definition is_separator (c : ascii) : bool :=
  Ascii.eqb c "-" || Ascii.eqb c "_".

(** [($|[-_])] at the head of [s]. *)
Definition boundary_after (s : string) : bool :=
  match s with
  | EmptyString => true
  | String c _ => is_separator c
  end.

(** The scan for [(^|[-_])primer($|[-_])] over a lower-cased text;
    [at_boundary] tells whether the position is the start of the text or
    follows a separator. *)
Fixpoint primer_scan (at_boundary : bool) (s : string) : bool :=
  match s with
  | EmptyString => false
  | String c r =>
      (at_boundary && starts_with "primer" s && boundary_after (str_drop 6 s))
      || primer_scan (is_separator c) r
  end.

(** [/(^|[-_])primer($|[-_])/i.test(id)] *)
Definition isPrimer (id : string) : bool := primer_scan true (toLowerCase id).

(** [today] is the [new Date()] the fallback path reads. *)
Definition getArticleDetailById (today : Date) (id : string) : option Article :=
  match parseArticleId id with
  | Some parsed =>
      generateArticleCore (p_topic parsed) (p_dateISO parsed) (p_index parsed)
  | None =>
      match guessTopicFromSlug id with
      | Some topicGuess =>
          let todayISO := toDateISO today in
          let seed := hash (id +:+ "|" +:+ todayISO) in
          base ← generateArticleCore topicGuess todayISO 1;
          body ← (if isPrimer id then buildPrimerBody topicGuess seed
                  else buildBody topicGuess seed);
          let title :=
            if isPrimer id then humanLabel topicGuess +:+ " Primer"
            else ArticleEngine.title base in
          let excerpt :=
            if isPrimer id
            then "A concise primer on " +:+ humanLabel topicGuess
                   +:+ "—themes, Scripture, and one simple practice to start."
            else ArticleEngine.excerpt base in
          let image := "https://pub-cdn.sider.ai/u/U0AWH6J28LO/web-coder/6896d87314f019f2a83e5a14/resource/24eb1c6b-ca6a-40e9-b18f-114f22829fd8.jpg" in
          Some {| id := id; title := title; excerpt := excerpt; image := image;
                  tags := tags base; body := body; quote := quote base;
                  topic := ArticleEngine.topic base;
                  dateISO := ArticleEngine.dateISO base |}
      | None => None
      end
  end.

End ArticleDetail.

(** ** remoteImages.ts, continued: the tables and their persistence *)

Module RemoteStore.
Import RemoteImages.

Definition REMOTE_EVENT : string := "ll-remote-images-changed".
Definition LOCAL_STORAGE_KEY : string := "ll-remote-images-local:v1".

(** What [JSON.parse] finds in a mapping text: either table may be absent. *)
Record StoredMaps : Type := {
  stored_topics : option (gmap string string);
  stored_articles : option (gmap string string)
}.

Definition World : Type := ImageOverrides.World.

Definition with_remote (w : World) (st : State) : World :=
  {| ImageOverrides.storage := ImageOverrides.storage w;
     ImageOverrides.dispatched := ImageOverrides.dispatched w;
     ImageOverrides.remote := st |}.

Definition notifyChange (w : World) : World :=
  {| ImageOverrides.storage := ImageOverrides.storage w;
     ImageOverrides.dispatched :=
       (ImageOverrides.dispatched w ++ [REMOTE_EVENT])%list;
     ImageOverrides.remote := ImageOverrides.remote w |}.

Definition getRemoteMaps (st : State) : RemoteMaps :=
  {| topics := remoteTopicMap st; articles := remoteArticleMap st |}.

Definition getLocalMaps (st : State) : RemoteMaps :=
  {| topics := localTopicMap st; articles := localArticleMap st |}.

(** [{ ...remoteTopicMap, ...localTopicMap }]: the later spread wins. *)
Definition getEffectiveMaps (st : State) : RemoteMaps :=
  {| topics := localTopicMap st ∪ remoteTopicMap st;
     articles := localArticleMap st ∪ remoteArticleMap st |}.

Definition setRemoteMaps (w : World) (next : RemoteMaps) : World :=
  let st := ImageOverrides.remote w in
  notifyChange
    (with_remote w
       {| remoteTopicMap := topics next; remoteArticleMap := articles next;
          localTopicMap := localTopicMap st;
          localArticleMap := localArticleMap st |}).

Section Persistence.
Context {codec : JSON StoredMaps}.

Definition saveLocalPersist (w : World) : World :=
  let st := ImageOverrides.remote w in
  let payload :=
    stringify {| stored_topics := Some (localTopicMap st);
                 stored_articles := Some (localArticleMap st) |} in
  {| ImageOverrides.storage :=
       match setItem (ImageOverrides.storage w) LOCAL_STORAGE_KEY payload with
       | Some ls' => ls'
       | None => ImageOverrides.storage w
       end;
     ImageOverrides.dispatched := ImageOverrides.dispatched w;
     ImageOverrides.remote := st |}.

Definition persistLocalMaps (w : World) (next : RemoteMaps) : World :=
  let st := ImageOverrides.remote w in
  notifyChange
    (saveLocalPersist
       (with_remote w
          {| remoteTopicMap := remoteTopicMap st;
             remoteArticleMap := remoteArticleMap st;
             localTopicMap := topics next;
             localArticleMap := articles next |})).

Definition clearLocalMaps (w : World) : World :=
  let st := ImageOverrides.remote w in
  notifyChange
    {| ImageOverrides.storage :=
         match removeItem (ImageOverrides.storage w) LOCAL_STORAGE_KEY with
         | Some ls' => ls'
         | None => ImageOverrides.storage w
         end;
       ImageOverrides.dispatched := ImageOverrides.dispatched w;
       ImageOverrides.remote :=
         {| remoteTopicMap := remoteTopicMap st;
            remoteArticleMap := remoteArticleMap st;
            localTopicMap := ∅; localArticleMap := ∅ |} |}.

(** The tables a mapping text stands for; nothing usable gives two empty
    tables. *)
Definition tables_of (text : string) : RemoteMaps :=
  match parse text with
  | Some obj => {| topics := default ∅ (stored_topics obj);
                   articles := default ∅ (stored_articles obj) |}
  | None => empty_maps
  end.

Definition parseJSON (text : string) : RemoteMaps := tables_of text.

Definition loadLocalPersist (w : World) : World :=
  let st := ImageOverrides.remote w in
  let loaded :=
    match getItem (ImageOverrides.storage w) LOCAL_STORAGE_KEY with
    | Ok (Some raw) => if nonempty raw then tables_of raw else empty_maps
    | Ok None => empty_maps
    | Throw _ => empty_maps
    end in
  with_remote w
    {| remoteTopicMap := remoteTopicMap st;
       remoteArticleMap := remoteArticleMap st;
       localTopicMap := topics loaded; localArticleMap := articles loaded |}.

(** The part of [initRemoteImages] that runs before any fetch. *)
Definition initRemoteImages (w : World) : World :=
  notifyChange (loadLocalPersist w).

Inductive RemoteSource : Type := csv | json.

Record RemoteImagesConfig : Type := {
  enabled : bool;
  source : RemoteSource;
  url : string
}.

(** [fetchAndUpdate] once the request has settled: [response] is the body
    of an OK answer, [None] a network error or a status that is not OK. *)
Definition fetchAndUpdate (cfg : RemoteImagesConfig) (w : World)
    (response : option string) : World :=
  if negb (enabled cfg) || negb (nonempty (url cfg)) then w
  else
    match response with
    | None => w
    | Some text =>
        let parsed :=
          match source cfg with
          | json => parseJSON text
          | csv => parseCSV text
          end in
        let st := ImageOverrides.remote w in
        notifyChange
          (with_remote w
             {| remoteTopicMap := topics parsed;
                remoteArticleMap := articles parsed;
                localTopicMap := localTopicMap st;
                localArticleMap := localArticleMap st |})
    end.
End Persistence.

End RemoteStore.

(** ** contentOverrides.ts: per-article text overrides *)

Module ContentOverrides.

(** A stored [ArticleContentOverride]: every field may be absent. *)
Record ArticleContentOverride : Type := {
  o_title : option string;
  o_excerpt : option string;
  o_tags : option (list string);
  o_body : option (list string);
  o_quote : option Quote
}.

Definition no_override : ArticleContentOverride :=
  {| o_title := None; o_excerpt := None; o_tags := None; o_body := None;
     o_quote := None |}.

(** A field of an object handed to [setContentOverride]: the key is absent
    ([None]), present with the value [undefined] ([Some None]), or present
    with a value. *)
Definition Field (A : Type) : Type := option (option A).

(** The object handed to [setContentOverride]. *)
Record OverridePatch : Type := {
  p_title : Field string;
  p_excerpt : Field string;
  p_tags : Field (list string);
  p_body : Field (list string);
  p_quote : Field Quote
}.

(** One field of [{ ...prev, ...override }] as it is stored: a key of
    [override] replaces the one of [prev], also when its value is
    [undefined], and [JSON.stringify] then leaves an [undefined] field
    out. *)
Definition spread_field {A} (prev : option A) (override : Field A) : option A :=
  match override with
  | Some value => value
  | None => prev
  end.

Definition spread (prev : ArticleContentOverride) (override : OverridePatch)
    : ArticleContentOverride :=
  {| o_title := spread_field (o_title prev) (p_title override);
     o_excerpt := spread_field (o_excerpt prev) (p_excerpt override);
     o_tags := spread_field (o_tags prev) (p_tags override);
     o_body := spread_field (o_body prev) (p_body override);
     o_quote := spread_field (o_quote prev) (p_quote override) |}.

Definition STORAGE_KEY : string := "ll-content-overrides:v1".
Definition CONTENT_EVENT : string := "ll-content-overrides-changed".

(** The storage and the events dispatched so far. *)
Record World : Type := {
  storage : LocalStorage;
  dispatched : list string
}.

Section Store.
(** [parse] answers [None] when [JSON.parse] throws or its result is not
    an object. *)
Context {codec : JSON (gmap string ArticleContentOverride)}.

Definition readAll (ls : LocalStorage) : gmap string ArticleContentOverride :=
  match getItem ls STORAGE_KEY with
  | Ok (Some raw) => if nonempty raw then default ∅ (parse raw) else ∅
  | Ok None => ∅
  | Throw _ => ∅
  end.

Definition writeAll (w : World) (map : gmap string ArticleContentOverride)
    : World :=
  {| storage :=
       match setItem (storage w) STORAGE_KEY (stringify map) with
       | Some ls' => ls'
       | None => storage w
       end;
     dispatched := (dispatched w ++ [CONTENT_EVENT])%list |}.

(** [map[articleId]], which free text may send to [Object.prototype]. *)
Definition getContentOverride (w : World) (articleId : string)
    : Member ArticleContentOverride :=
  get_member (readAll (storage w)) articleId.

(** [map[articleId] || {}] as it is spread: an inherited member is truthy
    but has no enumerable property of its own. *)
Definition previous (map : gmap string ArticleContentOverride)
    (articleId : string) : ArticleContentOverride :=
  match get_member map articleId with
  | Own prev => prev
  | Inherited => no_override
  | Missing => no_override
  end.

Definition setContentOverride (w : World) (articleId : string)
    (override : OverridePatch) : World :=
  let map := readAll (storage w) in
  let prev := previous map articleId in
  writeAll w (assign map articleId (spread prev override)).

(** [if (map[articleId])] is taken for an own override and for an
    inherited member alike; [delete] removes own properties only. *)
Definition clearContentOverride (w : World) (articleId : string) : World :=
  let map := readAll (storage w) in
  match get_member map articleId with
  | Own _ => writeAll w (delete articleId map)
  | Inherited => writeAll w (delete articleId map)
  | Missing => w
  end.

Definition getAllContentOverrides (w : World)
    : gmap string ArticleContentOverride := readAll (storage w).

Definition setAllContentOverrides (w : World)
    (next : gmap string ArticleContentOverride) : World := writeAll w next.
End Store.

End ContentOverrides.

(** ** pages/ImageryEditor.tsx: rows, tables and the CSV export *)

Module ImageryEditor.
Import RemoteImages.

(** A [MappingRow]: [{ key, url }]. *)
Definition MappingRow : Type := (string * string)%type.

(** [Object.entries(table)]: the own entries of a table.  JavaScript lists
    them in insertion order, which the table of the embedding does not
    record; what is proved of the export holds for every order. *)
Definition entries (table : gmap string string) : list MappingRow :=
  map_to_list table.

Definition mapsToRows (maps : RemoteMaps) : list MappingRow * list MappingRow :=
  (entries (topics maps), entries (articles maps)).

(** [Object.fromEntries(rows.filter(r => r.key && r.url).map(...))]: the
    rows are written in order, a later row replacing an earlier one. *)
Definition write_row (table : gmap string string) (r : MappingRow)
    : gmap string string := <[r.1 := r.2]> table.

Definition fromRows (rows : list MappingRow) : gmap string string :=
  fold_left write_row
            (filter (fun r : MappingRow => nonempty r.1 && nonempty r.2 = true) rows)
            ∅.

Definition rowsToMaps (topicRows articleRows : list MappingRow) : RemoteMaps :=
  {| topics := fromRows topicRows; articles := fromRows articleRows |}.

(** The characters that force quoting: double quote, comma, line feed,
    carriage return. *)
Definition is_special (c : ascii) : bool :=
  Ascii.eqb c dquote_char || Ascii.eqb c comma || Ascii.eqb c LF || Ascii.eqb c CR.

Fixpoint any_char (p : ascii -> bool) (s : string) : bool :=
  match s with
  | EmptyString => false
  | String c r => p c || any_char p r
  end.

Definition csvEscape (v : string) : string :=
  let needsQuote := any_char is_special v in
  let out := replace_all dquote (dquote +:+ dquote) v in
  if needsQuote then dquote +:+ out +:+ dquote else out.

(** One pushed line: [[csvEscape(type), csvEscape(k), csvEscape(u)].join(',')]. *)
Definition csv_row (type : string) (r : MappingRow) : string :=
  String.concat "," [csvEscape type; csvEscape r.1; csvEscape r.2].

(** [toCSV] on the entries the two loops visit. *)
Definition toCSV_entries (topicEntries articleEntries : list MappingRow) : string :=
  String.concat (String LF EmptyString)
    (["type,key,url"] ++ map (csv_row "topic") topicEntries
       ++ map (csv_row "article") articleEntries)%list.

Definition toCSV (maps : RemoteMaps) : string :=
  toCSV_entries (entries (topics maps)) (entries (articles maps)).

End ImageryEditor.

(** The entry a line writes into the table of [type] ([topic] or
    [article]): the key and url of a row whose three fields are there and
    not empty and whose type, in lower case, is [type]. *)
Definition row_entry (cols : RemoteImages.Columns) (type line : string)
    : option (string * string) :=
  match RemoteImages.row_fields cols line with
  | (Some t, Some k, Some u) =>
      if nonempty t && nonempty k && nonempty u
         && String.eqb (toLowerCase t) type
      then Some (k, u)
      else None
  | _ => None
  end.

(** [v] with every double quote written twice. *)
Fixpoint doubled (v : string) : string :=
  match v with
  | EmptyString => EmptyString
  | String c r =>
      if Ascii.eqb c dquote_char then String c (String c (doubled r))
      else String c (doubled r)
  end.

(** Line feed or carriage return. *)
Definition is_line_break (c : ascii) : bool :=
  Ascii.eqb c RemoteImages.LF || Ascii.eqb c RemoteImages.CR.

(** A text that survives the CSV lines: not empty, no white space at
    either end, no line feed and no carriage return. *)
Definition plain_field (s : string) : bool :=
  nonempty s && String.eqb (trim s) s
  && negb (ImageryEditor.any_char is_line_break s).

(** A row whose key and url are both plain and whose key is not
    [__proto__], the one key an assignment to a table does not store. *)
Definition plain_row (r : ImageryEditor.MappingRow) : bool :=
  plain_field r.1 && plain_field r.2 && negb (String.eqb r.1 "__proto__").

(** ** Shapes used to state properties of dates *)

(** [w] decimal digits exactly. *)
Definition digit_field (w : nat) (s : string) : bool :=
  (String.length s =? w)%nat && all_chars is_digit s.

(** The first millisecond of the year 0000 and of the year 10000: between
    them [toISOString] writes a four-digit year. *)
Definition year_0000 : Z := (-62167219200000)%Z.
Definition year_10000 : Z := 253402300800000%Z.

(** [p] holds at [z], [z + 1], ..., [z + fuel - 1]. *)
Fixpoint all_from (fuel : nat) (z : Z) (p : Z -> bool) : bool :=
  match fuel with
  | O => true
  | S fuel' => p z && all_from fuel' (z + 1)%Z p
  end.

(** The year of the era, the month and the day of the month that
    [civil_from_days] computes from the day of the 400-year era. *)
Definition era_fields (doe : Z) : Z * Z * Z :=
  let yoe := ((doe - doe / 1460 + doe / 36524 - doe / 146096) / 365)%Z in
  let doy := (doe - (365 * yoe + yoe / 4 - yoe / 100))%Z in
  let mp := ((5 * doy + 2) / 153)%Z in
  let d := (doy - (153 * mp + 2) / 5 + 1)%Z in
  let m := (if (mp <? 10)%Z then mp + 3 else mp - 9)%Z in
  (yoe, m, d).

(** The day of the era of a year of the era, a month and a day of the
    month: the way back from [era_fields]. *)
Definition era_day (yoe m d : Z) : Z :=
  let mp := (if (m <=? 2)%Z then m + 9 else m - 3)%Z in
  let doy := ((153 * mp + 2) / 5 + d - 1)%Z in
  (yoe * 365 + yoe / 4 - yoe / 100 + doy)%Z.

(** ** More fixtures *)

Module MoreFixtures.

(** A codec with a single stored text, which reads as [a]. *)
Definition constant_codec {A : Type} (text : string) (a : A) : JSON A :=
  {| stringify := fun _ => text;
     parse := fun raw => if String.eqb raw text then Some a else None |}.

Definition overlay_sample : RemoteImages.RemoteMaps :=
  {| RemoteImages.topics := {[ "ethics" := "https://overlay/e.jpg" ]};
     RemoteImages.articles := ∅ |}.

End MoreFixtures.


(** ** Fixtures: concrete codecs, storages and worlds used to run the
    definitions on explicit inputs *)

Module Fixtures.
Import ImageOverrides.

Definition empty_storage : LocalStorage :=
  {| items := ∅; readable := true; writable := true |}.

Definition no_remote : RemoteImages.State :=
  {| RemoteImages.remoteTopicMap := ∅; RemoteImages.remoteArticleMap := ∅;
     RemoteImages.localTopicMap := ∅; RemoteImages.localArticleMap := ∅ |}.

(** Remote tables that answer for the ethics topic and one of its
    articles. *)
Definition busy_remote : RemoteImages.State :=
  {| RemoteImages.remoteTopicMap := {[ "ethics" := "https://remote/topic.jpg" ]};
     RemoteImages.remoteArticleMap :=
       {[ "ethics-20250811-1" := "https://remote/article.jpg" ]};
     RemoteImages.localTopicMap := {[ "ethics" := "https://overlay/topic.jpg" ]};
     RemoteImages.localArticleMap := ∅ |}.

(** A codec that reads every stored text as the empty object. *)
Definition overrides_codec : JSON StoredOverrides :=
  {| stringify := fun _ => "{}";
     parse := fun _ => Some {| stored_topics := None; stored_articles := None |} |}.

Definition fresh_world : World :=
  {| storage := empty_storage; dispatched := []; remote := no_remote |}.

Definition busy_world : World :=
  {| storage :=
       {| items := {[ STORAGE_SITE_WIDE := "https://local/wide.png" ]};
          readable := true; writable := true |};
     dispatched := [];
     remote := busy_remote |}.

(** The committed configuration with the site-wide override switched off. *)
Definition config_without_override : Config :=
  {| siteWideImageOverride := None;
     topicDefaultImages := topicDefaultImages sourceConfig;
     articleDefaultImages := articleDefaultImages sourceConfig |}.

Definition cached_reflection : ContentEngine.Reflection :=
  {| ContentEngine.dateISO := "2025-01-01";
     ContentEngine.theme := ContentEngine.mindfulness;
     ContentEngine.title := "Seen on the first visit";
     ContentEngine.scripture := {| s_text := "Pray without ceasing."; s_ref := "1 Thessalonians 5:17" |};
     ContentEngine.quote := {| q_text := "Faith seeks understanding."; q_author := "Anselm" |};
     ContentEngine.body := ["One paragraph."];
     ContentEngine.prayer := "Amen.";
     ContentEngine.questions := ["A question?"];
     ContentEngine.tags := ["daily"] |}.

(** A codec that knows one stored text. *)
Definition reflection_codec : JSON ContentEngine.Reflection :=
  {| stringify := fun _ => "cached";
     parse := fun raw => if String.eqb raw "cached" then Some cached_reflection else None |}.

(** 2025-01-01T09:30:00Z *)
Definition new_year_2025 : Date := 1735723800000%Z.

Definition storage_with_cache : LocalStorage :=
  {| items := {[ "ll-reflection:2025-01-01:mindfulness" := "cached" ]};
     readable := true; writable := true |}.

(** Tables edited after the first visit: a single entry everywhere. *)
Definition edited_pools : ContentEngine.Pools :=
  {| ContentEngine.scripturePool := [{| s_text := "x"; s_ref := "y" |}];
     ContentEngine.quotePool := [{| q_text := "x"; q_author := "y" |}];
     ContentEngine.titleFragments := fun _ => ["Edited"];
     ContentEngine.bodyTemplates := ["Edited"];
     ContentEngine.prayers := ["Edited"];
     ContentEngine.questionsPool := ["Edited"] |}.

(** New York around the clock change of 9 March 2025, 07:00 UTC: five
    hours behind UTC before it, four hours after; the local hour from 02:00
    that the change skips is read with the offset before it. *)
Definition new_york_2025 : TimeZone :=
  {| offset_at := fun t =>
       if (t <? 1741503600000)%Z then (-18000000)%Z else (-14400000)%Z;
     offset_of_local := fun t =>
       if (t <? 1741503600000 - 14400000)%Z then (-18000000)%Z
       else (-14400000)%Z |}.

End Fixtures.

(** ** Further fixtures *)

Module Samples.
Import Fixtures.

(** The stored form of a table of overrides. *)
Definition stored_form (ov : ImageOverrides.ImageOverrides)
    : ImageOverrides.StoredOverrides :=
  {| ImageOverrides.stored_topics := Some (ImageOverrides.topics ov);
     ImageOverrides.stored_articles := Some (ImageOverrides.articles ov) |}.

Definition ethics_override : ImageOverrides.ImageOverrides :=
  {| ImageOverrides.topics := {[ "ethics" := "https://mine/e.png" ]};
     ImageOverrides.articles := ∅ |}.


(** A world whose stored overrides read as [ov] through
    [constant_codec "saved" (stored_form ov)]. *)
Definition world_with (ov_text : string) : ImageOverrides.World :=
  {| ImageOverrides.storage :=
       {| items := {[ ImageOverrides.STORAGE_KEY := ov_text ]};
          readable := true; writable := true |};
     ImageOverrides.dispatched := [];
     ImageOverrides.remote := busy_remote |}.

#[global] Instance StoredOverrides_eq_dec : EqDecision ImageOverrides.StoredOverrides.
Proof. solve_decision. Defined.

#[global] Instance Quote_eq_dec : EqDecision Quote.
Proof. solve_decision. Defined.

#[global] Instance ArticleContentOverride_eq_dec :
  EqDecision ContentOverrides.ArticleContentOverride.
Proof. solve_decision. Defined.

(** A codec given by a table of texts and the values they stand for: a
    value is written as the first text of the table that stands for it. *)
Definition table_codec {A : Type} `{EqDecision A} (table : list (string * A))
    : JSON A :=
  {| stringify := fun a =>
       match find (fun p => bool_decide (snd p = a)) table with
       | Some p => fst p
       | None => EmptyString
       end;
     parse := fun raw =>
       match find (fun p => String.eqb (fst p) raw) table with
       | Some p => Some (snd p)
       | None => None
       end |}.

(** Two stored texts: the ethics override, and no override at all. *)
Definition overrides_table_codec : JSON ImageOverrides.StoredOverrides :=
  table_codec [("saved", stored_form ethics_override);
               ("{}", stored_form (@ImageOverrides.no_overrides))].

Definition title_patch : ContentOverrides.OverridePatch :=
  {| ContentOverrides.p_title := Some (Some "Edited title");
     ContentOverrides.p_excerpt := Some None;
     ContentOverrides.p_tags := None;
     ContentOverrides.p_body := None;
     ContentOverrides.p_quote := None |}.

Definition titled : ContentOverrides.ArticleContentOverride :=
  {| ContentOverrides.o_title := Some "Edited title";
     ContentOverrides.o_excerpt := None;
     ContentOverrides.o_tags := None;
     ContentOverrides.o_body := None;
     ContentOverrides.o_quote := None |}.

(** Two stored texts: one edited article, and no override at all. *)
Definition content_table_codec
    : JSON (gmap string ContentOverrides.ArticleContentOverride) :=
  table_codec [("one", {[ "ethics-20250811-1" := titled ]}); ("{}", ∅)].

Definition content_world (text : string) : ContentOverrides.World :=
  {| ContentOverrides.storage :=
       {| items := {[ ContentOverrides.STORAGE_KEY := text ]};
          readable := true; writable := true |};
     ContentOverrides.dispatched := [] |}.

(** What the committed tables give for the first day of 2025. *)
Definition generated_sample : ContentEngine.Reflection :=
  match ContentEngine.generateReflection ContentEngine.sourcePools
          new_year_2025 ContentEngine.mindfulness with
  | Ok g => g
  | Throw _ => cached_reflection
  end.

End Samples.

(** * Properties *)

(** ** The image resolution chain *)

Section ImageChain.
Import ImageOverrides ArticleEngine.
Context {codec : JSON StoredOverrides}.

Lemma return_if_truthy (v : option string) (s rest : string) :
  v = Some s -> nonempty s = true -> return_if v rest = s.
Proof. intros -> H. unfold return_if. now rewrite H. Qed.

Lemma return_if_falsy (v : option string) (rest : string) :
  truthy v = false -> return_if v rest = rest.
Proof. destruct v as [s|]; simpl; [intros ->|]; reflexivity. Qed.

(** The local reader only ever answers a non-empty, trimmed text. *)
Lemma getSiteWideImageLocal_nonempty (ls : LocalStorage) (s : string) :
  getSiteWideImageLocal ls = Some s -> nonempty s = true.
Proof.
  unfold getSiteWideImageLocal.
  destruct (getItem ls STORAGE_SITE_WIDE) as [[v|]|]; try discriminate.
  destruct (nonempty v); simpl; try discriminate.
  destruct (nonempty (trim v)) eqn:E; try discriminate.
  now intros [= <-].
Qed.

(** What the local reader answers for a stored text. *)
Lemma getSiteWideImageLocal_stored (ls : LocalStorage) (v : string) :
  readable ls = true -> items ls !! STORAGE_SITE_WIDE = Some v ->
  nonempty (trim v) = true ->
  getSiteWideImageLocal ls = Some (trim v).
Proof.
  intros Hr Hv Ht. unfold getSiteWideImageLocal, getItem. rewrite Hr, Hv.
  destruct v; [discriminate Ht|]. simpl nonempty at 1. now rewrite Ht.
Qed.

Lemma siteWide_resolved (cfg : Config) (w : World) (s : string) :
  (siteWideImageOverride cfg = Some s /\ nonempty s = true)
  \/ (truthy (siteWideImageOverride cfg) = false
      /\ getSiteWideImageLocal (storage w) = Some s) ->
  siteWide cfg w = Some s /\ nonempty s = true.
Proof.
  unfold siteWide, or_else. intros [[Hc Hs]|[Hc Hl]].
  - rewrite Hc. simpl. now rewrite Hs.
  - rewrite Hc. split; [assumption|]. eapply getSiteWideImageLocal_nonempty, Hl.
Qed.

(** C1. Whenever the site-wide override is non-empty, be it the constant of
    the configuration or, that constant being empty, the text the local
    reader finds in the storage, [getTopicImage] and [getArticleImage]
    return exactly that override: for every topic, article id, generated
    default, remote and overlay table, stored per-topic or per-article
    override and code-level default, in the public and in the local
    context alike. *)
Theorem site_wide_override_wins (cfg : Config) (w : World) (s : string) :
  (siteWideImageOverride cfg = Some s /\ nonempty s = true)
  \/ (truthy (siteWideImageOverride cfg) = false
      /\ getSiteWideImageLocal (storage w) = Some s) ->
  forall (IS_PUBLIC : bool),
    (forall (topic : TopicKey) (defaultSrc : string),
        getTopicImage cfg IS_PUBLIC w topic defaultSrc = s)
    /\ (forall (articleId defaultSrc : string) (topicKey : option TopicKey),
        getArticleImage cfg IS_PUBLIC w articleId defaultSrc topicKey = s).
Proof.
  intros H pub. apply siteWide_resolved in H as [Hs Hne].
  split; intros; unfold getTopicImage, getArticleImage;
    now apply return_if_truthy.
Qed.

End ImageChain.

Section ImageChainRuns.
Import ImageOverrides ArticleEngine Fixtures.
Existing Instance overrides_codec.

Lemma site_wide_override_wins_witness :
  getTopicImage sourceConfig false busy_world ethics "https://generated/ethics.jpg"
    = "https://pub-cdn.sider.ai/u/U0AWH6J28LO/web-coder/6896d87314f019f2a83e5a14/resource/40a7f191-0501-4b2f-9f2f-478e08a0354e.png"
  /\ getArticleImage config_without_override true busy_world
       "ethics-20250811-1" "https://generated/a1.jpg" (Some ethics)
     = "https://local/wide.png".
Proof.
  split.
  - apply (site_wide_override_wins sourceConfig busy_world _
             (or_introl (conj eq_refl eq_refl)) false).
  - apply (site_wide_override_wins config_without_override busy_world _
             (or_intror (conj eq_refl eq_refl)) true).
Defined.

End ImageChainRuns.

Section PublicOrder.
Import ImageOverrides ArticleEngine.
Context {codec : JSON StoredOverrides}.

Lemma return_if_first (v : option string) (rest : list (option string))
    (last : string) :
  return_if v (first_truthy rest last) = first_truthy (v :: rest) last.
Proof. destruct v as [s|]; simpl; [destruct (nonempty s)|]; reflexivity. Qed.

(** C2, as the code has it. In the public context, with no site-wide
    override, [getArticleImage] returns the first non-empty candidate in
    the order: remote article mapping, remote topic mapping, per-article
    code default, generated default, per-topic code default.  So with no
    remote entry and no per-article code default, a non-empty generated
    default is returned even when the topic has a code default, and the
    per-topic code default is returned only when the generated default is
    empty. *)
Theorem public_article_image_order (cfg : Config) (w : World)
    (articleId defaultSrc : string) (topicKey : option TopicKey) :
  truthy (siteWide cfg w) = false ->
  let ra := RemoteImages.getRemoteArticleImage (remote w) articleId in
  let rt := remote_topic_of w topicKey in
  let byArticle := articleDefaultImages cfg !! articleId in
  let byTopic := topicKey ≫= topicDefaultImages cfg in
  let shown := getArticleImage cfg true w articleId defaultSrc topicKey in
  shown = first_truthy [ra; rt; byArticle; Some defaultSrc; byTopic] defaultSrc
  /\ (truthy ra = false -> truthy rt = false -> truthy byArticle = false ->
      nonempty defaultSrc = true -> shown = defaultSrc)
  /\ (truthy ra = false -> truthy rt = false -> truthy byArticle = false ->
      nonempty defaultSrc = false ->
      forall u, byTopic = Some u -> nonempty u = true -> shown = u).
Proof.
  intros Hsw ra rt byArticle byTopic shown.
  assert (Hshown :
    shown = first_truthy [ra; rt; byArticle; Some defaultSrc; byTopic] defaultSrc).
  { subst shown. unfold getArticleImage.
    rewrite (return_if_falsy _ _ Hsw).
    rewrite <- !return_if_first. simpl first_truthy.
    subst byTopic. destruct topicKey; reflexivity. }
  split; [exact Hshown|]. rewrite Hshown. clear Hshown.
  generalize ra rt byArticle byTopic. clear. intros ra rt byArticle byTopic.
  split.
  - intros Ha Hb Hc Hd. simpl. now rewrite Ha, Hb, Hc, Hd.
  - intros Ha Hb Hc Hd u He Hu. simpl. rewrite Ha, Hb, Hc, Hd, He. simpl.
    now rewrite Hu.
Qed.

End PublicOrder.

Section PublicOrderRuns.
Import ImageOverrides ArticleEngine Fixtures.
Existing Instance overrides_codec.

(** C2 as stated fails on the committed tables: on a public host with no
    site-wide override, nothing remote and no per-article code default, the
    ethics topic has a code default, yet the generated default is what
    comes back. *)
Lemma public_topic_default_not_preferred :
  truthy (siteWide config_without_override fresh_world) = false
  /\ RemoteImages.getRemoteArticleImage (remote fresh_world) "ethics-20250811-1" = None
  /\ RemoteImages.getRemoteTopicImage (remote fresh_world) (key_string ethics) = None
  /\ articleDefaultImages config_without_override !! "ethics-20250811-1" = None
  /\ topicDefaultImages config_without_override ethics
     = Some "https://pub-cdn.sider.ai/u/U0AWH6J28LO/web-coder/6896d87314f019f2a83e5a14/resource/73f2a284-a52f-4bf1-bf95-3e39633111ca.jpg"
  /\ getArticleImage config_without_override true fresh_world
       "ethics-20250811-1" "https://generated/a1.jpg" (Some ethics)
     = "https://generated/a1.jpg"
  /\ getArticleImage config_without_override true fresh_world
       "ethics-20250811-1" "https://generated/a1.jpg" (Some ethics)
     <> "https://pub-cdn.sider.ai/u/U0AWH6J28LO/web-coder/6896d87314f019f2a83e5a14/resource/73f2a284-a52f-4bf1-bf95-3e39633111ca.jpg".
Proof. repeat split; try reflexivity. vm_compute. discriminate. Qed.

Lemma public_article_image_order_witness :
  getArticleImage config_without_override true fresh_world
    "ethics-20250811-1" "https://generated/a1.jpg" (Some ethics)
  = "https://generated/a1.jpg"
  /\ getArticleImage config_without_override true fresh_world
       "ethics-20250811-1" "" (Some ethics)
     = "https://pub-cdn.sider.ai/u/U0AWH6J28LO/web-coder/6896d87314f019f2a83e5a14/resource/73f2a284-a52f-4bf1-bf95-3e39633111ca.jpg".
Proof.
  split.
  - apply (proj1 (proj2 (public_article_image_order config_without_override
             fresh_world "ethics-20250811-1" "https://generated/a1.jpg"
             (Some ethics) eq_refl)));
      reflexivity.
  - apply (proj2 (proj2 (public_article_image_order config_without_override
             fresh_world "ethics-20250811-1" "" (Some ethics) eq_refl)));
      reflexivity.
Defined.

End PublicOrderRuns.

Section Setters.
Import ImageOverrides ArticleEngine.
Context {codec : JSON StoredOverrides}.

(** C9. On a public host, [setTopicImage] and [setArticleImage] change
    nothing, whatever the key and the value ([null] included): the world
    after the call is the world before it, so the stored per-topic and
    per-article overrides read the same and no event has been
    dispatched. *)
Theorem public_setters_are_noops (hostname : option string) (w : World)
    (topic : TopicKey) (articleId : string) (src : option string) :
  Env.IS_PUBLIC hostname = true ->
  let w1 := setTopicImage (Env.IS_PUBLIC hostname) w topic src in
  let w2 := setArticleImage (Env.IS_PUBLIC hostname) w articleId src in
  (w1 = w /\ getOverrides (storage w1) = getOverrides (storage w)
   /\ dispatched w1 = dispatched w)
  /\ (w2 = w /\ getOverrides (storage w2) = getOverrides (storage w)
      /\ dispatched w2 = dispatched w).
Proof.
  intros Hpub. unfold setTopicImage, setArticleImage. rewrite Hpub.
  cbv zeta. repeat split; reflexivity.
Qed.

End Setters.

Section SettersRuns.
Import ImageOverrides ArticleEngine Fixtures.
Existing Instance overrides_codec.

Lemma public_setters_are_noops_witness :
  setTopicImage (Env.IS_PUBLIC (Some "www.logos-and-light.com")) busy_world
    ethics (Some "https://new/topic.jpg") = busy_world
  /\ setArticleImage (Env.IS_PUBLIC (Some "www.logos-and-light.com")) busy_world
       "ethics-20250811-1" None = busy_world.
Proof.
  pose proof (public_setters_are_noops (Some "www.logos-and-light.com")
                busy_world ethics "ethics-20250811-1"
                (Some "https://new/topic.jpg") eq_refl) as [[H _] _].
  pose proof (public_setters_are_noops (Some "www.logos-and-light.com")
                busy_world ethics "ethics-20250811-1" None eq_refl)
    as [_ [H' _]].
  exact (conj H H').
Defined.

End SettersRuns.

(** ** The reflection cache *)

Section ReflectionCache.
Import ContentEngine.
Context {codec : JSON Reflection}.

(** A hit answers from the storage alone. *)
Lemma getReflectionForDate_hit (P : Pools) (ls : LocalStorage) (d : Date)
    (t : ReflectionTheme) (r : Reflection) :
  getStoredReflection ls (cacheKey d t) = Some r ->
  getReflectionForDate P ls d t = (Ok r, ls).
Proof. intros H. unfold getReflectionForDate. now rewrite H. Qed.

(** A stored reflection is an item of the storage that parses. *)
Lemma getStoredReflection_Some (ls : LocalStorage) (key : string)
    (r : Reflection) :
  getStoredReflection ls key = Some r <->
  readable ls = true
  /\ exists raw, items ls !! key = Some raw /\ nonempty raw = true
                 /\ parse raw = Some r.
Proof.
  unfold getStoredReflection, getItem. split.
  - destruct (readable ls); [|discriminate].
    destruct (items ls !! key) as [raw|]; [|discriminate].
    destruct (nonempty raw) eqn:E; [|discriminate].
    intros H. split; [reflexivity|]. now exists raw.
  - intros [-> (raw & -> & -> & H)]. exact H.
Qed.

(** C3. If a reflection is stored under the cache key of the date and the
    theme, [getReflectionForDate] returns it as stored, whatever the content
    tables are (nothing is generated), and leaves the storage as it was; so
    a second call with the same arguments returns the same reflection even
    if the tables were changed in between. *)
Theorem cached_reflection_returned_verbatim (P P' : Pools) (ls : LocalStorage)
    (d : Date) (t : ReflectionTheme) (r : Reflection) :
  getStoredReflection ls (cacheKey d t) = Some r ->
  getReflectionForDate P ls d t = (Ok r, ls)
  /\ getReflectionForDate P' (snd (getReflectionForDate P ls d t)) d t
     = (Ok r, ls)
  /\ fst (getReflectionForDate P' (snd (getReflectionForDate P ls d t)) d t)
     = fst (getReflectionForDate P ls d t).
Proof.
  intros H.
  rewrite (getReflectionForDate_hit P ls d t r H). simpl.
  rewrite (getReflectionForDate_hit P' ls d t r H). auto.
Qed.

End ReflectionCache.

Section ReflectionCacheRuns.
Import ContentEngine Fixtures.
Existing Instance reflection_codec.

Lemma cached_reflection_returned_verbatim_witness :
  getReflectionForDate sourcePools storage_with_cache new_year_2025 mindfulness
    = (Ok cached_reflection, storage_with_cache)
  /\ getReflectionForDate edited_pools
       (snd (getReflectionForDate sourcePools storage_with_cache
               new_year_2025 mindfulness))
       new_year_2025 mindfulness
     = (Ok cached_reflection, storage_with_cache).
Proof.
  pose proof (cached_reflection_returned_verbatim sourcePools edited_pools
                storage_with_cache new_year_2025 mindfulness cached_reflection
                eq_refl) as [H1 [H2 _]].
  exact (conj H1 H2).
Defined.

End ReflectionCacheRuns.

(** ** Seeded picks *)

Section Picks.
Context {T : Type}.

Lemma pick_index_in_range (x : T) (arr : list T) (seed : N) :
  (N.to_nat (seed mod N.of_nat (length (x :: arr))) < length (x :: arr))%nat.
Proof.
  assert (seed mod N.of_nat (length (x :: arr)) < N.of_nat (length (x :: arr))).
  { apply N.mod_lt. simpl length. lia. }
  lia.
Qed.

(** The reflection engine's [pick] on a non-empty array. *)
Lemma content_pick_nonempty (x : T) (arr : list T) (seed : N) :
  exists e,
    (x :: arr) !! N.to_nat (seed mod N.of_nat (length (x :: arr))) = Some e
    /\ ContentEngine.pick (x :: arr) seed = Ok e.
Proof.
  destruct (lookup_lt_is_Some_2 (x :: arr) _ (pick_index_in_range x arr seed))
    as [e He].
  exists e. split; [exact He|].
  unfold ContentEngine.pick. f_equal.
  apply nth_lookup_Some with (d := x) in He. exact He.
Qed.

(** The article engine's [pick] on a non-empty array. *)
Lemma article_pick_nonempty (x : T) (arr : list T) (seed : N) :
  exists e,
    (x :: arr) !! N.to_nat (seed mod N.of_nat (length (x :: arr))) = Some e
    /\ ArticleEngine.pick (x :: arr) seed = Some e.
Proof.
  destruct (lookup_lt_is_Some_2 (x :: arr) _ (pick_index_in_range x arr seed))
    as [e He].
  exists e. split; [exact He|].
  unfold ArticleEngine.pick. exact He.
Qed.

Lemma article_pick_elem (arr : list T) (seed : N) :
  arr <> [] -> exists e, ArticleEngine.pick arr seed = Some e /\ e ∈ arr.
Proof.
  destruct arr as [|x arr]; [congruence|]. intros _.
  destruct (article_pick_nonempty x arr seed) as (e & He & Hp).
  exists e. split; [exact Hp|]. eapply list_elem_of_lookup_2, He.
Qed.

Lemma content_pick_elem (arr : list T) (seed : N) :
  arr <> [] -> exists e, ContentEngine.pick arr seed = Ok e /\ e ∈ arr.
Proof.
  destruct arr as [|x arr]; [congruence|]. intros _.
  destruct (content_pick_nonempty x arr seed) as (e & He & Hp).
  exists e. split; [exact Hp|]. eapply list_elem_of_lookup_2, He.
Qed.

End Picks.

(** ** The questions of a reflection *)

Section Questions.
Import ContentEngine.

Lemma keep_first_pair (q1 q2 : string) :
  keep_first [q1; q2] = if String.eqb q1 q2 then [q1] else [q1; q2].
Proof.
  unfold keep_first. simpl. rewrite String.eqb_refl. simpl.
  destruct (String.eqb q1 q2) eqn:E; simpl; [reflexivity|].
  rewrite String.eqb_refl. reflexivity.
Qed.

Lemma keep_first_pair_NoDup (q1 q2 : string) :
  NoDup (keep_first [q1; q2])
  /\ (length (keep_first [q1; q2]) = 1%nat \/ length (keep_first [q1; q2]) = 2%nat).
Proof.
  rewrite keep_first_pair. destruct (String.eqb q1 q2) eqn:E.
  - split; [|left; reflexivity]. apply NoDup_singleton.
  - split; [|right; reflexivity].
    apply String.eqb_neq in E.
    apply NoDup_cons. split; [|apply NoDup_singleton].
    intros H. apply list_elem_of_singleton in H. contradiction.
Qed.

(** [generateReflection] with the tables of the source always returns. *)
Lemma generateReflection_source (date : Date) (t : ReflectionTheme) :
  let seed := hash (dateISO_of date +:+ "|" +:+ theme_string t) in
  exists r q1 q2,
    generateReflection sourcePools date t = Ok r
    /\ pick (questionsPool sourcePools) (seed + 19) = Ok q1
    /\ pick (questionsPool sourcePools) (seed + 23) = Ok q2
    /\ questions r = keep_first [q1; q2]
    /\ dateISO r = dateISO_of date /\ theme r = t.
Proof.
  intros seed. unfold generateReflection. fold seed.
  destruct (content_pick_elem (scripturePool sourcePools) (seed + 1))
    as (scr & -> & _); [discriminate|].
  destruct (content_pick_elem (quotePool sourcePools) (seed + 7))
    as (q & -> & _); [discriminate|].
  destruct (content_pick_elem (titleFragments sourcePools t) (seed + 13))
    as (ti & -> & _); [destruct t; discriminate|].
  destruct (content_pick_elem (prayers sourcePools) (seed + 17))
    as (pr & -> & _); [discriminate|].
  destruct (content_pick_elem (questionsPool sourcePools) (seed + 19))
    as (q1 & Hq1 & _); [discriminate|].
  destruct (content_pick_elem (questionsPool sourcePools) (seed + 23))
    as (q2 & Hq2 & _); [discriminate|].
  rewrite Hq1, Hq2. cbn [bind].
  eexists _, q1, q2. repeat split; reflexivity.
Qed.

(** C10. For every date and theme, [generateReflection] returns a
    reflection whose questions hold no duplicate and number one or two:
    they are the two seeded picks from the questions pool with the second
    dropped when it repeats the first. *)
Theorem reflection_questions_distinct (date : Date) (t : ReflectionTheme) :
  exists r q1 q2,
    generateReflection sourcePools date t = Ok r
    /\ pick (questionsPool sourcePools)
            (hash (dateISO_of date +:+ "|" +:+ theme_string t) + 19) = Ok q1
    /\ pick (questionsPool sourcePools)
            (hash (dateISO_of date +:+ "|" +:+ theme_string t) + 23) = Ok q2
    /\ questions r = (if String.eqb q1 q2 then [q1] else [q1; q2])
    /\ NoDup (questions r)
    /\ (length (questions r) = 1%nat \/ length (questions r) = 2%nat).
Proof.
  destruct (generateReflection_source date t)
    as (r & q1 & q2 & Hr & H1 & H2 & Hq & _).
  exists r, q1, q2. rewrite Hq.
  repeat split; try assumption.
  - apply keep_first_pair.
  - apply keep_first_pair_NoDup.
  - apply keep_first_pair_NoDup.
Qed.

(** With the four questions of the source the two picks always coincide
    (their seeds differ by the length of the pool), so a single question
    is kept. *)
Lemma reflection_questions_single (date : Date) (t : ReflectionTheme) :
  exists r, generateReflection sourcePools date t = Ok r
            /\ length (questions r) = 1%nat.
Proof.
  destruct (generateReflection_source date t)
    as (r & q1 & q2 & Hr & H1 & H2 & Hq & _).
  exists r. split; [exact Hr|]. rewrite Hq, keep_first_pair.
  assert (q1 = q2) as ->; [|now rewrite String.eqb_refl].
  revert H1 H2.
  set (seed := hash (dateISO_of date +:+ "|" +:+ theme_string t)).
  unfold pick. simpl length.
  replace ((seed + 23) mod N.of_nat 4) with ((seed + 19) mod N.of_nat 4).
  - intros H1 H2. rewrite H1 in H2. now injection H2.
  - change (N.of_nat 4) with 4.
    replace (seed + 23) with (seed + 19 + 1 * 4) by lia.
    now rewrite N.Div0.mod_add.
Qed.

End Questions.

(** ** The body of an article *)

Section Body.
Import ArticleEngine.

Lemma rotate_Permutation {T} (arr : list T) (seed : N) : rotate arr seed ≡ₚ arr.
Proof.
  unfold rotate. destruct (length arr =? 0)%nat; [reflexivity|].
  rewrite Permutation_app_comm. now rewrite take_drop.
Qed.

Lemma rotate_length {T} (arr : list T) (seed : N) :
  length (rotate arr seed) = length arr.
Proof. apply Permutation_length, rotate_Permutation. Qed.

(** Below the size of the pool the sample is a prefix of the rotation. *)
Lemma sampleDeterministic_prefix {T} (arr : list T) (count seed : N) :
  count < N.of_nat (length arr) ->
  sampleDeterministic arr count seed = take (N.to_nat count) (rotate arr seed)
  /\ N.of_nat (length (sampleDeterministic arr count seed)) = count.
Proof.
  intros H. unfold sampleDeterministic.
  destruct (length arr =? 0)%nat eqn:E.
  - apply Nat.eqb_eq in E. rewrite E in H. lia.
  - assert ((N.of_nat (length arr) <=? count) = false) as -> by (apply N.leb_gt; lia).
    split; [reflexivity|]. rewrite length_take, rotate_length. lia.
Qed.

Lemma sample_within {T} (arr : list T) (count seed : N) (p : T) :
  p ∈ take (N.to_nat count) (rotate arr seed) -> p ∈ arr.
Proof.
  intros H. apply (elem_of_take _ _ _) in H as (i & Hi & _).
  rewrite <- (rotate_Permutation arr seed).
  eapply list_elem_of_lookup_2, Hi.
Qed.

Lemma sample_NoDup {T} (arr : list T) (count seed : N) :
  NoDup arr -> NoDup (take (N.to_nat count) (rotate arr seed)).
Proof.
  intros H. eapply sublist_NoDup; [|apply sublist_take].
  now rewrite rotate_Permutation.
Qed.

Lemma paragraphs_pool (topic : TopicKey) :
  (6 <= length (paragraphsByTopic topic))%nat /\ NoDup (paragraphsByTopic topic).
Proof.
  split.
  - destruct topic; simpl; lia.
  - destruct topic;
      apply (bool_decide_unpack (NoDup _)); vm_compute; exact I.
Qed.

Lemma base_count_range (seed : N) : 3 <= 3 + seed mod 2 <= 4.
Proof.
  assert (seed mod 2 < 2) by (apply N.mod_lt; discriminate).
  split; [apply N.le_add_r|].
  change 4 with (3 + 1). apply N.add_le_mono_l. now apply N.lt_succ_r.
Qed.

(** C7, as amended. For every registered topic and every seed the body
    starts with [3 + (seed mod 2)] paragraphs sampled from the pool of the
    topic (a count between 3 and 6, the paragraphs distinct), followed at
    fixed positions by three paragraphs: one connective paragraph, picked
    from the general connectives by the seed, the scripture line and one
    practice paragraph, the practice paragraph last. *)
Theorem article_body_shape (topic : TopicKey) (seed : N) :
  let pool := paragraphsByTopic topic in
  let count := 3 + seed mod 2 in
  exists (core : list string) (connect practice : string) (scr : Scripture),
    buildBody topic seed
      = Some (core
              ++ [connect;
                  "Scripture: “" +:+ s_text scr +:+ "” (" +:+ s_ref scr +:+ ").";
                  practice])%list
    /\ core = sampleDeterministic pool count (seed + 101)
    /\ core = take (N.to_nat count) (rotate pool (seed + 101))
    /\ N.of_nat (length core) = count
    /\ 3 <= N.of_nat (length core) <= 6
    /\ (forall p, p ∈ core -> p ∈ pool)
    /\ NoDup core
    /\ pick generalConnective (seed + 307) = Some connect
    /\ connect ∈ generalConnective
    /\ pick (scriptureByTopic topic) (seed + 211) = Some scr
    /\ pick (practiceByTopic topic) (seed + 409) = Some practice
    /\ practice ∈ practiceByTopic topic
    /\ mbind last (buildBody topic seed) = Some practice.
Proof.
  intros pool count.
  destruct (paragraphs_pool topic) as [Hlen Hnd]. fold pool in Hlen, Hnd.
  pose proof (base_count_range seed) as Hc. fold count in Hc.
  destruct (sampleDeterministic_prefix pool count (seed + 101)) as [Hs Hl];
    [lia|].
  destruct (article_pick_elem (scriptureByTopic topic) (seed + 211))
    as (scr & Hscr & _); [destruct topic; discriminate|].
  destruct (article_pick_elem generalConnective (seed + 307))
    as (connect & Hcon & Hcon_in); [discriminate|].
  destruct (article_pick_elem (practiceByTopic topic) (seed + 409))
    as (practice & Hpr & Hpr_in); [destruct topic; discriminate|].
  exists (sampleDeterministic pool count (seed + 101)), connect, practice, scr.
  assert (Hbody : buildBody topic seed
      = Some (sampleDeterministic pool count (seed + 101)
              ++ [connect;
                  "Scripture: “" +:+ s_text scr +:+ "” (" +:+ s_ref scr +:+ ").";
                  practice])%list).
  { unfold buildBody. fold pool count. rewrite Hscr, Hcon, Hpr. reflexivity. }
  repeat split; try assumption; try reflexivity; try lia.
  - intros p Hp. rewrite Hs in Hp. eapply sample_within, Hp.
  - rewrite Hs. now apply sample_NoDup.
  - rewrite Hbody. simpl. rewrite last_app. reflexivity.
Qed.

(** C7, as stated, fails on the connective and on the number of appended
    paragraphs: for the topic ethics the seeds 0 and 2 both give a body of
    six paragraphs, three sampled and three appended, and the fourth
    paragraph, the connective, is not the same for the two seeds; the fifth
    is the scripture line. *)
Lemma connective_depends_on_seed :
  exists b0 b2 : list string,
    buildBody ethics 0 = Some b0 /\ buildBody ethics 2 = Some b2
    /\ length b0 = 6%nat /\ length b2 = 6%nat
    /\ take 3 b0 = sampleDeterministic (paragraphsByTopic ethics) 3 101
    /\ take 3 b2 = sampleDeterministic (paragraphsByTopic ethics) 3 103
    /\ b0 !! 3%nat
       = Some "Gratitude clears vision; from gratitude we can think, choose, and love more truly."
    /\ b2 !! 3%nat
       = Some "Prayer steadies inquiry so that thought becomes worship and action becomes charity."
    /\ b0 !! 4%nat
       = Some "Scripture: “What does the Lord require of you but to do justice, and to love kindness, and to walk humbly?” (Micah 6:8).".
Proof.
  destruct (buildBody ethics 0) as [b0|] eqn:E0; [|discriminate E0].
  destruct (buildBody ethics 2) as [b2|] eqn:E2; [|discriminate E2].
  exists b0, b2.
  injection E0 as <-. injection E2 as <-. repeat split.
Qed.

(** [buildBody] always builds a body. *)
Lemma buildBody_defined (topic : TopicKey) (seed : N) :
  exists body, buildBody topic seed = Some body.
Proof.
  unfold buildBody.
  destruct (article_pick_elem (scriptureByTopic topic) (seed + 211))
    as (scr & -> & _); [destruct topic; discriminate|].
  destruct (article_pick_elem generalConnective (seed + 307))
    as (connect & -> & _); [discriminate|].
  destruct (article_pick_elem (practiceByTopic topic) (seed + 409))
    as (practice & -> & _); [destruct topic; discriminate|].
  eexists. reflexivity.
Qed.

End Body.

(** ** Article ids *)

Section Strings.

Lemma str_drop_app (a b : string) : str_drop (String.length a) (a +:+ b) = b.
Proof. induction a as [|c a IH]; simpl; [now destruct b|exact IH]. Qed.

Lemma str_take_app (a b : string) : str_take (String.length a) (a +:+ b) = a.
Proof.
  induction a as [|c a IH]; simpl; [now destruct b|now rewrite IH].
Qed.

Lemma str_take_all (a : string) : str_take (String.length a) a = a.
Proof. induction a as [|c a IH]; simpl; [reflexivity|now rewrite IH]. Qed.

Lemma digit_not_hyphen (c : ascii) :
  is_digit c = true -> Ascii.eqb "-" c = false /\ Ascii.eqb c "-" = false.
Proof.
  destruct c as [[] [] [] [] [] [] [] []]; vm_compute; intros H;
    try discriminate H; split; reflexivity.
Qed.

Lemma digit_not_slug (c : ascii) :
  is_digit c = true -> ArticleEngine.is_slug_char c = false.
Proof.
  destruct c as [[] [] [] [] [] [] [] []]; vm_compute; intros H;
    try discriminate H; reflexivity.
Qed.

Lemma string_of_uint_digits (d : Decimal.uint) :
  all_chars is_digit (NilEmpty.string_of_uint d) = true.
Proof. induction d; simpl; try rewrite IHd; reflexivity. Qed.

Lemma decimal_digits (n : N) :
  all_chars is_digit (decimal n) = true /\ nonempty (decimal n) = true.
Proof.
  unfold decimal. split; [apply string_of_uint_digits|].
  destruct n as [|p]; [reflexivity|]. simpl.
  pose proof (DecimalPos.Unsigned.to_uint_nonnil p) as H.
  destruct (Pos.to_uint p); [congruence|reflexivity..].
Qed.

(** [parseInt] reads the digits exactly, then rounds. *)
Lemma parseInt10_decimal (n : N) : parseInt10 (decimal n) = to_number n.
Proof.
  unfold parseInt10, decimal. rewrite NilEmpty.usu.
  now rewrite DecimalN.Unsigned.of_to.
Qed.

Lemma round_double_safe (n : N) : n <= MAX_SAFE_INTEGER -> round_double n = n.
Proof.
  intros H. unfold round_double.
  assert ((n <? 2 ^ 53) = true) as ->; [|reflexivity].
  apply N.ltb_lt. unfold MAX_SAFE_INTEGER in H.
  change (2 ^ 53) with 9007199254740992 in *. lia.
Qed.

(** An integer that is the value of a number. *)
Lemma to_number_Int (n : N) :
  to_number n = Int n <-> round_double n = n /\ n < 2 ^ 1024.
Proof.
  unfold to_number. cbv zeta.
  destruct (round_double n <? 2 ^ 1024) eqn:E.
  - apply N.ltb_lt in E. split.
    + intros [= H]. rewrite H in E. now split.
    + intros [-> _]. reflexivity.
  - apply N.ltb_ge in E. split; [discriminate|].
    intros [H1 H2]. rewrite H1 in E. now apply N.lt_nge in H2.
Qed.

Lemma to_number_safe (n : N) : n <= MAX_SAFE_INTEGER -> to_number n = Int n.
Proof.
  intros H. apply to_number_Int. split; [now apply round_double_safe|].
  eapply N.le_lt_trans; [exact H|]. vm_compute. reflexivity.
Qed.

Lemma nearest_with_round (d e v : N) :
  nearest_with d e = Some v -> round_double v = d.
Proof.
  unfold nearest_with. cbv zeta.
  destruct (round_double (d / 10 ^ e * 10 ^ e) =? d) eqn:Elo;
    destruct (round_double (d / 10 ^ e * 10 ^ e + 10 ^ e) =? d) eqn:Ehi;
    try discriminate;
    repeat match goal with
           | |- context [if ?c then _ else _] => destruct c
           end;
    intros [= <-]; now apply N.eqb_eq.
Qed.

Lemma shortest_from_round (fuel : nat) (d e : N) :
  round_double d = d -> round_double (shortest_from fuel d e) = d.
Proof.
  intros Hd. revert e. induction fuel as [|fuel IH]; intros e; [exact Hd|].
  cbn [shortest_from]. destruct (nearest_with d e) as [v|] eqn:E.
  - eapply nearest_with_round, E.
  - apply IH.
Qed.

(** Below 10^21 a number is written in digits that [parseInt] reads back
    as the same number. *)
Lemma number_to_string_plain (d : N) :
  round_double d = d -> d < 10 ^ 21 ->
  exists v, number_to_string d = decimal v /\ round_double v = d.
Proof.
  intros Hd Hlt. unfold number_to_string.
  destruct (d <? 2 ^ 53); [now exists d|].
  apply N.ltb_lt in Hlt. rewrite Hlt.
  exists (shortest_value d). split; [reflexivity|].
  now apply shortest_from_round.
Qed.

Lemma number_to_string_digits (d : N) :
  round_double d = d -> d < 10 ^ 21 ->
  all_chars is_digit (number_to_string d) = true
  /\ nonempty (number_to_string d) = true.
Proof.
  intros Hd Hlt. destruct (number_to_string_plain d Hd Hlt) as (v & -> & _).
  apply decimal_digits.
Qed.

Lemma parseInt10_number_to_string (d : N) :
  round_double d = d -> d < 10 ^ 21 ->
  parseInt10 (number_to_string d) = Int d.
Proof.
  intros Hd Hlt. destruct (number_to_string_plain d Hd Hlt) as (v & -> & Hv).
  rewrite parseInt10_decimal. unfold to_number. cbv zeta. rewrite Hv.
  assert ((d <? 2 ^ 1024) = true) as ->; [|reflexivity].
  apply N.ltb_lt. eapply N.lt_trans; [exact Hlt|]. vm_compute. reflexivity.
Qed.

Lemma number_to_string_safe (n : N) :
  n <= MAX_SAFE_INTEGER -> number_to_string n = decimal n.
Proof.
  intros H. unfold number_to_string.
  assert ((n <? 2 ^ 53) = true) as ->; [|reflexivity].
  apply N.ltb_lt. unfold MAX_SAFE_INTEGER in H.
  change (2 ^ 53) with 9007199254740992 in *. lia.
Qed.

Lemma safe_below_1e21 (n : N) : n <= MAX_SAFE_INTEGER -> n < 10 ^ 21.
Proof.
  intros H. eapply N.le_lt_trans; [exact H|]. vm_compute. reflexivity.
Qed.

End Strings.

Section ArticleIds.
Import ArticleEngine.

Lemma run_length_app (p : ascii -> bool) (a b : string) :
  all_chars p a = true ->
  run_length p (a +:+ b) = (String.length a + run_length p b)%nat.
Proof.
  induction a as [|c a IH]; simpl; [reflexivity|].
  intros H. apply andb_prop in H as [-> H]. now rewrite IH.
Qed.

Lemma match_date_index_digit (c : ascii) (r : string) :
  is_digit c = true -> match_date_index (String c r) = None.
Proof.
  intros H. unfold match_date_index.
  destruct (digit_not_hyphen c H) as [_ ->].
  now destruct (str_drop 8 r).
Qed.

Lemma match_date_index_build (d8 ds : string) :
  String.length d8 = 8%nat -> all_chars is_digit d8 = true ->
  nonempty ds = true -> all_chars is_digit ds = true ->
  match_date_index ("-" +:+ d8 +:+ "-" +:+ ds) = Some (d8, ds).
Proof.
  intros Hl Hd Hn Hs.
  assert (Ht : str_take 8 (d8 +:+ "-" +:+ ds) = d8)
    by (rewrite <- Hl; apply str_take_app).
  assert (Hr : str_drop 8 (d8 +:+ "-" +:+ ds) = String "-" ds)
    by (rewrite <- Hl; apply str_drop_app).
  change ("-" +:+ d8 +:+ "-" +:+ ds) with (String "-" (d8 +:+ "-" +:+ ds)).
  unfold match_date_index. rewrite Ht, Hr, Hl, Hd, Hn, Hs. reflexivity.
Qed.

(** The pattern on a string built as slug, eight digits, digits. *)
Lemma match_id_build (t d8 ds : string) :
  nonempty t = true -> all_chars is_slug_char t = true ->
  String.length d8 = 8%nat -> all_chars is_digit d8 = true ->
  nonempty ds = true -> all_chars is_digit ds = true ->
  match_id (t +:+ "-" +:+ d8 +:+ "-" +:+ ds) = Some (t, d8, ds).
Proof.
  intros Hn Ht Hl Hd Hdn Hds. unfold match_id.
  rewrite (run_length_app _ _ _ Ht).
  destruct d8 as [|c d8]; [discriminate Hl|].
  pose proof Hd as Hd'. simpl in Hd'. apply andb_prop in Hd' as [Hc _].
  change (run_length is_slug_char ("-" +:+ String c d8 +:+ "-" +:+ ds))
    with (if is_slug_char "-"
          then S (if is_slug_char c
                  then S (run_length is_slug_char (d8 +:+ "-" +:+ ds)) else O)
          else O).
  rewrite (digit_not_slug c Hc).
  change (if is_slug_char "-" then 1%nat else 0%nat) with 1%nat.
  replace (String.length t + 1)%nat with (S (String.length t)) by lia.
  cbn [match_id_from].
  change (t +:+ "-" +:+ String c d8 +:+ "-" +:+ ds)
    with (t +:+ String "-" (String c (d8 +:+ "-" +:+ ds))) at 1.
  assert (Hdrop : str_drop (S (String.length t))
            (t +:+ String "-" (String c (d8 +:+ "-" +:+ ds)))
          = String c (d8 +:+ "-" +:+ ds)).
  { clear. induction t as [|a t IH]; [reflexivity|exact IH]. }
  rewrite Hdrop, (match_date_index_digit c _ Hc).
  destruct t as [|a t]; [discriminate Hn|].
  remember (String a t) as t' eqn:Et.
  assert (Hk : String.length t' = S (String.length t)) by now subst t'.
  rewrite Hk. cbn [match_id_from]. rewrite <- Hk.
  rewrite str_drop_app, str_take_app.
  now rewrite (match_date_index_build (String c d8) ds Hl Hd Hdn Hds).
Qed.

Lemma key_string_slug (topic : TopicKey) :
  nonempty (key_string topic) = true
  /\ all_chars is_slug_char (key_string topic) = true
  /\ exists meta, find_topic (key_string topic) = Some meta /\ key meta = topic.
Proof. destruct topic; repeat split; eexists; split; reflexivity. Qed.

Lemma remove_hyphens_keep (fuel : nat) (c : ascii) (r : string) :
  is_digit c = true ->
  replace_all_fuel (S fuel) "-" "" (String c r)
  = String c (replace_all_fuel fuel "-" "" r).
Proof.
  intros H. destruct (digit_not_hyphen c H) as [E _].
  cbn [replace_all_fuel starts_with]. now rewrite E.
Qed.

Lemma remove_hyphens_drop (fuel : nat) (r : string) :
  replace_all_fuel (S fuel) "-" "" (String "-" r)
  = replace_all_fuel fuel "-" "" r.
Proof. reflexivity. Qed.

(** The eight digits of a date of the shape [YYYY-MM-DD], and the date
    back from them. *)
Lemma iso_date_digits (dateISO : string) :
  is_iso_date dateISO = true ->
  let d8 := replace_all "-" "" dateISO in
  String.length d8 = 8%nat /\ all_chars is_digit d8 = true
  /\ slice 0 4 d8 +:+ "-" +:+ slice 4 6 d8 +:+ "-" +:+ slice 6 8 d8 = dateISO.
Proof.
  destruct dateISO as [|y1 [|y2 [|y3 [|y4 [|h1 [|m1 [|m2 [|h2 [|d1 [|d2 [|]]]]]]]]]]];
    try discriminate.
  unfold is_iso_date. intros H.
  do 9 (apply andb_prop in H as [H ?]).
  repeat match goal with
         | E : Ascii.eqb _ "-" = true |- _ => apply Ascii.eqb_eq in E; subst
         end.
  set (d8 := replace_all _ _ _).
  assert (Hd8 : d8 = String y1 (String y2 (String y3 (String y4
                  (String m1 (String m2 (String d1 (String d2 "")))))))).
  { subst d8. unfold replace_all. simpl String.length.
    rewrite !remove_hyphens_keep, remove_hyphens_drop by assumption.
    rewrite !remove_hyphens_keep, remove_hyphens_drop by assumption.
    rewrite !remove_hyphens_keep by assumption. reflexivity. }
  rewrite Hd8. split; [reflexivity|]. split; [|reflexivity].
  cbn [all_chars].
  repeat match goal with E : is_digit _ = true |- _ => rewrite E; clear E end.
  reflexivity.
Qed.

(** The pieces of a generated article that do not depend on the seed. *)
Lemma generateArticleCore_defined (topic : TopicKey) (dateISO : string)
    (index : number) :
  exists a, generateArticleCore topic dateISO index = Some a
            /\ id a = articleId topic dateISO index
            /\ ArticleEngine.topic a = topic
            /\ ArticleEngine.dateISO a = dateISO.
Proof.
  unfold generateArticleCore.
  set (seedBase := hash _).
  destruct (article_pick_elem (titlePool topic) (seedBase + 3))
    as (ti & -> & _); [destruct topic; discriminate|].
  destruct (article_pick_elem (excerptPool topic) (seedBase + 7))
    as (ex & -> & _); [destruct topic; discriminate|].
  destruct (article_pick_elem quotePool (seedBase + 11))
    as (qu & -> & _); [discriminate|].
  destruct (buildBody_defined topic (seedBase + 13)) as (body & ->).
  destruct (article_pick_elem (extraTags topic) (seedBase + 29))
    as (extra & -> & _); [destruct topic; discriminate|].
  eexists. repeat split.
Qed.

(** The id of a dated article parses back, for an index that is a number
    below 10^21. *)
Lemma parseArticleId_articleId (topic : TopicKey) (dateISO : string) (index : N) :
  is_iso_date dateISO = true ->
  to_number index = Int index -> index < 10 ^ 21 ->
  parseArticleId (articleId topic dateISO index)
  = Some {| p_topic := topic; p_dateISO := dateISO; p_index := index |}.
Proof.
  intros Hdate [Hr _]%to_number_Int Hlt. unfold articleId, parseArticleId.
  destruct (key_string_slug topic) as (Hn & Hslug & meta & Hfind & Hkey).
  destruct (iso_date_digits dateISO Hdate) as (Hl & Hd & Hback).
  destruct (number_to_string_digits index Hr Hlt) as (Hds & Hdn).
  rewrite (match_id_build _ _ _ Hn Hslug Hl Hd Hdn Hds).
  rewrite Hfind, Hkey, Hback, (parseInt10_number_to_string index Hr Hlt).
  reflexivity.
Qed.

(** C4, as amended. For every registered topic, every date string of the
    shape [YYYY-MM-DD] and every index that is a number below 10^21 (which
    [String] writes in plain digits), [generateArticleCore] builds an
    article and [parseArticleId] applied to its [id] returns exactly that
    topic, date string and index. *)
Theorem parseArticleId_of_generated (topic : TopicKey) (dateISO : string)
    (index : N) :
  is_iso_date dateISO = true ->
  to_number index = Int index -> index < 10 ^ 21 ->
  exists a,
    generateArticleCore topic dateISO index = Some a
    /\ parseArticleId (id a)
       = Some {| p_topic := topic; p_dateISO := dateISO; p_index := index |}.
Proof.
  intros Hdate Hnum Hlt.
  destruct (generateArticleCore_defined topic dateISO index)
    as (a & Ha & Hid & _).
  exists a. split; [exact Ha|]. rewrite Hid.
  now apply parseArticleId_articleId.
Qed.

(** The index 2^60 is beyond the safe integers: it is written with the
    shortest digits that denote it, [1152921504606847000]. *)
Lemma parseArticleId_of_generated_witness :
  exists a,
    generateArticleCore ethics "2025-08-11" (2 ^ 60) = Some a
    /\ parseArticleId (id a)
       = Some {| p_topic := ethics; p_dateISO := "2025-08-11";
                 p_index := 2 ^ 60 |}.
Proof.
  apply (parseArticleId_of_generated ethics "2025-08-11" (2 ^ 60) eq_refl);
    vm_compute; reflexivity.
Defined.

(** C4, as stated, fails at the index 10^21: it is a number, [String]
    writes it [1e+21], and the id built with it does not match the pattern
    of [parseArticleId]. *)
Lemma index_1e21_is_not_parsed_back :
  to_number (10 ^ 21) = Int (10 ^ 21)
  /\ exists a,
       generateArticleCore ethics "2025-08-11" (10 ^ 21) = Some a
       /\ id a = "ethics-20250811-1e+21"
       /\ parseArticleId (id a) = None.
Proof.
  split; [vm_compute; reflexivity|].
  destruct (generateArticleCore_defined ethics "2025-08-11" (10 ^ 21))
    as (a & Ha & Hid & _).
  exists a. split; [exact Ha|]. rewrite Hid. split; vm_compute; reflexivity.
Qed.

End ArticleIds.

(** ** What the generators throw *)

Section Throws.
Import ContentEngine.

(** Whatever the tables, [generateReflection] throws nothing but the error
    of [pick], and only when a pool it picks from is empty. *)
Lemma generateReflection_throws (P : Pools) (date : Date) (t : ReflectionTheme)
    (m : string) :
  generateReflection P date t = Throw m ->
  m = "Cannot pick from empty array"
  /\ (scripturePool P = [] \/ quotePool P = [] \/ titleFragments P t = []
      \/ prayers P = [] \/ questionsPool P = []).
Proof.
  unfold generateReflection.
  set (seed := hash (dateISO_of date +:+ "|" +:+ theme_string t)).
  destruct (scripturePool P) as [|s0 sl] eqn:Es; [cbn; intros [= <-]; tauto|].
  destruct (content_pick_elem (s0 :: sl) (seed + 1)) as (scr & -> & _);
    [discriminate|]. cbn [bind].
  destruct (quotePool P) as [|q0 ql] eqn:Eq; [cbn; intros [= <-]; tauto|].
  destruct (content_pick_elem (q0 :: ql) (seed + 7)) as (quo & -> & _);
    [discriminate|]. cbn [bind].
  destruct (titleFragments P t) as [|t0 tl] eqn:Et;
    [cbn; intros [= <-]; tauto|].
  destruct (content_pick_elem (t0 :: tl) (seed + 13)) as (ttl & -> & _);
    [discriminate|]. cbn [bind].
  destruct (prayers P) as [|p0 pl] eqn:Ep; [cbn; intros [= <-]; tauto|].
  destruct (content_pick_elem (p0 :: pl) (seed + 17)) as (pry & -> & _);
    [discriminate|]. cbn [bind].
  destruct (questionsPool P) as [|u0 ul] eqn:Eu; [cbn; intros [= <-]; tauto|].
  destruct (content_pick_elem (u0 :: ul) (seed + 19)) as (q1 & -> & _);
    [discriminate|].
  destruct (content_pick_elem (u0 :: ul) (seed + 23)) as (q2 & -> & _);
    [discriminate|]. cbn [bind]. discriminate.
Qed.

(** C5, as amended. On an empty array the reflection engine's [pick]
    throws its explicit error, for every seed; the article engine's [pick]
    has no guard and on an empty array reads [undefined] without throwing.
    On a non-empty array both return the element at index
    [seed mod length]. The throw of [pick] is the only one of the
    generators: whatever the tables, [generateReflection] fails only with
    the error of [pick] and only when a pool it picks from is empty; with
    the tables of the source it never fails, and the article generator and
    its body builder return for every topic, date text, index and seed. *)
Theorem pick_on_empty_and_nonempty :
  (forall (T : Type) (seed : N),
      pick (@nil T) seed = Throw "Cannot pick from empty array"
      /\ ArticleEngine.pick (@nil T) seed = None)
  /\ (forall (T : Type) (seed : N) (x : T) (arr : list T),
        exists e,
          (x :: arr) !! N.to_nat (seed mod N.of_nat (length (x :: arr))) = Some e
          /\ pick (x :: arr) seed = Ok e
          /\ ArticleEngine.pick (x :: arr) seed = Some e)
  /\ (forall (P : Pools) (date : Date) (t : ReflectionTheme) (m : string),
        generateReflection P date t = Throw m ->
        m = "Cannot pick from empty array"
        /\ (scripturePool P = [] \/ quotePool P = [] \/ titleFragments P t = []
            \/ prayers P = [] \/ questionsPool P = []))
  /\ (forall (date : Date) (t : ReflectionTheme),
        exists r, generateReflection sourcePools date t = Ok r)
  /\ (forall (topic : ArticleEngine.TopicKey) (dateISO : string)
             (index : number),
        exists a, ArticleEngine.generateArticleCore topic dateISO index = Some a)
  /\ (forall (topic : ArticleEngine.TopicKey) (seed : N),
        exists paragraphs, ArticleEngine.buildBody topic seed = Some paragraphs).
Proof.
  split; [intros T seed; split; reflexivity|].
  split.
  { intros T seed x arr.
    destruct (content_pick_nonempty x arr seed) as (e & He & Hc).
    destruct (article_pick_nonempty x arr seed) as (e' & He' & Ha).
    exists e. rewrite He in He'. injection He' as <-. auto. }
  split; [exact generateReflection_throws|].
  split.
  { intros date t.
    destruct (generateReflection_source date t) as (r & _ & _ & H & _).
    now exists r. }
  split.
  { intros topic dateISO index.
    destruct (generateArticleCore_defined topic dateISO index) as (a & H & _).
    now exists a. }
  exact buildBody_defined.
Qed.

(** C5, as stated, fails for the article engine: on the empty array of
    strings its [pick] reads [undefined] and throws nothing, where the
    [pick] of the reflection engine throws. *)
Lemma article_pick_on_empty_does_not_throw :
  ArticleEngine.pick (@nil string) 0 = None
  /\ pick (@nil string) 0 = Throw "Cannot pick from empty array".
Proof. split; reflexivity. Qed.

End Throws.

(** ** Digests *)

Section Digests.
Import ArticleEngine NewsletterDigest.
Context {codec : JSON ContentEngine.Reflection}.
Variable formatHumanDate : Date -> string.

(** With the tables of the source a reflection always comes back, cached
    or generated. *)
Lemma getReflectionForDate_source (ls : LocalStorage) (d : Date)
    (t : ContentEngine.ReflectionTheme) :
  exists refl ls',
    ContentEngine.getReflectionForDate ContentEngine.sourcePools ls d t
    = (Ok refl, ls').
Proof.
  unfold ContentEngine.getReflectionForDate.
  destruct (ContentEngine.getStoredReflection ls _) as [r|].
  - now exists r, ls.
  - destruct (generateReflection_source d t) as (r & _ & _ & -> & _).
    eexists _, _. reflexivity.
Qed.

Lemma cards_of_topics (dateISO : string) (l : list TopicMeta) :
  exists all,
    mapM (fun '((t, i) : TopicMeta * N) =>
          card_of <$> generateArticleCore (key t) dateISO i)
         (map (fun t => (t, 1)) l) = Some all
    /\ Forall2 (fun t c => exists a, generateArticleCore (key t) dateISO 1 = Some a
                                     /\ c = card_of a) l all.
Proof.
  induction l as [|t l (all & IH & HF)].
  - exists []. split; [reflexivity|constructor].
  - destruct (generateArticleCore_defined (key t) dateISO 1) as (a & Ha & _).
    exists (card_of a :: all). split.
    + apply mapM_Some_2. cbn [map]. constructor.
      * now rewrite Ha.
      * now apply mapM_Some_1.
    + constructor; [now exists a|exact HF].
Qed.

(** One article per topic, in the order of the registry. *)
Lemma listArticlesForDate_one (d : Date) :
  exists all,
    listArticlesForDate d 1 = Some all
    /\ Forall2 (fun t c => card_for (key t) d c) topics all.
Proof.
  destruct (cards_of_topics (toDateISO d) topics) as (all & H & HF).
  exists all. split; [exact H|exact HF].
Qed.

Lemma first_cards (days : list Date) :
  exists cards,
    mapM (fun d => head <$> listArticlesForDate d 1) days = Some (map Some cards)
    /\ Forall2 (fun d c => card_for faith_and_reason d c
                           /\ exists all, listArticlesForDate d 1 = Some all
                                          /\ head all = Some c) days cards.
Proof.
  induction days as [|d days (cards & IH & HF)].
  - exists []. split; [reflexivity|constructor].
  - destruct (listArticlesForDate_one d) as (all & Hall & Hd).
    inversion Hd as [|t c ts cs Hc _ Et Ec]; subst.
    exists (c :: cards). split.
    + apply mapM_Some_2. cbn [map]. constructor.
      * now rewrite Hall.
      * now apply mapM_Some_1.
    + constructor; [|exact HF]. split; [exact Hc|].
      exists (c :: cs). now split.
Qed.

Lemma omap_id_Some {A} (l : list A) : omap Datatypes.id (map Some l) = l.
Proof. induction l as [|x l IH]; [reflexivity|]. cbn. now rewrite IH. Qed.

(** The ids of the first cards of a list of days. *)
Lemma first_card_ids (days : list Date) (cards : list ArticleCard) :
  Forall2 (fun d c => card_for faith_and_reason d c
                      /\ exists all, listArticlesForDate d 1 = Some all
                                     /\ head all = Some c) days cards ->
  c_id <$> cards
  = (fun d => articleId faith_and_reason (toDateISO d) 1) <$> days.
Proof.
  induction 1 as [|d c ds cs [(a & Ha & ->) _] _ IH]; [reflexivity|].
  cbn [fmap list_fmap]. cbn [fmap list_fmap] in IH. rewrite IH.
  destruct (generateArticleCore_defined faith_and_reason (toDateISO d) 1)
    as (a' & Ha' & Hid & _).
  rewrite Ha in Ha'. injection Ha' as <-. cbn [card_of c_id].
  now rewrite Hid.
Qed.

(** Stepping the day of the month moves the local time by whole days. *)
Lemma setDate_getDate (tz : TimeZone) (base : Date) (i : Z) :
  setDate tz base (getDate tz base - i)
  = UTC tz (LocalTime tz base - i * msPerDay).
Proof.
  unfold setDate, getDate.
  destruct (civil_from_days (LocalTime tz base / msPerDay)) as [[y m] dd].
  f_equal. unfold msPerDay. Z.div_mod_to_equations. lia.
Qed.

Lemma previousDays_instants (tz : TimeZone) (base : Date) (count : nat) :
  previousDays tz base count
  = map (fun i => UTC tz (LocalTime tz base - Z.of_nat i * msPerDay)%Z)
        (seq 0 count).
Proof.
  unfold previousDays. apply map_ext. intros i. apply setDate_getDate.
Qed.

(** The weekly digest in any zone: the reflection of the end date and the
    first card of each of the seven instants. *)
Lemma weekly_digest_cards (tz : TimeZone) (ls : LocalStorage) (date : Date) :
  let back := fun i : Z => UTC tz (LocalTime tz date - i * msPerDay) in
  exists refl ls' cards,
    ContentEngine.getReflectionForDate ContentEngine.sourcePools ls date
      ContentEngine.faith_reason = (Ok refl, ls')
    /\ buildWeeklyDigest formatHumanDate tz ContentEngine.sourcePools ls date
       = (Ok {| subject :=
                  "Weekly Digest • "
                    +:+ formatHumanDate (back 6%Z) +:+ " – "
                    +:+ formatHumanDate (back 0%Z);
                reflection := refl;
                articles := cards |}, ls')
    /\ c_id <$> cards
       = (fun i => articleId faith_and_reason (toDateISO (back i)) 1)
           <$> [0; 1; 2; 3; 4; 5; 6]%Z
    /\ Forall2 (fun d c => card_for faith_and_reason d c
                           /\ exists all, listArticlesForDate d 1 = Some all
                                          /\ head all = Some c)
         (map back [0; 1; 2; 3; 4; 5; 6]%Z) cards.
Proof.
  intros back.
  destruct (getReflectionForDate_source ls date ContentEngine.faith_reason)
    as (refl & ls' & Hr).
  assert (Hdays : previousDays tz date 7 = map back [0; 1; 2; 3; 4; 5; 6]%Z)
    by apply previousDays_instants.
  destruct (first_cards (previousDays tz date 7)) as (cards & Hc & HF).
  exists refl, ls', cards.
  assert (Hlen : length cards = 7%nat).
  { apply Forall2_length in HF. now rewrite <- HF. }
  split; [exact Hr|]. split; [|split].
  - unfold buildWeeklyDigest, highlights. rewrite Hr, Hc.
    cbn [cards_or_throw bind]. rewrite omap_id_Some.
    rewrite take_ge by (rewrite Hlen; reflexivity).
    rewrite Hdays. reflexivity.
  - rewrite (first_card_ids _ _ HF), Hdays.
    now rewrite <- list_fmap_compose.
  - now rewrite <- Hdays.
Qed.

(** C6, on the code. For every date the daily digest holds the reflection
    [getReflectionForDate] gives for that date and the theme mindfulness,
    and the first three articles synthesized for that date (one per topic,
    the first three topics of the registry).  For every end date the weekly
    digest holds the reflection of the end date for the theme faith-reason
    and seven cards: card [i] is the first article synthesized for the UTC
    day of the instant at which the local time of the host is that of the
    end date moved back by [i] whole days.  In a zone whose clocks never
    change these instants are the end date moved back by [i] days.  Across
    a clock change two of them can fall on the same UTC day: a host in New
    York, asked on 2025-03-10T23:30Z, shows the article of 9 March twice
    and none of 4 March. *)
Theorem digests_reflection_and_articles (tz : TimeZone) (ls : LocalStorage)
    (date : Date) :
  let back := fun i : Z => UTC tz (LocalTime tz date - i * msPerDay) in
  (exists refl ls' all,
      ContentEngine.getReflectionForDate ContentEngine.sourcePools ls date
        ContentEngine.mindfulness = (Ok refl, ls')
      /\ listArticlesForDate date 1 = Some all
      /\ buildDailyDigest formatHumanDate ContentEngine.sourcePools ls date
         = (Ok {| subject := "Daily • " +:+ formatHumanDate date;
                  reflection := refl;
                  articles := take 3 all |}, ls')
      /\ Forall2 (fun t c => card_for t date c)
           [faith_and_reason; ethics; metaphysics] (take 3 all))
  /\ (exists refl ls' cards,
        ContentEngine.getReflectionForDate ContentEngine.sourcePools ls date
          ContentEngine.faith_reason = (Ok refl, ls')
        /\ buildWeeklyDigest formatHumanDate tz ContentEngine.sourcePools ls date
           = (Ok {| subject :=
                      "Weekly Digest • "
                        +:+ formatHumanDate (back 6%Z) +:+ " – "
                        +:+ formatHumanDate (back 0%Z);
                    reflection := refl;
                    articles := cards |}, ls')
        /\ c_id <$> cards
           = (fun i => articleId faith_and_reason (toDateISO (back i)) 1)
               <$> [0; 1; 2; 3; 4; 5; 6]%Z
        /\ Forall2 (fun d c => card_for faith_and_reason d c
                               /\ exists all, listArticlesForDate d 1 = Some all
                                              /\ head all = Some c)
             (map back [0; 1; 2; 3; 4; 5; 6]%Z) cards)
  /\ (forall offset i : Z,
        UTC (fixed_zone offset)
            (LocalTime (fixed_zone offset) date - i * msPerDay)
        = (date - i * msPerDay)%Z)
  /\ (exists digest ls',
        buildWeeklyDigest formatHumanDate Fixtures.new_york_2025
          ContentEngine.sourcePools ls 1741649400000%Z = (Ok digest, ls')
        /\ c_id <$> articles digest
           = [ "faith-and-reason-20250310-1"; "faith-and-reason-20250309-1";
               "faith-and-reason-20250309-1"; "faith-and-reason-20250308-1";
               "faith-and-reason-20250307-1"; "faith-and-reason-20250306-1";
               "faith-and-reason-20250305-1" ]).
Proof.
  intros back. split; [|split; [|split]].
  - destruct (getReflectionForDate_source ls date ContentEngine.mindfulness)
      as (refl & ls' & Hr).
    destruct (listArticlesForDate_one date) as (all & Hall & HF).
    exists refl, ls', all. split; [exact Hr|]. split; [exact Hall|]. split.
    + unfold buildDailyDigest. rewrite Hr, Hall. reflexivity.
    + apply (Forall2_take _ _ _ 3) in HF.
      change (take 3 topics)
        with (map (fun t => {| key := t; label := humanLabel t;
                               imageKeyword := keywordFor t |})
                  [faith_and_reason; ethics; metaphysics]) in HF.
      apply Forall2_fmap_l in HF. exact HF.
  - apply (weekly_digest_cards tz ls date).
  - intros offset i. unfold UTC, LocalTime, fixed_zone.
    cbn [offset_at offset_of_local]. lia.
  - destruct (weekly_digest_cards Fixtures.new_york_2025 ls 1741649400000%Z)
      as (refl & ls' & cards & _ & Hb & Hids & _).
    eexists _, ls'. split; [exact Hb|]. cbn [articles]. rewrite Hids.
    vm_compute. reflexivity.
Qed.

End Digests.

(** ** The CSV reader *)

Section CSV.
Import RemoteImages.

Lemma row_entry_incomplete (cols : Columns) (type line : string) :
  complete (row_fields cols line) = false -> row_entry cols type line = None.
Proof.
  unfold row_entry, complete.
  destruct (row_fields cols line) as [[[t|] [k|]] [u|]]; try reflexivity.
  cbn [truthy]. now intros ->.
Qed.

Lemma add_row_incomplete (cols : Columns) (acc : RemoteMaps) (line : string) :
  complete (row_fields cols line) = false -> add_row cols acc line = acc.
Proof.
  unfold add_row, complete.
  destruct (row_fields cols line) as [[[t|] [k|]] [u|]]; simpl; try reflexivity.
  destruct (nonempty t), (nonempty k), (nonempty u); simpl;
    try reflexivity; discriminate.
Qed.

(** One turn of the row loop, seen from each table. *)
Lemma add_row_tables (cols : Columns) (acc : RemoteMaps) (line : string) :
  topics (add_row cols acc line)
  = match row_entry cols "topic" line with
    | Some (k, u) => assign (topics acc) k u
    | None => topics acc
    end
  /\ articles (add_row cols acc line)
     = match row_entry cols "article" line with
       | Some (k, u) => assign (articles acc) k u
       | None => articles acc
       end.
Proof.
  unfold add_row, row_entry.
  destruct (row_fields cols line) as [[[t|] [k|]] [u|]]; try (now split).
  destruct (nonempty t), (nonempty k), (nonempty u); cbn [negb orb andb];
    try (now split).
  destruct (String.eqb (toLowerCase t) "topic") eqn:Et.
  - apply String.eqb_eq in Et. rewrite Et. now split.
  - destruct (String.eqb (toLowerCase t) "article"); now split.
Qed.

Lemma add_row_topic (cols : Columns) (acc : RemoteMaps) (line k u : string) :
  row_entry cols "topic" line = Some (k, u) ->
  add_row cols acc line
  = {| topics := assign (topics acc) k u; articles := articles acc |}.
Proof.
  intros H. destruct (add_row_tables cols acc line) as [Ht Ha].
  rewrite H in Ht.
  assert (row_entry cols "article" line = None) as Hn.
  { unfold row_entry in *.
    destruct (row_fields cols line) as [[[t|] [k'|]] [u'|]]; try discriminate.
    destruct (nonempty t && nonempty k' && nonempty u'); [|reflexivity].
    cbn [andb] in *.
    destruct (String.eqb (toLowerCase t) "topic") eqn:E; [|discriminate].
    apply String.eqb_eq in E. now rewrite E. }
  rewrite Hn in Ha. destruct (add_row cols acc line). cbn in *. congruence.
Qed.

Lemma add_row_article (cols : Columns) (acc : RemoteMaps) (line k u : string) :
  row_entry cols "article" line = Some (k, u) ->
  add_row cols acc line
  = {| topics := topics acc; articles := assign (articles acc) k u |}.
Proof.
  intros H. destruct (add_row_tables cols acc line) as [Ht Ha].
  rewrite H in Ha.
  assert (row_entry cols "topic" line = None) as Hn.
  { unfold row_entry in *.
    destruct (row_fields cols line) as [[[t|] [k'|]] [u'|]]; try discriminate.
    destruct (nonempty t && nonempty k' && nonempty u'); [|reflexivity].
    cbn [andb] in *.
    destruct (String.eqb (toLowerCase t) "article") eqn:E; [|discriminate].
    apply String.eqb_eq in E. now rewrite E. }
  rewrite Hn in Ht. destruct (add_row cols acc line). cbn in *. congruence.
Qed.

(** What a table holds after a run of assignments that started from the
    empty object: for each key the url of the last row that wrote it, and
    never an own [__proto__]. *)
Lemma assigned_lookup (entry : string -> option (string * string))
    (rows : list string) (k u : string) :
  fold_left (fun m line => match entry line with
                           | Some (k, u) => assign m k u
                           | None => m
                           end) rows (∅ : gmap string string) !! k = Some u
  <-> k <> "__proto__"
      /\ exists pre line post,
           rows = (pre ++ line :: post)%list
           /\ entry line = Some (k, u)
           /\ Forall (fun later => forall u', entry later <> Some (k, u')) post.
Proof.
  set (step := fun (m : gmap string string) line =>
                 match entry line with
                 | Some (k, u) => assign m k u
                 | None => m
                 end).
  revert k u. induction rows as [|l rows IH] using rev_ind; intros k u.
  - cbn. rewrite lookup_empty. split; [discriminate|].
    intros (_ & pre & line & post & E & _). now destruct pre.
  - rewrite fold_left_app. cbn [fold_left].
    set (m := fold_left step rows ∅) in *.
    assert (Hproto : m !! "__proto__" = None).
    { destruct (m !! "__proto__") as [x|] eqn:E; [|reflexivity].
      apply IH in E as [E _]. now destruct E. }
    assert (Hlast : forall pre line post,
               (rows ++ [l] = pre ++ line :: post)%list ->
               (post = [] /\ line = l /\ pre = rows)
               \/ exists post', post = (post' ++ [l])%list
                                /\ rows = (pre ++ line :: post')%list).
    { intros pre line post E.
      destruct post as [|x post' _] using rev_ind.
      - left. apply app_inj_tail in E as [-> ->]. now repeat split.
      - right. exists post'.
        rewrite app_comm_cons, app_assoc in E.
        apply app_inj_tail in E as [-> ->]. now split. }
    unfold step at 1. destruct (entry l) as [[k' u']|] eqn:El.
    + unfold assign.
      destruct (decide (k' = k)) as [->|Hne].
      * destruct (m !! k) as [x|] eqn:Ek.
        -- rewrite lookup_insert_eq.
           assert (Hk : k <> "__proto__") by (intros ->; congruence).
           split.
           ++ intros [= ->]. split; [exact Hk|].
              exists rows, l, []. repeat split; [exact El|constructor].
           ++ intros (_ & pre & line & post & E & He & Hpost).
              destruct (Hlast _ _ _ E) as [(-> & -> & ->)|(post' & -> & _)].
              ** congruence.
              ** apply Forall_app in Hpost as [_ Hl].
                 rewrite Forall_singleton in Hl. now destruct (Hl u').
        -- destruct (String.eqb k "__proto__") eqn:Ep.
           ++ apply String.eqb_eq in Ep. rewrite Ek. split; [discriminate|].
              now intros [Hk _].
           ++ apply String.eqb_neq in Ep. rewrite lookup_insert_eq. split.
              ** intros [= ->]. split; [exact Ep|].
                 exists rows, l, []. repeat split; [exact El|constructor].
              ** intros (_ & pre & line & post & E & He & Hpost).
                 destruct (Hlast _ _ _ E) as [(-> & -> & ->)|(post' & -> & _)].
                 --- congruence.
                 --- apply Forall_app in Hpost as [_ Hl].
                     rewrite Forall_singleton in Hl. now destruct (Hl u').
      * assert (Hsame : match m !! k' with
                        | Some _ => <[k' := u']> m
                        | None => if String.eqb k' "__proto__" then m
                                  else <[k' := u']> m
                        end !! k = m !! k).
        { destruct (m !! k'); [now rewrite lookup_insert_ne|].
          destruct (String.eqb k' "__proto__"); [reflexivity|].
          now rewrite lookup_insert_ne. }
        rewrite Hsame, IH. split.
        -- intros (Hk & pre & line & post & -> & He & Hpost).
           split; [exact Hk|]. exists pre, line, (post ++ [l])%list.
           split; [now rewrite <- app_assoc|]. split; [exact He|].
           apply Forall_app. split; [exact Hpost|].
           apply Forall_singleton. intros u'' E. congruence.
        -- intros (Hk & pre & line & post & E & He & Hpost).
           split; [exact Hk|].
           destruct (Hlast _ _ _ E) as [(-> & -> & ->)|(post' & -> & ->)].
           ++ congruence.
           ++ exists pre, line, post'. split; [reflexivity|].
              split; [exact He|]. now apply Forall_app in Hpost as [Hpost _].
    + rewrite IH. split.
      * intros (Hk & pre & line & post & -> & He & Hpost).
        split; [exact Hk|]. exists pre, line, (post ++ [l])%list.
        split; [now rewrite <- app_assoc|]. split; [exact He|].
        apply Forall_app. split; [exact Hpost|].
        apply Forall_singleton. intros u'' E. congruence.
      * intros (Hk & pre & line & post & E & He & Hpost).
        split; [exact Hk|].
        destruct (Hlast _ _ _ E) as [(-> & -> & ->)|(post' & -> & ->)].
        -- congruence.
        -- exists pre, line, post'. split; [reflexivity|].
           split; [exact He|]. now apply Forall_app in Hpost as [Hpost _].
Qed.

(** The two tables of the row loop, each as a run of assignments. *)
Lemma fold_rows_tables (cols : Columns) (rows : list string) (acc : RemoteMaps) :
  topics (fold_left (add_row cols) rows acc)
  = fold_left (fun m line => match row_entry cols "topic" line with
                             | Some (k, u) => assign m k u
                             | None => m
                             end) rows (topics acc)
  /\ articles (fold_left (add_row cols) rows acc)
     = fold_left (fun m line => match row_entry cols "article" line with
                                | Some (k, u) => assign m k u
                                | None => m
                                end) rows (articles acc).
Proof.
  revert acc. induction rows as [|l rows IH]; intros acc; [now split|].
  cbn [fold_left]. destruct (IH (add_row cols acc l)) as [-> ->].
  destruct (add_row_tables cols acc l) as [-> ->]. now split.
Qed.

(** The columns and the data rows [parseCSV] settles on. *)
Lemma parseCSV_loop (text first : string) (rest : list string) :
  csv_lines text = first :: rest ->
  parseCSV text
  = match header_columns (map toLowerCase (parseCsvLine first)) with
    | Some cols => fold_left (add_row cols) rest empty_maps
    | None => fold_left (add_row {| typeIdx := 0; keyIdx := 1; urlIdx := 2 |})
                        (first :: rest) empty_maps
    end.
Proof. intros H. unfold parseCSV. now rewrite H. Qed.

(** C8, on the code. [parseCSV] is a total function: it returns two
    tables for every text and has no failing path. On the two-line text of
    the scenario it returns the topics table with the one entry [ethics] and an empty
    articles table, and a text with no line that is not blank gives two
    empty tables. In general the first line decides the columns (a header
    naming [type], [key] or [id], and [url] or [image], in any order; else
    the columns 0, 1, 2 and the first line is data), and the topics table
    holds [u] under [k] exactly when [k] is not [__proto__] and the last row
    of type [topic] with key [k] has url [u]; the articles table likewise
    for the rows of type [article]. A row missing one of its three fields
    writes nothing, and the rows after it are still read. A row whose key
    is [__proto__] writes nothing either, though it is complete and of type
    [topic]: the assignment [topics[k] = u] sets the prototype of the table
    and stores no entry. *)
Theorem parseCSV_rows :
  parseCSV ("type,key,url" +:+ String LF "topic,ethics,https://x/y.jpg")
  = {| topics := {[ "ethics" := "https://x/y.jpg" ]}; articles := ∅ |}
  /\ (forall text, csv_lines text = [] -> parseCSV text = empty_maps)
  /\ (forall text first rest,
        csv_lines text = first :: rest ->
        let header := header_columns (map toLowerCase (parseCsvLine first)) in
        let cols := default {| typeIdx := 0; keyIdx := 1; urlIdx := 2 |} header in
        let rows := match header with
                    | Some _ => rest
                    | None => first :: rest
                    end in
        forall type table,
          (type = "topic" /\ table = topics (parseCSV text))
          \/ (type = "article" /\ table = articles (parseCSV text)) ->
          forall k u,
            table !! k = Some u
            <-> k <> "__proto__"
                /\ exists pre line post,
                     rows = (pre ++ line :: post)%list
                     /\ row_entry cols type line = Some (k, u)
                     /\ Forall (fun later =>
                                  forall u', row_entry cols type later
                                             <> Some (k, u')) post)
  /\ (forall cols type line,
        complete (row_fields cols line) = false ->
        row_entry cols type line = None)
  /\ parseCSV ("image,id,type"
               +:+ String LF "https://cdn/a.png,ethics-20250811-1,Article")
     = {| topics := ∅;
          articles := {[ "ethics-20250811-1" := "https://cdn/a.png" ]} |}
  /\ parseCSV ("type,key,url"
               +:+ String LF "topic,ethics,https://x/1.jpg"
               +:+ String LF "topic,,https://x/2.jpg"
               +:+ String LF "article,a-1,https://x/3.jpg"
               +:+ String LF "note,logic,https://x/4.jpg"
               +:+ String LF "topic,logic"
               +:+ String LF "TOPIC,ethics,https://x/5.jpg")
     = {| topics := {[ "ethics" := "https://x/5.jpg" ]};
          articles := {[ "a-1" := "https://x/3.jpg" ]} |}
  /\ parseCSV ("topic,ethics,https://x/y.jpg"
               +:+ String LF "article,a-1,https://x/z.jpg")
     = {| topics := {[ "ethics" := "https://x/y.jpg" ]};
          articles := {[ "a-1" := "https://x/z.jpg" ]} |}
  /\ row_entry {| typeIdx := 0; keyIdx := 1; urlIdx := 2 |} "topic"
                "topic,__proto__,https://x/y.jpg"
     = Some ("__proto__", "https://x/y.jpg")
  /\ parseCSV ("type,key,url" +:+ String LF "topic,__proto__,https://x/y.jpg")
     = empty_maps.
Proof.
  split; [reflexivity|].
  split; [intros text H; unfold parseCSV; now rewrite H|].
  split.
  { intros text first rest Hl header cols rows type table Htable k u.
    assert (parseCSV text = fold_left (add_row cols) rows empty_maps) as Hp.
    { rewrite (parseCSV_loop _ _ _ Hl). subst cols rows header.
      now destruct (header_columns (map toLowerCase (parseCsvLine first))). }
    destruct (fold_rows_tables cols rows empty_maps) as [Ht Ha].
    rewrite <- Hp in Ht, Ha.
    destruct Htable as [[-> ->]|[-> ->]].
    - rewrite Ht. apply assigned_lookup.
    - rewrite Ha. apply assigned_lookup. }
  split; [exact row_entry_incomplete|].
  repeat split; vm_compute; reflexivity.
Qed.

End CSV.

(** ** Supporting facts: what the program itself stores is read back *)

Section StoredValues.
Import ImageOverrides.

Lemma trim_end_cons (c : ascii) (r : string) :
  trim_end (String c r)
  = match trim_end r with
    | EmptyString => if is_white c then EmptyString else String c EmptyString
    | r' => String c r'
    end.
Proof. reflexivity. Qed.

Lemma trim_end_idempotent (s : string) : trim_end (trim_end s) = trim_end s.
Proof.
  induction s as [|c r IH]; [reflexivity|]. rewrite trim_end_cons.
  destruct (trim_end r) as [|c' r'] eqn:E.
  - destruct (is_white c) eqn:W; [reflexivity|].
    rewrite trim_end_cons. cbn [trim_end]. now rewrite W.
  - rewrite trim_end_cons, IH. reflexivity.
Qed.

Lemma trim_end_head (c : ascii) (r : string) :
  is_white c = false -> exists r', trim_end (String c r) = String c r'.
Proof.
  intros W. cbn [trim_end]. destruct (trim_end r) as [|c' r'].
  - rewrite W. now exists EmptyString.
  - now exists (String c' r').
Qed.

Lemma trim_start_head (s : string) :
  trim_start s = EmptyString
  \/ exists c r, trim_start s = String c r /\ is_white c = false.
Proof.
  induction s as [|c r IH]; [now left|]. cbn [trim_start].
  destruct (is_white c) eqn:W; [exact IH|]. right. now exists c, r.
Qed.

(** [trim] leaves a trimmed text alone. *)
Lemma trim_idempotent (s : string) : trim (trim s) = trim s.
Proof.
  unfold trim. destruct (trim_start_head s) as [->|(c & r & -> & W)];
    [reflexivity|].
  destruct (trim_end_head c r W) as (r' & E). rewrite E.
  cbn [trim_start]. rewrite W, <- E. apply trim_end_idempotent.
Qed.

(** After [setSiteWideImage] stored a text, the local reader answers
    exactly the stored text. *)
Lemma setSiteWideImage_read_back (w : World) (src : option string) (v : string) :
  text_of src = Some v ->
  readable (storage w) = true -> writable (storage w) = true ->
  items (storage (setSiteWideImage w src)) !! STORAGE_SITE_WIDE = Some v
  /\ getSiteWideImageLocal (storage (setSiteWideImage w src)) = Some v
  /\ dispatched (setSiteWideImage w src) = (dispatched w ++ [OV_EVENT])%list.
Proof.
  intros Ht Hr Hw. unfold setSiteWideImage, setItem. rewrite Ht, Hw.
  cbn [storage dispatched items].
  assert (Hv : nonempty v = true /\ trim v = v).
  { unfold text_of in Ht. destruct src as [s|]; [|discriminate].
    destruct (nonempty s && nonempty (trim s)) eqn:E; [|discriminate].
    injection Ht as <-. apply andb_prop in E as [_ E].
    split; [exact E|apply trim_idempotent]. }
  destruct Hv as [Hn Hid].
  split; [apply lookup_insert_eq|]. split; [|reflexivity].
  unfold getSiteWideImageLocal, getItem. cbn [readable items].
  rewrite Hr, lookup_insert_eq, Hid, Hn. reflexivity.
Qed.

End StoredValues.

Section FirstVisit.
Import ContentEngine.
Context {codec : JSON Reflection}.

(** A miss generates, stores and returns; when the storage takes the write
    and the codec reads back what it wrote, the next call is a hit on the
    very same reflection, whatever the tables have become. *)
Lemma first_generation_is_cached (P P' : Pools) (ls : LocalStorage) (d : Date)
    (t : ReflectionTheme) (g : Reflection) :
  getStoredReflection ls (cacheKey d t) = None ->
  generateReflection P d t = Ok g ->
  readable ls = true -> writable ls = true ->
  nonempty (stringify g) = true -> parse (stringify g) = Some g ->
  fst (getReflectionForDate P ls d t) = Ok g
  /\ getReflectionForDate P' (snd (getReflectionForDate P ls d t)) d t
     = (Ok g, snd (getReflectionForDate P ls d t)).
Proof.
  intros Hmiss Hgen Hr Hw Hne Hp.
  unfold getReflectionForDate at 1 3 4. rewrite Hmiss, Hgen. cbn [fst snd].
  split; [reflexivity|].
  apply getReflectionForDate_hit.
  unfold storeReflection, setItem. rewrite Hw.
  unfold getStoredReflection, getItem. cbn [readable items].
  now rewrite Hr, lookup_insert_eq, Hne.
Qed.

End FirstVisit.

(** ** The definitions at work on explicit inputs *)

Section Runs.
Import RemoteImages.

Example toISOString_epoch : toISOString 0%Z = "1970-01-01T00:00:00.000Z".
Proof. reflexivity. Qed.

Example toISOString_leap_day :
  toISOString 1709210096789%Z = "2024-02-29T12:34:56.789Z".
Proof. reflexivity. Qed.

Example toISOString_before_epoch :
  toISOString (-1)%Z = "1969-12-31T23:59:59.999Z".
Proof. reflexivity. Qed.

Example previousDays_crosses_month :
  map ArticleEngine.toDateISO
      (NewsletterDigest.previousDays (fixed_zone 0) 1740830400000%Z 3)
  = ["2025-03-01"; "2025-02-28"; "2025-02-27"].
Proof. reflexivity. Qed.

Example hash_of_key : ContentEngine.hash "2025-01-01|mindfulness" = 1821275394.
Proof. vm_compute. reflexivity. Qed.

Example hash_of_empty : ArticleEngine.hash "" = 2166136261.
Proof. reflexivity. Qed.

Example trim_both_ends : trim "  a b  " = "a b".
Proof. reflexivity. Qed.

Example host_is_local : Env.IS_PUBLIC (Some "LocalHost") = false.
Proof. reflexivity. Qed.

Example host_is_public : Env.IS_PUBLIC (Some "localhost.example.org") = true.
Proof. reflexivity. Qed.

Example quoted_field_with_comma :
  parseCsvLine ("article, a-1 ," +:+ dquote +:+ "data:image/png;base64,AAAA" +:+ dquote)
  = ["article"; "a-1"; "data:image/png;base64,AAAA"].
Proof. reflexivity. Qed.

Example lines_with_carriage_returns :
  csv_lines ("a,b" +:+ String CR (String LF (String LF " c,d "))) = ["a,b"; "c,d"].
Proof. reflexivity. Qed.

Example id_with_hyphenated_topic :
  ArticleEngine.parseArticleId "faith-and-reason-20250811-12"
  = Some {| ArticleEngine.p_topic := ArticleEngine.faith_and_reason;
            ArticleEngine.p_dateISO := "2025-08-11";
            ArticleEngine.p_index := 12 |}.
Proof. vm_compute. reflexivity. Qed.

Example id_of_unknown_topic :
  ArticleEngine.parseArticleId "politics-20250811-1" = None.
Proof. vm_compute. reflexivity. Qed.

Example title_of_ethics_article :
  ArticleEngine.title
    <$> ArticleEngine.generateArticleCore ArticleEngine.ethics "2025-08-11" 1
  = Some "Formed by Love".
Proof. vm_compute. reflexivity. Qed.

End Runs.

(** * Further properties *)

(** ** ISO dates of real instants *)

Section IsoDates.

Lemma civil_month_day (days : Z) :
  let '(y, m, d) := civil_from_days days in
  (1 <= m <= 12 /\ 1 <= d <= 31)%Z.
Proof.
  unfold civil_from_days.
  set (z := (days + 719468)%Z).
  set (era := (z / 146097)%Z).
  set (doe := (z - era * 146097)%Z).
  assert (Hdoe : (0 <= doe <= 146096)%Z)
    by (subst doe era; Z.div_mod_to_equations; lia).
  clearbody doe. clear z era.
  set (yoe := ((doe - doe / 1460 + doe / 36524 - doe / 146096) / 365)%Z).
  assert (Hyoe : (0 <= yoe <= 399)%Z)
    by (subst yoe; Z.div_mod_to_equations; lia).
  set (doy := (doe - (365 * yoe + yoe / 4 - yoe / 100))%Z).
  assert (Hdoy : (0 <= doy <= 365)%Z)
    by (subst doy yoe; Z.div_mod_to_equations; lia).
  clearbody doy.
  set (mp := ((5 * doy + 2) / 153)%Z).
  assert (Hmp : (0 <= mp <= 11)%Z) by (subst mp; Z.div_mod_to_equations; lia).
  destruct (mp <? 10)%Z eqn:E.
  - apply Z.ltb_lt in E. split; [lia|]. subst mp. Z.div_mod_to_equations. lia.
  - apply Z.ltb_ge in E. split; [lia|]. subst mp. Z.div_mod_to_equations. lia.
Qed.

(** Day numbers from 0000-01-01 to 9999-12-31 have a four-digit year. *)
Lemma civil_year_four_digits (days : Z) :
  (-719528 <= days <= 2932896)%Z ->
  let '(y, m, d) := civil_from_days days in (0 <= y <= 9999)%Z.
Proof.
  intros H. unfold civil_from_days.
  set (z := (days + 719468)%Z).
  set (era := (z / 146097)%Z).
  set (doe := (z - era * 146097)%Z).
  assert (Hera : (-1 <= era <= 24)%Z)
    by (subst era z; Z.div_mod_to_equations; lia).
  assert (Hdoe : (0 <= doe <= 146096)%Z)
    by (subst doe era; Z.div_mod_to_equations; lia).
  set (yoe := ((doe - doe / 1460 + doe / 36524 - doe / 146096) / 365)%Z).
  assert (Hyoe : (0 <= yoe <= 399)%Z)
    by (subst yoe; Z.div_mod_to_equations; lia).
  set (doy := (doe - (365 * yoe + yoe / 4 - yoe / 100))%Z).
  assert (Hdoy : (0 <= doy <= 365)%Z)
    by (subst doy yoe; Z.div_mod_to_equations; lia).
  set (mp := ((5 * doy + 2) / 153)%Z).
  assert (Hmp : (0 <= mp <= 11)%Z) by (subst mp; Z.div_mod_to_equations; lia).
  destruct (mp <? 10)%Z eqn:E.
  - apply Z.ltb_lt in E.
    assert ((mp + 3 <=? 2)%Z = false) as -> by (apply Z.leb_gt; lia).
    split; subst mp doy yoe doe era z; Z.div_mod_to_equations; lia.
  - apply Z.ltb_ge in E.
    assert ((mp - 9 <=? 2)%Z = true) as -> by (apply Z.leb_le; lia).
    split; subst mp doy yoe doe era z; Z.div_mod_to_equations; lia.
Qed.

Lemma digits_field (w : nat) (bound : N) (z : Z) :
  forallb (fun n => digit_field w (digits w (Z.of_nat n)))
          (seq 0 (N.to_nat bound)) = true ->
  (0 <= z < Z.of_N bound)%Z -> digit_field w (digits w z) = true.
Proof.
  intros Hall Hz. rewrite forallb_forall in Hall.
  rewrite <- (Z2Nat.id z) by lia. apply Hall, in_seq. lia.
Qed.

Lemma digits_4 (z : Z) : (0 <= z <= 9999)%Z -> digit_field 4 (digits 4 z) = true.
Proof.
  intros H. apply (digits_field 4 10000); [vm_compute; reflexivity|lia].
Qed.

Lemma digits_2 (z : Z) : (0 <= z <= 99)%Z -> digit_field 2 (digits 2 z) = true.
Proof.
  intros H. apply (digits_field 2 100); [vm_compute; reflexivity|lia].
Qed.

Lemma iso_of_fields (Y M D rest : string) :
  digit_field 4 Y = true -> digit_field 2 M = true -> digit_field 2 D = true ->
  ArticleEngine.is_iso_date
    (slice 0 10 (Y +:+ "-" +:+ M +:+ "-" +:+ D +:+ rest)) = true.
Proof.
  unfold digit_field. intros HY HM HD.
  apply andb_prop in HY as [LY HY], HM as [LM HM], HD as [LD HD].
  apply Nat.eqb_eq in LY, LM, LD.
  destruct Y as [|y1 [|y2 [|y3 [|y4 [|]]]]]; try discriminate LY.
  destruct M as [|m1 [|m2 [|]]]; try discriminate LM.
  destruct D as [|d1 [|d2 [|]]]; try discriminate LD.
  cbn [all_chars] in HY, HM, HD.
  repeat match goal with
         | H : _ && _ = true |- _ => apply andb_prop in H as [? ?]
         end.
  cbv -[is_digit].
  repeat match goal with E : is_digit _ = true |- _ => rewrite E; clear E end.
  reflexivity.
Qed.

Lemma toISOString_date_shape (d : Date) :
  (year_0000 <= d < year_10000)%Z ->
  ArticleEngine.is_iso_date (slice 0 10 (toISOString d)) = true.
Proof.
  intros H. unfold toISOString.
  assert (Hdays : (-719528 <= d / msPerDay <= 2932896)%Z).
  { unfold year_0000, year_10000, msPerDay in *. Z.div_mod_to_equations. lia. }
  pose proof (civil_year_four_digits _ Hdays) as Hy.
  pose proof (civil_month_day (d / msPerDay)) as Hmd.
  destruct (civil_from_days (d / msPerDay)) as [[y m] dd].
  destruct Hmd as [Hm Hd].
  assert (((0 <=? y) && (y <=? 9999))%Z = true) as ->.
  { apply andb_true_intro. split; [apply Z.leb_le|apply Z.leb_le]; lia. }
  apply iso_of_fields; [apply digits_4|apply digits_2|apply digits_2]; lia.
Qed.

End IsoDates.

(** ** Listings and details *)

Section Listing.
Import ArticleEngine ArticleDetail.

Lemma number_to_string_inj (i j : N) :
  i <= MAX_SAFE_INTEGER -> j <= MAX_SAFE_INTEGER ->
  number_to_string i = number_to_string j -> i = j.
Proof.
  intros Hi Hj H.
  assert (Int i = Int j) as [= E]; [|exact E].
  rewrite <- (parseInt10_number_to_string i), H
    by auto using round_double_safe, safe_below_1e21.
  apply parseInt10_number_to_string;
    auto using round_double_safe, safe_below_1e21.
Qed.

(** Two ids for the same date are equal only for the same topic and index. *)
Lemma articleId_inj (t1 t2 : TopicKey) (dateISO : string) (i1 i2 : N) :
  i1 <= MAX_SAFE_INTEGER -> i2 <= MAX_SAFE_INTEGER ->
  articleId t1 dateISO i1 = articleId t2 dateISO i2 -> t1 = t2 /\ i1 = i2.
Proof.
  unfold articleId. intros H1 H2 H.
  assert (Ht : t1 = t2).
  { destruct t1, t2; try reflexivity; cbn in H; discriminate H. }
  subst t2. split; [reflexivity|].
  apply (inj (String.append _)) in H. apply (inj (String.append _)) in H.
  apply (inj (String.append _)) in H. apply (inj (String.append _)) in H.
  now apply number_to_string_inj.
Qed.

(** Past [MAX_SAFE_INTEGER] the loop counter of [listArticlesForDate] no
    longer advances: [i++] at two to the 53 gives two to the 53 again. *)
Example counter_stalls : to_number (2 ^ 53 + 1) = Int (2 ^ 53).
Proof. vm_compute. reflexivity. Qed.

Lemma topics_key_inj (t1 t2 : TopicMeta) :
  t1 ∈ topics -> t2 ∈ topics -> key t1 = key t2 -> t1 = t2.
Proof.
  unfold topics. rewrite !elem_of_cons, !elem_of_nil.
  intros H1 H2.
  repeat (destruct H1 as [->|H1]); try contradiction;
    repeat (destruct H2 as [->|H2]); try contradiction;
    intros H; try reflexivity; discriminate H.
Qed.

Lemma topics_NoDup : NoDup topics.
Proof.
  apply (NoDup_fmap_1 key). unfold topics. cbn [fmap list_fmap key].
  repeat (apply NoDup_cons; split;
          [intros H;
           repeat (apply elem_of_cons in H as [H|H]; [discriminate H|]);
           now apply elem_of_nil in H|]).
  apply NoDup_nil_2.
Qed.

(** The (topic, index) pairs [listArticlesForDate] walks. *)
Lemma pairs_shape (perTopic : N) :
  let pairs := t ← topics; i ← indices perTopic; [(t, i)] in
  length pairs = (8 * N.to_nat perTopic)%nat /\ NoDup pairs
  /\ forall p, p ∈ pairs -> p.1 ∈ topics
               /\ 1 <= p.2 <= perTopic.
Proof.
  intros pairs.
  assert (Hrow : forall t : TopicMeta,
             (i ← indices perTopic; [(t, i)]) = pair t <$> indices perTopic).
  { intros t. induction (indices perTopic) as [|i l IH]; [reflexivity|].
    rewrite bind_cons, IH. reflexivity. }
  assert (Hlen : length (indices perTopic) = N.to_nat perTopic).
  { unfold indices. now rewrite length_map, length_seq. }
  assert (Hnd : NoDup (indices perTopic)).
  { unfold indices. apply (NoDup_fmap_2 N.of_nat), NoDup_seq. }
  split; [|split].
  - subst pairs. unfold topics. rewrite !bind_cons, !Hrow, !length_app,
      !length_fmap, Hlen. cbn. lia.
  - subst pairs. apply NoDup_bind.
    + intros t1 t2 [t i] _ _. rewrite !Hrow, !list_elem_of_fmap.
      intros (? & [= -> _] & _) (? & [= -> _] & _). reflexivity.
    + intros t _. rewrite Hrow. now apply (NoDup_fmap_2 (pair t)).
    + apply topics_NoDup.
  - intros [t i]. subst pairs. rewrite list_elem_of_bind.
    intros (t' & Hin & Ht'). rewrite Hrow, list_elem_of_fmap in Hin.
    destruct Hin as (i' & [= -> ->] & Hi). split; [exact Ht'|].
    unfold indices in Hi. apply list_elem_of_fmap in Hi as (k & -> & Hk).
    apply elem_of_seq in Hk. cbn [snd]. lia.
Qed.

Lemma cards_of_pairs (dateISO : string) (pairs : list (TopicMeta * N)) :
  exists all,
    mapM (fun '((t, i) : TopicMeta * N) =>
          card_of <$> generateArticleCore (key t) dateISO i)
         pairs = Some all
    /\ Forall2 (fun (p : TopicMeta * N) c => exists a,
                  generateArticleCore (key p.1) dateISO p.2 = Some a
                  /\ c = card_of a
                  /\ id a = articleId (key p.1) dateISO p.2) pairs all.
Proof.
  induction pairs as [|[t i] l (all & IH & HF)].
  - exists []. split; [reflexivity|constructor].
  - destruct (generateArticleCore_defined (key t) dateISO i)
      as (a & Ha & Hid & _).
    exists (card_of a :: all). split.
    + apply mapM_Some_2. constructor; [now rewrite Ha|now apply mapM_Some_1].
    + constructor; [now exists a|exact HF].
Qed.

Lemma listing_ids (dateISO : string) (pairs : list (TopicMeta * N))
    (all : list ArticleCard) :
  Forall2 (fun (p : TopicMeta * N) c => exists a,
             generateArticleCore (key p.1) dateISO p.2 = Some a
             /\ c = card_of a
             /\ id a = articleId (key p.1) dateISO p.2) pairs all ->
  c_id <$> all
  = (fun p : TopicMeta * N => articleId (key p.1) dateISO p.2) <$> pairs.
Proof.
  induction 1 as [|p c l k (a & _ & -> & Hid) _ IH]; [reflexivity|].
  cbn [fmap list_fmap]. cbn [fmap list_fmap] in IH. rewrite IH.
  cbn [card_of c_id]. now rewrite Hid.
Qed.

End Listing.

Section ListingProperties.
Import ArticleEngine ArticleDetail.

(** X1. For every date and every number of articles per topic up to
    [MAX_SAFE_INTEGER] (the numbers the loop counter can reach),
    [listArticlesForDate] returns eight times that many cards, their ids are
    pairwise distinct, and every card carries the path [/articles/<id>] and
    the id built from its own topic, the ISO day of the date and an index
    between 1 and the number asked for. *)
Theorem listing_cards_distinct (date : Date) (perTopic : N) :
  perTopic <= MAX_SAFE_INTEGER ->
  exists all,
    listArticlesForDate date perTopic = Some all
    /\ length all = (8 * N.to_nat perTopic)%nat
    /\ NoDup (c_id <$> all)
    /\ Forall (fun c => c_path c = "/articles/" +:+ c_id c
                        /\ exists i, 1 <= i <= perTopic
                             /\ c_id c = articleId (c_topic c) (toDateISO date) i)
              all.
Proof.
  intros Hsafe.
  destruct (pairs_shape perTopic) as (Hlen & Hnd & Hin).
  destruct (cards_of_pairs (toDateISO date)
              (t ← topics; i ← indices perTopic; [(t, i)])) as (all & Hall & HF).
  exists all. split; [exact Hall|]. split; [|split].
  - rewrite <- (Forall2_length _ _ _ HF). exact Hlen.
  - rewrite (listing_ids _ _ _ HF). apply NoDup_fmap_2_strong; [|exact Hnd].
    intros [t1 i1] [t2 i2] H1 H2 Heq. cbn [fst snd] in Heq.
    apply Hin in H1 as [H1 Hi1], H2 as [H2 Hi2]. cbn [fst snd] in *.
    apply articleId_inj in Heq as [Hk ->]; [|lia..].
    now rewrite (topics_key_inj t1 t2 H1 H2 Hk).
  - apply Forall_forall. intros c Hc.
    apply list_elem_of_lookup_1 in Hc as [k Hk].
    destruct (Forall2_lookup_r _ _ _ _ _ HF Hk) as ([t i] & Hp & a & Ha & -> & Hid).
    apply list_elem_of_lookup_2 in Hp. apply Hin in Hp as [_ Hi].
    cbn [fst snd] in *. split; [reflexivity|]. exists i. split; [exact Hi|].
    cbn [card_of c_id c_topic]. rewrite Hid.
    destruct (generateArticleCore_defined (key t) (toDateISO date) i)
      as (a' & Ha' & _ & Htopic & _).
    rewrite Ha in Ha'. injection Ha' as <-. now rewrite Htopic.
Qed.

Lemma listing_cards_distinct_witness :
  exists all,
    listArticlesForDate 1754870400123%Z 2 = Some all
    /\ length all = 16%nat
    /\ NoDup (c_id <$> all)
    /\ Forall (fun c => c_path c = "/articles/" +:+ c_id c
                        /\ exists i, 1 <= i <= 2
                             /\ c_id c = articleId (c_topic c) "2025-08-11" i)
              all.
Proof.
  apply (listing_cards_distinct 1754870400123%Z 2).
  unfold MAX_SAFE_INTEGER. cbn. lia.
Defined.

(** X2. For every instant with a four-digit year and every number of
    articles per topic up to [MAX_SAFE_INTEGER], every card listed is found
    again by [getArticleDetailById] under the id of the card, whatever the
    current day is, and the article found has the id, title, excerpt, image,
    tags and topic shown on the card. *)
Theorem listed_article_has_detail (date today : Date) (perTopic : N) :
  (year_0000 <= date < year_10000)%Z ->
  perTopic <= MAX_SAFE_INTEGER ->
  exists all,
    listArticlesForDate date perTopic = Some all
    /\ forall c, c ∈ all ->
         exists a, getArticleDetailById today (c_id c) = Some a
                   /\ card_of a = c.
Proof.
  intros Hrange Hsafe.
  destruct (pairs_shape perTopic) as (_ & _ & Hin).
  destruct (cards_of_pairs (toDateISO date)
              (t ← topics; i ← indices perTopic; [(t, i)])) as (all & Hall & HF).
  exists all. split; [exact Hall|]. intros c Hc.
  apply list_elem_of_lookup_1 in Hc as [k Hk].
  destruct (Forall2_lookup_r _ _ _ _ _ HF Hk) as ([t i] & Hp & a & Ha & -> & Hid).
  apply list_elem_of_lookup_2 in Hp. apply Hin in Hp as [_ Hi].
  cbn [fst snd] in *. exists a. split; [|reflexivity].
  cbn [card_of c_id]. rewrite Hid. unfold getArticleDetailById.
  assert (i <= MAX_SAFE_INTEGER) as Hi' by lia.
  rewrite parseArticleId_articleId;
    [exact Ha|apply (toISOString_date_shape _ Hrange)
     |now apply to_number_safe|now apply safe_below_1e21].
Qed.

Lemma listed_article_has_detail_witness :
  exists all,
    listArticlesForDate 1754870400123%Z 2 = Some all
    /\ forall c, c ∈ all ->
         exists a, getArticleDetailById 0%Z (c_id c) = Some a /\ card_of a = c.
Proof.
  apply (listed_article_has_detail 1754870400123%Z 0%Z 2).
  - unfold year_0000, year_10000. lia.
  - unfold MAX_SAFE_INTEGER. cbn. lia.
Defined.

(** X3. Between the years 0000 and 9999 the day key both engines derive
    from a date has the shape [YYYY-MM-DD]. *)
Theorem day_key_has_iso_shape (d : Date) :
  (year_0000 <= d < year_10000)%Z ->
  is_iso_date (toDateISO d) = true
  /\ is_iso_date (ContentEngine.dateISO_of d) = true.
Proof. intros H. split; apply (toISOString_date_shape _ H). Qed.

Lemma day_key_has_iso_shape_witness :
  is_iso_date (toDateISO 1754870400123%Z) = true
  /\ is_iso_date (ContentEngine.dateISO_of 1754870400123%Z) = true.
Proof.
  apply (day_key_has_iso_shape 1754870400123%Z).
  unfold year_0000, year_10000. lia.
Defined.

End ListingProperties.

(** ** Details of slugs that are not dated ids *)

Section Fallback.
Import ArticleEngine ArticleDetail.

Lemma buildPrimerBody_shape (topic : TopicKey) (seed : N) :
  exists (core : list string) (scr : Scripture) (practice : string),
    buildPrimerBody topic seed
    = Some ([ "A short primer on " +:+ humanLabel topic
                +:+ ": key ideas, a scripture to ponder, and one simple practice to begin." ]
            ++ core
            ++ [ "Scripture to ponder: “" +:+ s_text scr +:+ "” (" +:+ s_ref scr +:+ ").";
                 practice ])%list
    /\ length core = 3%nat
    /\ (forall p, p ∈ core -> p ∈ paragraphsByTopic topic)
    /\ scr ∈ scriptureByTopic topic
    /\ practice ∈ practiceByTopic topic.
Proof.
  destruct (paragraphs_pool topic) as [Hlen _].
  destruct (sampleDeterministic_prefix (paragraphsByTopic topic) 3 (seed + 1))
    as [Hs Hl]; [lia|].
  destruct (article_pick_elem (scriptureByTopic topic) (seed + 2))
    as (scr & Hscr & Hscr_in); [destruct topic; discriminate|].
  destruct (article_pick_elem (practiceByTopic topic) (seed + 3))
    as (practice & Hpr & Hpr_in); [destruct topic; discriminate|].
  exists (sampleDeterministic (paragraphsByTopic topic) 3 (seed + 1)), scr, practice.
  split; [unfold buildPrimerBody; now rewrite Hscr, Hpr|].
  split; [lia|]. split; [|now split].
  intros p Hp. rewrite Hs in Hp. eapply sample_within, Hp.
Qed.

Lemma guessTopicFromSlug_None (slug : string) :
  guessTopicFromSlug slug = None
  <-> forall t : TopicKey, includes (key_string t) (toLowerCase slug) = false.
Proof.
  unfold guessTopicFromSlug. split.
  - intros H t.
    destruct (find _ topics) as [m|] eqn:E; [discriminate H|].
    destruct (key_string_slug t) as (_ & _ & meta & Hfind & <-).
    apply find_some in Hfind as [Hin _].
    apply (find_none _ _ E) in Hin. exact Hin.
  - intros H. destruct (find _ topics) as [m|] eqn:E; [|reflexivity].
    apply find_some in E as [_ E]. now rewrite H in E.
Qed.

Lemma guessTopicFromSlug_Some (slug : string) (t : TopicKey) :
  guessTopicFromSlug slug = Some t ->
  includes (key_string t) (toLowerCase slug) = true.
Proof.
  unfold guessTopicFromSlug.
  destruct (find _ topics) as [m|] eqn:E; [|discriminate].
  intros [= <-]. now apply find_some in E as [_ E].
Qed.

(** What the fallback path builds. *)
Lemma fallback_article (today : Date) (id : string) (t : TopicKey) :
  parseArticleId id = None -> guessTopicFromSlug id = Some t ->
  exists a base body,
    getArticleDetailById today id = Some a
    /\ generateArticleCore t (toDateISO today) 1 = Some base
    /\ (if isPrimer id
        then buildPrimerBody t (hash (id +:+ "|" +:+ toDateISO today))
        else buildBody t (hash (id +:+ "|" +:+ toDateISO today))) = Some body
    /\ a = {| ArticleEngine.id := id;
              title := if isPrimer id then humanLabel t +:+ " Primer"
                       else title base;
              excerpt := if isPrimer id
                         then "A concise primer on " +:+ humanLabel t
                                +:+ "—themes, Scripture, and one simple practice to start."
                         else excerpt base;
              image := "https://pub-cdn.sider.ai/u/U0AWH6J28LO/web-coder/6896d87314f019f2a83e5a14/resource/24eb1c6b-ca6a-40e9-b18f-114f22829fd8.jpg";
              tags := tags base; body := body; quote := quote base;
              topic := t; dateISO := toDateISO today |}.
Proof.
  intros Hp Hg.
  destruct (generateArticleCore_defined t (toDateISO today) 1)
    as (base & Hbase & _ & Htopic & Hdate).
  assert (Hbody : exists body,
    (if isPrimer id
     then buildPrimerBody t (hash (id +:+ "|" +:+ toDateISO today))
     else buildBody t (hash (id +:+ "|" +:+ toDateISO today))) = Some body).
  { destruct (isPrimer id).
    - destruct (buildPrimerBody_shape t (hash (id +:+ "|" +:+ toDateISO today)))
        as (core & scr & pr & H & _). eexists. exact H.
    - apply buildBody_defined. }
  destruct Hbody as (body & Hbody).
  eexists _, base, body.
  split; [|split; [exact Hbase|split; [exact Hbody|reflexivity]]].
  unfold getArticleDetailById. rewrite Hp, Hg, Hbase. cbn [mbind option_bind].
  rewrite Hbody. cbn [mbind option_bind]. now rewrite Htopic, Hdate.
Qed.

(** X4. [getArticleDetailById] answers [null] exactly when the id is not a
    dated id of a registered topic and no registered topic key occurs in
    its lower-cased text.  When it answers through the fallback path, the
    article keeps the requested id, is dated with the current day and
    belongs to a topic whose key occurs in the slug. *)
Theorem detail_lookup_outcomes (today : Date) (id : string) :
  (getArticleDetailById today id = None
   <-> parseArticleId id = None
       /\ forall t : TopicKey, includes (key_string t) (toLowerCase id) = false)
  /\ (forall a, getArticleDetailById today id = Some a ->
        parseArticleId id = None ->
        ArticleEngine.id a = id
        /\ dateISO a = toDateISO today
        /\ includes (key_string (topic a)) (toLowerCase id) = true).
Proof.
  split.
  - rewrite <- guessTopicFromSlug_None. split.
    + intros H. destruct (parseArticleId id) as [p|] eqn:Hp.
      * unfold getArticleDetailById in H. rewrite Hp in H.
        destruct (generateArticleCore_defined (p_topic p) (p_dateISO p) (p_index p))
          as (a & Ha & _). now rewrite Ha in H.
      * split; [reflexivity|].
        destruct (guessTopicFromSlug id) as [t|] eqn:Hg; [|reflexivity].
        destruct (fallback_article today id t Hp Hg) as (a & _ & _ & Ha & _).
        now rewrite Ha in H.
    + intros [Hp Hg]. unfold getArticleDetailById. now rewrite Hp, Hg.
  - intros a Ha Hp.
    destruct (guessTopicFromSlug id) as [t|] eqn:Hg.
    + destruct (fallback_article today id t Hp Hg)
        as (a' & base & body & Ha' & _ & _ & ->).
      rewrite Ha in Ha'. injection Ha' as ->. cbn.
      split; [reflexivity|]. split; [reflexivity|].
      now apply guessTopicFromSlug_Some.
    + unfold getArticleDetailById in Ha. now rewrite Hp, Hg in Ha.
Qed.

(** X5. For every topic and every current day, the slug [<topic>-primer]
    resolves to an article with that slug as id, the title
    [<Label> Primer], the topic itself, today's ISO day, and a body of six
    paragraphs: the fixed introduction, three paragraphs of the topic's
    pool, a scripture line and a practice of the topic, in that order. *)
Theorem primer_slug_detail (today : Date) (t : TopicKey) :
  exists a (core : list string) (scr : Scripture) (practice : string),
    getArticleDetailById today (key_string t +:+ "-primer") = Some a
    /\ ArticleEngine.id a = key_string t +:+ "-primer"
    /\ title a = humanLabel t +:+ " Primer"
    /\ topic a = t
    /\ dateISO a = toDateISO today
    /\ body a
       = ([ "A short primer on " +:+ humanLabel t
              +:+ ": key ideas, a scripture to ponder, and one simple practice to begin." ]
          ++ core
          ++ [ "Scripture to ponder: “" +:+ s_text scr +:+ "” (" +:+ s_ref scr +:+ ").";
               practice ])%list
    /\ length (body a) = 6%nat
    /\ (forall p, p ∈ core -> p ∈ paragraphsByTopic t)
    /\ scr ∈ scriptureByTopic t
    /\ practice ∈ practiceByTopic t.
Proof.
  assert (Hp : parseArticleId (key_string t +:+ "-primer") = None)
    by (destruct t; vm_compute; reflexivity).
  assert (Hg : guessTopicFromSlug (key_string t +:+ "-primer") = Some t)
    by (destruct t; vm_compute; reflexivity).
  assert (Hprimer : isPrimer (key_string t +:+ "-primer") = true)
    by (destruct t; vm_compute; reflexivity).
  destruct (fallback_article today _ t Hp Hg)
    as (a & base & body & Ha & _ & Hb & Heq).
  rewrite Hprimer in Hb, Heq. subst a.
  destruct (buildPrimerBody_shape t
              (hash ((key_string t +:+ "-primer") +:+ "|" +:+ toDateISO today)))
    as (core & scr & practice & Hshape & Hlen & Hcore & Hscr & Hpr).
  rewrite Hb in Hshape. injection Hshape as ->.
  eexists _, core, scr, practice. split; [exact Ha|].
  cbn [ArticleEngine.id title topic dateISO body].
  repeat split; try assumption; try reflexivity.
  cbn [app length]. rewrite length_app. cbn [length]. lia.
Qed.

End Fallback.

(** ** The CSV export read back *)

Section CsvLines.
Import RemoteImages ImageryEditor.

Lemma append_cons (c : ascii) (s r : string) :
  String c s +:+ r = String c (s +:+ r).
Proof. reflexivity. Qed.

Lemma append_nil_l (s : string) : "" +:+ s = s.
Proof. reflexivity. Qed.

Lemma append_nil_r (s : string) : s +:+ "" = s.
Proof.
  induction s as [|c s IH]; [reflexivity|]. now rewrite append_cons, IH.
Qed.

Lemma append_assoc (a b c : string) : (a +:+ b) +:+ c = a +:+ b +:+ c.
Proof.
  induction a as [|x a IH]; [reflexivity|]. now rewrite !append_cons, IH.
Qed.

Lemma replace_quotes_fuel (fuel : nat) (v : string) :
  (String.length v < fuel)%nat ->
  replace_all_fuel fuel dquote (dquote +:+ dquote) v = doubled v.
Proof.
  revert fuel. induction v as [|c v IH]; intros [|fuel] H;
    try (cbn in H; lia); [reflexivity|].
  cbn [replace_all_fuel doubled starts_with dquote].
  rewrite (Ascii.eqb_sym dquote_char c), andb_true_r.
  destruct (Ascii.eqb c dquote_char) eqn:E.
  - apply Ascii.eqb_eq in E. subst c. cbn [String.length str_drop].
    rewrite IH by (cbn in H; lia). reflexivity.
  - rewrite IH by (cbn in H; lia). reflexivity.
Qed.

Lemma csvEscape_doubled (v : string) :
  csvEscape v
  = if any_char is_special v then dquote +:+ doubled v +:+ dquote else doubled v.
Proof.
  unfold csvEscape, replace_all. rewrite replace_quotes_fuel by lia. reflexivity.
Qed.

Lemma is_special_split (c : ascii) :
  is_special c = false ->
  Ascii.eqb c dquote_char = false /\ Ascii.eqb c comma = false
  /\ Ascii.eqb c LF = false /\ Ascii.eqb c CR = false.
Proof.
  unfold is_special. intros H.
  repeat (apply orb_false_elim in H as [H ?]). auto.
Qed.

(** A text without special characters is written as it is and read as one
    run of characters. *)
Lemma csv_fields_bare (v rest cur : string) (out : list string) :
  any_char is_special v = false ->
  doubled v = v
  /\ csv_fields (v +:+ rest) false cur out = csv_fields rest false (cur +:+ v) out.
Proof.
  revert cur. induction v as [|c v IH]; intros cur H.
  - split; [reflexivity|]. now rewrite append_nil_r.
  - cbn [any_char] in H. apply orb_false_elim in H as [Hc Hv].
    destruct (is_special_split c Hc) as (Hq & Hcomma & _).
    destruct (IH (cur +:+ String c "") Hv) as [Hd Hf].
    split.
    + cbn [doubled]. now rewrite Hq, Hd.
    + rewrite append_cons. cbn [csv_fields]. rewrite Hcomma, Hq, Hf.
      now rewrite append_assoc.
Qed.

(** Inside quotes the doubled text is read back up to the closing quote. *)
Lemma csv_fields_quoted (v rest cur : string) (out : list string) :
  starts_with dquote rest = false ->
  csv_fields (doubled v +:+ dquote +:+ rest) true cur out
  = csv_fields rest false (cur +:+ v) out.
Proof.
  intros Hrest. revert cur. induction v as [|c v IH]; intros cur.
  - rewrite append_nil_r. cbn [doubled]. unfold dquote at 1.
    rewrite append_nil_l, append_cons, append_nil_l. cbn [csv_fields].
    rewrite Ascii.eqb_refl. destruct rest as [|n rest']; [reflexivity|].
    cbn [starts_with dquote] in Hrest.
    rewrite (Ascii.eqb_sym n dquote_char).
    destruct (Ascii.eqb dquote_char n); [discriminate Hrest|reflexivity].
  - cbn [doubled]. destruct (Ascii.eqb c dquote_char) eqn:E.
    + apply Ascii.eqb_eq in E. subst c.
      rewrite !append_cons. cbn [csv_fields]. rewrite Ascii.eqb_refl.
      rewrite IH. now rewrite append_assoc.
    + rewrite append_cons. cbn [csv_fields]. rewrite E, IH.
      now rewrite append_assoc.
Qed.

Lemma csv_fields_escaped (v rest cur : string) (out : list string) :
  starts_with dquote rest = false ->
  csv_fields (csvEscape v +:+ rest) false cur out
  = csv_fields rest false (cur +:+ v) out.
Proof.
  intros Hrest. rewrite csvEscape_doubled.
  destruct (any_char is_special v) eqn:E.
  - rewrite !append_assoc. unfold dquote at 1.
    rewrite append_cons, append_nil_l. cbn [csv_fields].
    change (Ascii.eqb dquote_char comma) with false.
    rewrite Ascii.eqb_refl. now apply csv_fields_quoted.
  - destruct (csv_fields_bare v rest cur out E) as [-> H]. exact H.
Qed.

Lemma csv_fields_joined (f : string) (fs : list string) (out : list string) :
  csv_fields (String.concat "," (map csvEscape (f :: fs))) false "" out
  = (out ++ f :: fs)%list.
Proof.
  revert f out. induction fs as [|g gs IH]; intros f out.
  - cbn [map String.concat]. rewrite <- (append_nil_r (csvEscape f)).
    rewrite csv_fields_escaped by reflexivity. reflexivity.
  - change (String.concat "," (map csvEscape (f :: g :: gs)))
      with (csvEscape f +:+ "," +:+ String.concat "," (map csvEscape (g :: gs))).
    rewrite csv_fields_escaped by reflexivity.
    rewrite append_cons, append_nil_l. cbn [csv_fields].
    change (Ascii.eqb "," comma) with true.
    cbn iota. rewrite IH, <- app_assoc. reflexivity.
Qed.

Lemma parseCsvLine_joined (f : string) (fs : list string) :
  parseCsvLine (String.concat "," (map csvEscape (f :: fs))) = map trim (f :: fs).
Proof. unfold parseCsvLine. now rewrite csv_fields_joined. Qed.

(** X6. A line made of any fields - commas, double quotes, line breaks and
    all - escaped by [csvEscape] and joined by commas is read by
    [parseCsvLine] as exactly those fields, each trimmed. *)
Theorem parseCsvLine_reads_escaped_fields (f : string) (fs : list string) :
  parseCsvLine (String.concat "," (map csvEscape (f :: fs)))
  = map trim (f :: fs).
Proof. apply parseCsvLine_joined. Qed.

End CsvLines.

Section CsvFile.
Import RemoteImages ImageryEditor.

Lemma any_char_app (p : ascii -> bool) (a b : string) :
  any_char p (a +:+ b) = any_char p a || any_char p b.
Proof.
  induction a as [|c a IH]; [reflexivity|].
  rewrite append_cons. cbn [any_char]. now rewrite IH, orb_assoc.
Qed.

Lemma any_break_doubled (v : string) :
  any_char is_line_break (doubled v) = any_char is_line_break v.
Proof.
  induction v as [|c v IH]; [reflexivity|]. cbn [doubled].
  destruct (Ascii.eqb c dquote_char) eqn:E; cbn [any_char]; rewrite IH;
    [|reflexivity].
  apply Ascii.eqb_eq in E. subst c. reflexivity.
Qed.

Lemma any_break_csvEscape (v : string) :
  any_char is_line_break (csvEscape v) = any_char is_line_break v.
Proof.
  rewrite csvEscape_doubled. destruct (any_char is_special v).
  - rewrite !any_char_app, any_break_doubled. cbn. now rewrite orb_false_r.
  - apply any_break_doubled.
Qed.

Lemma split_lines_single (l : string) :
  any_char is_line_break l = false -> split_lines l = [l].
Proof.
  induction l as [|c l IH]; [reflexivity|]. cbn [any_char]. intros H.
  apply orb_false_elim in H as [Hc Hl]. unfold is_line_break in Hc.
  apply orb_false_elim in Hc as [Hlf Hcr].
  cbn [split_lines]. now rewrite Hlf, Hcr, (IH Hl).
Qed.

Lemma split_lines_cons (l rest : string) :
  any_char is_line_break l = false ->
  split_lines (l +:+ String LF rest) = l :: split_lines rest.
Proof.
  induction l as [|c l IH]; [reflexivity|]. cbn [any_char]. intros H.
  apply orb_false_elim in H as [Hc Hl]. unfold is_line_break in Hc.
  apply orb_false_elim in Hc as [Hlf Hcr].
  rewrite append_cons. cbn [split_lines]. now rewrite Hlf, Hcr, (IH Hl).
Qed.

Lemma split_lines_joined (l : string) (ls : list string) :
  Forall (fun x => any_char is_line_break x = false) (l :: ls) ->
  split_lines (String.concat (String LF "") (l :: ls)) = l :: ls.
Proof.
  revert l. induction ls as [|m ms IH]; intros l H.
  - apply split_lines_single. now inversion H.
  - inversion H as [|? ? Hl Hrest]; subst.
    change (String.concat (String LF "") (l :: m :: ms))
      with (l +:+ String LF "" +:+ String.concat (String LF "") (m :: ms)).
    rewrite append_cons, append_nil_l, (split_lines_cons _ _ Hl), (IH m Hrest).
    reflexivity.
Qed.

(** *** Lines that [trim] leaves alone *)

Lemma trim_end_length (s : string) : (String.length (trim_end s) <= String.length s)%nat.
Proof.
  induction s as [|c s IH]; [reflexivity|]. rewrite trim_end_cons.
  destruct (trim_end s); [destruct (is_white c)|]; cbn in *; lia.
Qed.

Lemma trim_start_length (s : string) :
  (String.length (trim_start s) <= String.length s)%nat.
Proof.
  induction s as [|c s IH]; [reflexivity|]. cbn [trim_start].
  destruct (is_white c); cbn in *; lia.
Qed.

(** A text equal to its trim starts and ends with a character that is not
    white space. *)
Lemma trimmed_ends (s : string) :
  trim s = s -> trim_start s = s /\ trim_end s = s.
Proof.
  intros H. assert (Hs : trim_start s = s).
  { destruct s as [|c s]; [reflexivity|]. cbn [trim_start].
    destruct (is_white c) eqn:W; [|reflexivity].
    exfalso. unfold trim in H. cbn [trim_start] in H. rewrite W in H.
    pose proof (trim_end_length (trim_start s)) as H1.
    pose proof (trim_start_length s) as H2.
    rewrite H in H1. cbn in H1. lia. }
  split; [exact Hs|]. unfold trim in H. now rewrite Hs in H.
Qed.

Lemma trim_end_app (a b : string) :
  nonempty b = true -> trim_end b = b -> trim_end (a +:+ b) = a +:+ b.
Proof.
  intros Hn Hb. induction a as [|c a IH]; [exact Hb|].
  rewrite append_cons, trim_end_cons, IH.
  destruct (a +:+ b) eqn:E; [|reflexivity].
  destruct a, b; discriminate.
Qed.

Lemma nonempty_app_r (a b : string) :
  nonempty b = true -> nonempty (a +:+ b) = true.
Proof. destruct a; [now rewrite append_nil_l|reflexivity]. Qed.

Lemma trim_end_csvEscape (v : string) :
  nonempty v = true -> trim_end v = v ->
  nonempty (csvEscape v) = true /\ trim_end (csvEscape v) = csvEscape v.
Proof.
  intros Hn Hv. rewrite csvEscape_doubled.
  destruct (any_char is_special v) eqn:E.
  - split; [reflexivity|].
    apply trim_end_app; [now apply nonempty_app_r|].
    now apply trim_end_app.
  - destruct (csv_fields_bare v "" "" [] E) as [-> _]. now split.
Qed.

(** A row of plain fields is a line without line break that [trim] leaves
    alone and [parseCsvLine] reads back. *)
Lemma csv_row_line (type : string) (r : MappingRow) :
  plain_field type = true -> plain_row r = true ->
  any_char is_line_break (csv_row type r) = false
  /\ trim (csv_row type r) = csv_row type r
  /\ nonempty (csv_row type r) = true
  /\ parseCsvLine (csv_row type r) = [type; r.1; r.2].
Proof.
  destruct r as [k u]. unfold plain_row, plain_field. cbn [fst snd].
  intros Ht Hr. apply andb_prop in Hr as [Hr _].
  apply andb_prop in Hr as [Hk Hu].
  apply andb_prop in Ht as [Ht Ht3], Hk as [Hk Hk3], Hu as [Hu Hu3].
  apply andb_prop in Ht as [Ht1 Ht2], Hk as [Hk1 Hk2], Hu as [Hu1 Hu2].
  apply String.eqb_eq in Ht2, Hk2, Hu2.
  apply negb_true_iff in Ht3, Hk3, Hu3.
  destruct (trimmed_ends _ Ht2) as [Hts Hte].
  destruct (trimmed_ends _ Hu2) as [_ Hue].
  destruct (trim_end_csvEscape u Hu1 Hue) as [Hne Hee].
  unfold csv_row. cbn [fst snd].
  change (String.concat "," [csvEscape type; csvEscape k; csvEscape u])
    with (csvEscape type +:+ "," +:+ csvEscape k +:+ "," +:+ csvEscape u).
  assert (Hfirst : exists c rest, csvEscape type = String c rest
                                  /\ is_white c = false).
  { rewrite csvEscape_doubled. destruct (any_char is_special type).
    - now exists dquote_char, (doubled type +:+ dquote).
    - destruct type as [|c rest]; [discriminate Ht1|].
      cbn [trim_start] in Hts. destruct (is_white c) eqn:W.
      + exfalso. pose proof (trim_start_length rest) as HL.
        rewrite Hts in HL. cbn in HL. lia.
      + cbn [doubled]. destruct (Ascii.eqb c dquote_char); eauto. }
  destruct Hfirst as (c & rest & Hc & Hw).
  split; [|split; [|split]].
  - rewrite !any_char_app, !any_break_csvEscape, Ht3, Hk3, Hu3. reflexivity.
  - unfold trim. rewrite Hc, append_cons. cbn [trim_start]. rewrite Hw.
    rewrite <- append_cons, <- Hc.
    rewrite <- !append_assoc. now apply trim_end_app.
  - now rewrite Hc.
  - change (csvEscape type +:+ "," +:+ csvEscape k +:+ "," +:+ csvEscape u)
      with (String.concat "," (map csvEscape [type; k; u])).
    rewrite parseCsvLine_joined. cbn [map]. now rewrite Ht2, Hk2, Hu2.
Qed.

End CsvFile.

Section CsvRoundTrip.
Import RemoteImages ImageryEditor.

Lemma assign_insert {A : Type} (obj : gmap string A) (k : string) (v : A) :
  k <> "__proto__" -> assign obj k v = <[k := v]> obj.
Proof.
  intros H. unfold assign. destruct (obj !! k); [reflexivity|].
  apply String.eqb_neq in H. now rewrite H.
Qed.

Lemma plain_row_key (r : MappingRow) : plain_row r = true -> r.1 <> "__proto__".
Proof.
  unfold plain_row. intros [_ H]%andb_prop.
  apply negb_true_iff in H. now apply String.eqb_neq.
Qed.

(** The entry read back from the line written for a plain row. *)
Lemma plain_row_entry (type : string) (r : MappingRow) :
  plain_field type = true -> toLowerCase type = type ->
  plain_row r = true ->
  row_entry {| typeIdx := 0; keyIdx := 1; urlIdx := 2 |} type (csv_row type r)
  = Some (r.1, r.2).
Proof.
  intros Ht Hlow Hr.
  destruct (csv_row_line type r Ht Hr) as (_ & _ & _ & Hparse).
  unfold row_entry, row_fields. rewrite Hparse. cbn [lookup list_lookup typeIdx keyIdx urlIdx].
  unfold plain_row, plain_field in Hr.
  apply andb_prop in Hr as [Hr _]. apply andb_prop in Hr as [Hk Hu].
  apply andb_prop in Hk as [Hk _], Hu as [Hu _].
  apply andb_prop in Hk as [Hk _], Hu as [Hu _].
  unfold plain_field in Ht. apply andb_prop in Ht as [Ht _].
  apply andb_prop in Ht as [Ht _].
  rewrite Ht, Hk, Hu, Hlow, String.eqb_refl. now destruct r.
Qed.

Lemma fold_topic_rows (cols : Columns) (ts : list MappingRow) (acc : RemoteMaps) :
  cols = {| typeIdx := 0; keyIdx := 1; urlIdx := 2 |} ->
  Forall (fun r => plain_row r = true) ts ->
  fold_left (add_row cols) (map (csv_row "topic") ts) acc
  = {| topics := fold_left write_row ts (topics acc); articles := articles acc |}.
Proof.
  intros -> H. revert acc. induction H as [|r ts Hr _ IH]; intros acc.
  - now destruct acc.
  - cbn [map fold_left]. rewrite IH.
    rewrite (add_row_topic _ acc _ r.1 r.2)
      by apply (plain_row_entry "topic" r eq_refl eq_refl Hr).
    cbn [topics articles]. unfold write_row.
    now rewrite (assign_insert _ _ _ (plain_row_key r Hr)).
Qed.

Lemma fold_article_rows (cols : Columns) (rs : list MappingRow) (acc : RemoteMaps) :
  cols = {| typeIdx := 0; keyIdx := 1; urlIdx := 2 |} ->
  Forall (fun r => plain_row r = true) rs ->
  fold_left (add_row cols) (map (csv_row "article") rs) acc
  = {| topics := topics acc; articles := fold_left write_row rs (articles acc) |}.
Proof.
  intros -> H. revert acc. induction H as [|r rs Hr _ IH]; intros acc.
  - now destruct acc.
  - cbn [map fold_left]. rewrite IH.
    rewrite (add_row_article _ acc _ r.1 r.2)
      by apply (plain_row_entry "article" r eq_refl eq_refl Hr).
    cbn [topics articles]. unfold write_row.
    now rewrite (assign_insert _ _ _ (plain_row_key r Hr)).
Qed.

Lemma fold_write_rows (l : list MappingRow) :
  NoDup l.*1 -> fold_left write_row l ∅ = list_to_map l.
Proof.
  induction l as [|[k u] l IH] using rev_ind; [reflexivity|].
  rewrite fmap_app, NoDup_app. intros (Hnd & Hk & _).
  rewrite fold_left_app. cbn [fold_left]. unfold write_row at 1. cbn [fst snd].
  rewrite (IH Hnd). symmetry. apply list_to_map_snoc.
  intros Hin. apply (Hk k Hin). cbn. apply list_elem_of_here.
Qed.

Lemma csv_lines_of_export (ts rs : list MappingRow) :
  Forall (fun r => plain_row r = true) ts ->
  Forall (fun r => plain_row r = true) rs ->
  csv_lines (toCSV_entries ts rs)
  = ("type,key,url" :: map (csv_row "topic") ts ++ map (csv_row "article") rs)%list.
Proof.
  intros Hts Hrs. unfold csv_lines, toCSV_entries, strip_bom.
  set (rows := (map (csv_row "topic") ts ++ map (csv_row "article") rs)%list).
  assert (Hrows : Forall (fun l => any_char is_line_break l = false
                                   /\ trim l = l /\ nonempty l = true) rows).
  { subst rows. apply Forall_app. split; apply Forall_map;
      (eapply Forall_impl; [eassumption|]); intros r Hr; cbn beta.
    - now destruct (csv_row_line "topic" r eq_refl Hr) as (? & ? & ? & _).
    - now destruct (csv_row_line "article" r eq_refl Hr) as (? & ? & ? & _). }
  change (["type,key,url"] ++ rows)%list with ("type,key,url" :: rows).
  rewrite split_lines_joined.
  2:{ constructor; [reflexivity|]. eapply Forall_impl; [exact Hrows|].
      now intros l (? & _). }
  cbn [map]. change (trim "type,key,url") with "type,key,url".
  rewrite filter_cons_True by reflexivity. f_equal.
  clear -Hrows. induction Hrows as [|l ls (_ & Ht & Hn) _ IH]; [reflexivity|].
  cbn [map]. rewrite Ht, filter_cons_True by exact Hn. now rewrite IH.
Qed.

(** The export of any enumeration of two tables, read back. *)
Lemma parseCSV_of_export (ts rs : list MappingRow) :
  Forall (fun r => plain_row r = true) ts ->
  Forall (fun r => plain_row r = true) rs ->
  NoDup ts.*1 -> NoDup rs.*1 ->
  parseCSV (toCSV_entries ts rs)
  = {| topics := list_to_map ts; articles := list_to_map rs |}.
Proof.
  intros Hts Hrs Nts Nrs. unfold parseCSV.
  rewrite (csv_lines_of_export ts rs Hts Hrs).
  change (header_columns (map toLowerCase (parseCsvLine "type,key,url")))
    with (Some {| typeIdx := 0; keyIdx := 1; urlIdx := 2 |}).
  cbv iota. rewrite fold_left_app.
  rewrite (fold_topic_rows _ ts _ eq_refl Hts).
  rewrite (fold_article_rows _ rs _ eq_refl Hrs).
  cbn [topics articles empty_maps].
  now rewrite (fold_write_rows ts Nts), (fold_write_rows rs Nrs).
Qed.

End CsvRoundTrip.

Section CsvExport.
Import RemoteImages ImageryEditor.

Lemma plain_entries (table : gmap string string) (l : list MappingRow) :
  map_Forall (fun k u => plain_row (k, u) = true) table ->
  l ≡ₚ entries table ->
  Forall (fun r => plain_row r = true) l /\ NoDup l.*1 /\ list_to_map l = table.
Proof.
  intros H Hl. unfold entries in Hl. split; [|split].
  - rewrite Hl. apply map_Forall_to_list in H.
    eapply Forall_impl; [exact H|]. now intros [k u].
  - rewrite Hl. apply NoDup_fst_map_to_list.
  - rewrite <- (list_to_map_to_list table). apply list_to_map_proper; [|exact Hl].
    rewrite Hl. apply NoDup_fst_map_to_list.
Qed.

(** X7. A mapping whose keys and urls are plain texts (not empty, no white
    space at either end, no line break; commas and double quotes allowed)
    and that has no key [__proto__] is read back by [parseCSV] from its
    [toCSV] export, in whatever order the entries of the two tables are
    written. *)
Theorem csv_export_round_trip (maps : RemoteMaps) :
  map_Forall (fun k u => plain_row (k, u) = true) (topics maps) ->
  map_Forall (fun k u => plain_row (k, u) = true) (articles maps) ->
  parseCSV (toCSV maps) = maps
  /\ forall ts rs : list MappingRow,
       ts ≡ₚ entries (topics maps) -> rs ≡ₚ entries (articles maps) ->
       parseCSV (toCSV_entries ts rs) = maps.
Proof.
  intros Ht Ha.
  assert (Hany : forall ts rs : list MappingRow,
             ts ≡ₚ entries (topics maps) -> rs ≡ₚ entries (articles maps) ->
             parseCSV (toCSV_entries ts rs) = maps).
  { intros ts rs Hts Hrs.
    destruct (plain_entries _ ts Ht Hts) as (Pt & Nt & Lt).
    destruct (plain_entries _ rs Ha Hrs) as (Pr & Nr & Lr).
    rewrite (parseCSV_of_export ts rs Pt Pr Nt Nr), Lt, Lr. now destruct maps. }
  split; [|exact Hany]. now apply Hany.
Qed.

Lemma csv_export_round_trip_witness :
  parseCSV (toCSV {| topics := {[ "ethics" := "https://x/y.jpg" ]};
                     articles := {[ "a,1" := "data:image/png;base64,AA" ]} |})
  = {| topics := {[ "ethics" := "https://x/y.jpg" ]};
       articles := {[ "a,1" := "data:image/png;base64,AA" ]} |}.
Proof.
  refine (proj1 (csv_export_round_trip
                   {| topics := {[ "ethics" := "https://x/y.jpg" ]};
                      articles := {[ "a,1" := "data:image/png;base64,AA" ]} |}
                   _ _)).
  - cbn [topics]. intros k u [<- <-]%lookup_singleton_Some. reflexivity.
  - cbn [articles]. intros k u [<- <-]%lookup_singleton_Some. reflexivity.
Defined.

Lemma fromRows_plain (rows : list MappingRow) :
  Forall (fun r => nonempty r.1 && nonempty r.2 = true -> plain_row r = true) rows ->
  map_Forall (fun k u => plain_row (k, u) = true) (fromRows rows).
Proof.
  intros H. unfold fromRows.
  assert (Hf : Forall (fun r => plain_row r = true)
                 (filter (fun r : MappingRow => nonempty r.1 && nonempty r.2 = true) rows)).
  { apply Forall_forall. intros r Hr. apply list_elem_of_filter in Hr as [Hc Hin].
    rewrite Forall_forall in H. now apply H. }
  revert Hf. generalize (filter (fun r : MappingRow => nonempty r.1 && nonempty r.2 = true) rows).
  intros l Hl.
  assert (Hgen : forall acc : gmap string string,
             map_Forall (fun k u => plain_row (k, u) = true) acc ->
             map_Forall (fun k u => plain_row (k, u) = true) (fold_left write_row l acc)).
  { induction Hl as [|[k u] l Hr _ IH]; intros acc Hacc; [exact Hacc|].
    cbn [fold_left]. apply IH. unfold write_row. cbn [fst snd].
    now apply map_Forall_insert_2. }
  apply Hgen, map_Forall_empty.
Qed.

(** X8. The rows of the imagery editor, turned into tables by [rowsToMaps]
    and exported by [toCSV], read back as those tables, provided every row
    that has a key and a url has plain ones and a key other than
    [__proto__]; rows missing either are left out of the tables. *)
Theorem editor_export_round_trip (topicRows articleRows : list MappingRow) :
  Forall (fun r => nonempty r.1 && nonempty r.2 = true -> plain_row r = true)
         topicRows ->
  Forall (fun r => nonempty r.1 && nonempty r.2 = true -> plain_row r = true)
         articleRows ->
  parseCSV (toCSV (rowsToMaps topicRows articleRows))
  = rowsToMaps topicRows articleRows.
Proof.
  intros Ht Ha.
  pose proof (parseCSV_of_export
                (entries (fromRows topicRows)) (entries (fromRows articleRows))) as H.
  destruct (plain_entries _ _ (fromRows_plain _ Ht) (reflexivity _)) as (Pt & Nt & Lt).
  destruct (plain_entries _ _ (fromRows_plain _ Ha) (reflexivity _)) as (Pr & Nr & Lr).
  unfold toCSV, rowsToMaps. cbn [topics articles].
  now rewrite (H Pt Pr Nt Nr), Lt, Lr.
Qed.

Lemma editor_export_round_trip_witness :
  parseCSV (toCSV (rowsToMaps [("ethics", "https://old"); ("", "https://nokey");
                               ("ethics", "https://x/y.jpg")]
                              [("a-1", "")]))
  = {| topics := {[ "ethics" := "https://x/y.jpg" ]}; articles := ∅ |}.
Proof.
  apply (editor_export_round_trip
           [("ethics", "https://old"); ("", "https://nokey");
            ("ethics", "https://x/y.jpg")]
           [("a-1", "")]).
  - repeat constructor; cbn; intros; try reflexivity; discriminate.
  - repeat constructor; cbn; intros; try reflexivity; discriminate.
Defined.

End CsvExport.

(** ** The remote tables and the local overlay *)

Section RemoteTables.
Import RemoteImages RemoteStore.
Context {codec : JSON StoredMaps}.

(** X9. What the editor sees in [getEffectiveMaps] is what the resolvers
    answer: for every key the effective topic (article) table holds exactly
    what [getRemoteTopicImage] ([getRemoteArticleImage]) returns, the local
    overlay entry when there is one and the remote entry otherwise. *)
Theorem effective_maps_agree_with_lookups (st : State) (k : string) :
  topics (getEffectiveMaps st) !! k = getRemoteTopicImage st k
  /\ articles (getEffectiveMaps st) !! k = getRemoteArticleImage st k
  /\ (forall v, localTopicMap st !! k = Some v -> getRemoteTopicImage st k = Some v)
  /\ (localTopicMap st !! k = None ->
      getRemoteTopicImage st k = remoteTopicMap st !! k).
Proof.
  unfold getEffectiveMaps, getRemoteTopicImage, getRemoteArticleImage.
  cbn [topics articles]. rewrite !lookup_union.
  repeat split.
  - now destruct (localTopicMap st !! k), (remoteTopicMap st !! k).
  - now destruct (localArticleMap st !! k), (remoteArticleMap st !! k).
  - now intros v ->.
  - now intros ->.
Qed.

(** X10. An overlay saved by [persistLocalMaps] comes back after a reload:
    when the storage takes the write and the codec reads back what it
    wrote, [loadLocalPersist] run on any in-memory tables over the storage
    left by the save sets the local tables to the saved ones and leaves the
    remote tables alone; the save itself dispatches one change event. *)
Theorem overlay_survives_reload (w : World) (next : RemoteMaps) (fresh : State) :
  let payload := {| stored_topics := Some (topics next);
                    stored_articles := Some (articles next) |} in
  let saved := persistLocalMaps w next in
  let reloaded :=
    loadLocalPersist (with_remote {| ImageOverrides.storage := ImageOverrides.storage saved;
                                     ImageOverrides.dispatched := [];
                                     ImageOverrides.remote := fresh |} fresh) in
  readable (ImageOverrides.storage w) = true ->
  writable (ImageOverrides.storage w) = true ->
  nonempty (stringify payload) = true -> parse (stringify payload) = Some payload ->
  getLocalMaps (ImageOverrides.remote saved) = next
  /\ getLocalMaps (ImageOverrides.remote reloaded) = next
  /\ getRemoteMaps (ImageOverrides.remote reloaded) = getRemoteMaps fresh
  /\ ImageOverrides.dispatched saved
     = (ImageOverrides.dispatched w ++ [REMOTE_EVENT])%list.
Proof.
  intros payload saved reloaded Hr Hw Hne Hp.
  split; [now destruct next|]. split; [|split; [reflexivity|reflexivity]].
  subst reloaded saved. unfold loadLocalPersist, persistLocalMaps, notifyChange,
    saveLocalPersist, with_remote, setItem, getItem, tables_of, getLocalMaps.
  cbn [ImageOverrides.storage ImageOverrides.remote localTopicMap localArticleMap
       remoteTopicMap remoteArticleMap].
  rewrite Hw. cbn [readable items]. rewrite Hr, lookup_insert_eq.
  fold payload. rewrite Hne, Hp. cbn. now destruct next.
Qed.

(** X11. [clearLocalMaps] discards the overlay for good: afterwards the
    resolvers answer with the remote entries alone, the remote tables and
    every other stored item are as before, one change event is dispatched,
    and a reload finds no overlay to restore. *)
Theorem clear_overlay_reveals_remote (w : World) (k : string) :
  let cleared := clearLocalMaps w in
  getRemoteTopicImage (ImageOverrides.remote cleared) k
  = remoteTopicMap (ImageOverrides.remote w) !! k
  /\ getRemoteArticleImage (ImageOverrides.remote cleared) k
     = remoteArticleMap (ImageOverrides.remote w) !! k
  /\ getEffectiveMaps (ImageOverrides.remote cleared)
     = getRemoteMaps (ImageOverrides.remote w)
  /\ getLocalMaps (ImageOverrides.remote (loadLocalPersist cleared)) = empty_maps
  /\ (k <> LOCAL_STORAGE_KEY ->
      items (ImageOverrides.storage cleared) !! k
      = items (ImageOverrides.storage w) !! k)
  /\ ImageOverrides.dispatched cleared
     = (ImageOverrides.dispatched w ++ [REMOTE_EVENT])%list.
Proof.
  cbn zeta. unfold clearLocalMaps, notifyChange, getRemoteTopicImage,
    getRemoteArticleImage, getEffectiveMaps, getRemoteMaps, getLocalMaps,
    loadLocalPersist, with_remote, removeItem, getItem.
  cbn [ImageOverrides.storage ImageOverrides.remote ImageOverrides.dispatched
       localTopicMap localArticleMap remoteTopicMap remoteArticleMap].
  rewrite !lookup_empty, !(left_id_L ∅ (∪)). cbn [nullish].
  repeat split.
  - destruct (readable (ImageOverrides.storage w)) eqn:Hr; cbn [readable items].
    + rewrite lookup_delete_eq. reflexivity.
    + rewrite Hr. reflexivity.
  - intros Hk. destruct (readable (ImageOverrides.storage w)); cbn [items].
    + now rewrite lookup_delete_ne.
    + reflexivity.
Qed.

(** X12. A refresh never touches the overlay: whatever the configuration
    and the outcome of the request, [fetchAndUpdate] leaves the local
    tables and the storage as they were, so a key of the overlay keeps
    resolving to its overlay value; when loading is disabled, the url is
    empty or the request fails, nothing changes at all and no event is
    dispatched. *)
Theorem fetch_keeps_overlay (cfg : RemoteImagesConfig) (w : World)
    (response : option string) (k : string) :
  let w' := fetchAndUpdate cfg w response in
  getLocalMaps (ImageOverrides.remote w') = getLocalMaps (ImageOverrides.remote w)
  /\ ImageOverrides.storage w' = ImageOverrides.storage w
  /\ (forall v, localTopicMap (ImageOverrides.remote w) !! k = Some v ->
      getRemoteTopicImage (ImageOverrides.remote w') k = Some v)
  /\ (forall v, localArticleMap (ImageOverrides.remote w) !! k = Some v ->
      getRemoteArticleImage (ImageOverrides.remote w') k = Some v)
  /\ (enabled cfg = false \/ url cfg = "" \/ response = None -> w' = w).
Proof.
  cbn zeta. unfold fetchAndUpdate.
  destruct (enabled cfg); cbn [negb orb].
  2:{ repeat split; unfold getRemoteTopicImage, getRemoteArticleImage;
      now intros v ->. }
  destruct (url cfg) as [|c u] eqn:Hu; cbn [nonempty negb].
  { repeat split; unfold getRemoteTopicImage, getRemoteArticleImage;
    now intros v ->. }
  destruct response as [text|].
  2:{ repeat split; unfold getRemoteTopicImage, getRemoteArticleImage;
      now intros v ->. }
  unfold notifyChange, with_remote, getLocalMaps, getRemoteTopicImage,
    getRemoteArticleImage.
  cbn [ImageOverrides.storage ImageOverrides.remote ImageOverrides.dispatched
       localTopicMap localArticleMap remoteTopicMap remoteArticleMap].
  repeat split; try (now intros v ->).
  intros [H|[H|H]]; discriminate H.
Qed.

(** X13. The editor's CSV export is a valid remote source: when loading
    is enabled from a CSV url and the response is the [toCSV] export of
    mappings with plain keys and urls and no key [__proto__],
    [fetchAndUpdate] installs exactly these mappings as the remote tables
    and dispatches one change event. *)
Theorem fetch_csv_export_installs_tables (cfg : RemoteImagesConfig) (w : World)
    (maps : RemoteMaps) :
  enabled cfg = true -> nonempty (url cfg) = true -> source cfg = csv ->
  map_Forall (fun k u => plain_row (k, u) = true) (topics maps) ->
  map_Forall (fun k u => plain_row (k, u) = true) (articles maps) ->
  let w' := fetchAndUpdate cfg w (Some (ImageryEditor.toCSV maps)) in
  getRemoteMaps (ImageOverrides.remote w') = maps
  /\ ImageOverrides.dispatched w'
     = (ImageOverrides.dispatched w ++ [REMOTE_EVENT])%list.
Proof.
  intros He Hu Hs Ht Ha. cbn zeta. unfold fetchAndUpdate.
  rewrite He, Hu, Hs. cbn [negb orb].
  destruct (plain_entries _ _ Ht (reflexivity _)) as (Pt & Nt & Lt).
  destruct (plain_entries _ _ Ha (reflexivity _)) as (Pr & Nr & Lr).
  unfold ImageryEditor.toCSV.
  rewrite (parseCSV_of_export _ _ Pt Pr Nt Nr), Lt, Lr.
  split; [|reflexivity]. now destruct maps.
Qed.

End RemoteTables.

Section RemoteTablesRuns.
Import RemoteImages RemoteStore Fixtures MoreFixtures.

Lemma overlay_survives_reload_witness :
  getLocalMaps
    (ImageOverrides.remote
       (loadLocalPersist
          (codec := constant_codec "saved"
                      {| stored_topics := Some (topics overlay_sample);
                         stored_articles := Some (articles overlay_sample) |})
          (with_remote
             {| ImageOverrides.storage :=
                  ImageOverrides.storage
                    (persistLocalMaps
                       (codec := constant_codec "saved"
                                   {| stored_topics := Some (topics overlay_sample);
                                      stored_articles := Some (articles overlay_sample) |})
                       fresh_world overlay_sample);
                ImageOverrides.dispatched := [];
                ImageOverrides.remote := busy_remote |} busy_remote)))
  = overlay_sample.
Proof.
  exact (proj1 (proj2 (overlay_survives_reload
                         (codec := constant_codec "saved"
                                     {| stored_topics := Some (topics overlay_sample);
                                        stored_articles := Some (articles overlay_sample) |})
                         fresh_world overlay_sample busy_remote
                         eq_refl eq_refl eq_refl eq_refl))).
Defined.

Lemma fetch_csv_export_installs_tables_witness :
  getRemoteMaps
    (ImageOverrides.remote
       (fetchAndUpdate (codec := constant_codec "saved"
                                   {| stored_topics := None; stored_articles := None |})
          {| enabled := true; source := csv; url := "https://sheet/export.csv" |}
          busy_world (Some (ImageryEditor.toCSV overlay_sample))))
  = overlay_sample.
Proof.
  refine (proj1 (fetch_csv_export_installs_tables
                   (codec := constant_codec "saved"
                               {| stored_topics := None; stored_articles := None |})
                   {| enabled := true; source := csv; url := "https://sheet/export.csv" |}
                   busy_world overlay_sample eq_refl eq_refl eq_refl _ _)).
  - unfold overlay_sample. cbn [topics].
    intros k u [<- <-]%lookup_singleton_Some. reflexivity.
  - unfold overlay_sample. cbn [articles]. apply map_Forall_empty.
Defined.

End RemoteTablesRuns.

(** ** Overrides kept in this browser *)

Section LocalOverrides.
Import ImageOverrides ArticleEngine Samples.
Context {codec : JSON StoredOverrides}.

Lemma return_if_nonempty (v : option string) (rest : string) :
  nonempty rest = true -> nonempty (return_if v rest) = true.
Proof.
  intros H. unfold return_if. destruct v as [s|]; [|exact H].
  destruct (nonempty s) eqn:E; [exact E|exact H].
Qed.

Lemma text_of_Some (src : option string) (v : string) :
  text_of src = Some v -> nonempty v = true /\ trim v = v.
Proof.
  unfold text_of. destruct src as [s|]; [|discriminate].
  destruct (nonempty s && nonempty (trim s)) eqn:E; [|discriminate].
  intros [= <-]. apply andb_prop in E as [_ E].
  split; [exact E|apply trim_idempotent].
Qed.

Lemma key_string_inj (t1 t2 : TopicKey) :
  key_string t1 = key_string t2 -> t1 = t2.
Proof. destruct t1, t2; intros H; try reflexivity; discriminate H. Qed.

Lemma getOverrides_saved (w : World) (next : ImageOverrides) :
  readable (storage w) = true -> writable (storage w) = true ->
  nonempty (stringify (stored_form next)) = true ->
  parse (stringify (stored_form next)) = Some (stored_form next) ->
  getOverrides (storage (saveOverrides w next)) = next.
Proof.
  intros Hr Hw Hne Hp. unfold saveOverrides, getOverrides, setItem, getItem.
  rewrite Hw. cbn [storage readable items]. rewrite Hr, lookup_insert_eq.
  fold (stored_form next). rewrite Hne, Hp. now destruct next.
Qed.

Lemma siteWide_saved (cfg : Config) (w : World) (next : ImageOverrides) :
  siteWide cfg (saveOverrides w next) = siteWide cfg w.
Proof.
  unfold siteWide, saveOverrides, getSiteWideImageLocal, setItem, getItem.
  cbn [storage].
  destruct (writable (storage w)); [|reflexivity].
  cbn [readable items]. now rewrite lookup_insert_ne.
Qed.

(** X14. A topic override set in the local context is what the local
    context then shows: with no site-wide override in force, a storage that
    takes the write and a codec that reads back what it wrote,
    [getTopicImage] answers the trimmed text for that topic, so does
    [getArticleImage] for each article of the topic that has no override of
    its own, the other topics resolve as before, and one change event is
    dispatched. *)
Theorem local_topic_override_round_trip (cfg : Config) (w : World)
    (topic : TopicKey) (src : option string) (v d : string) :
  let ov := getOverrides (storage w) in
  let next := {| ImageOverrides.topics := <[key_string topic := v]> (ImageOverrides.topics ov);
                 articles := articles ov |} in
  let w' := setTopicImage false w topic src in
  text_of src = Some v ->
  siteWide cfg w = None ->
  readable (storage w) = true -> writable (storage w) = true ->
  nonempty (stringify (stored_form next)) = true ->
  parse (stringify (stored_form next)) = Some (stored_form next) ->
  getTopicImage cfg false w' topic d = v
  /\ (forall id d', articles ov !! id = None ->
        getArticleImage cfg false w' id d' (Some topic) = v)
  /\ (forall t', t' <> topic ->
        getTopicImage cfg false w' t' d = getTopicImage cfg false w t' d)
  /\ dispatched w' = (dispatched w ++ [OV_EVENT])%list.
Proof.
  intros ov next w' Ht Hs Hr Hw Hne Hp.
  destruct (text_of_Some _ _ Ht) as [Hv _].
  assert (Hov : getOverrides (storage w') = next).
  { subst w'. unfold setTopicImage. rewrite Ht. now apply getOverrides_saved. }
  assert (Hsw : siteWide cfg w' = None).
  { subst w'. unfold setTopicImage. rewrite Ht, siteWide_saved. exact Hs. }
  assert (Hrem : remote w' = remote w).
  { subst w'. unfold setTopicImage. now rewrite Ht. }
  split; [|split; [|split]].
  - unfold getTopicImage. rewrite Hsw, Hov. cbn [return_if].
    apply return_if_truthy; [|exact Hv].
    subst next. cbn [ImageOverrides.topics]. apply lookup_insert_eq.
  - intros id d' Hid. unfold getArticleImage. rewrite Hsw, Hov.
    cbn [return_if]. subst next. cbn [ImageOverrides.topics articles].
    rewrite Hid. cbn [return_if].
    apply return_if_truthy; [apply lookup_insert_eq|exact Hv].
  - intros t' Hne'. unfold getTopicImage. rewrite Hsw, Hs, Hov, Hrem.
    subst next. cbn [ImageOverrides.topics].
    rewrite lookup_insert_ne; [reflexivity|].
    intros E. apply Hne'. symmetry. now apply key_string_inj.
  - subst w'. unfold setTopicImage. now rewrite Ht.
Qed.


(** X16. Clearing a topic override (with [null] or a blank text) makes
    the local context show for that topic what the public context shows:
    the remote mapping, then the code default, with the site-wide override
    first in both. *)
Theorem cleared_topic_override_shows_public_image (cfg : Config) (w : World)
    (topic : TopicKey) (src : option string) (d : string) :
  let ov := getOverrides (storage w) in
  let next := {| ImageOverrides.topics := delete (key_string topic) (ImageOverrides.topics ov);
                 articles := articles ov |} in
  text_of src = None ->
  readable (storage w) = true -> writable (storage w) = true ->
  nonempty (stringify (stored_form next)) = true ->
  parse (stringify (stored_form next)) = Some (stored_form next) ->
  getTopicImage cfg false (setTopicImage false w topic src) topic d
  = getTopicImage cfg true w topic d.
Proof.
  intros ov next Ht Hr Hw Hne Hp.
  assert (Hov : getOverrides (storage (setTopicImage false w topic src)) = next).
  { unfold setTopicImage. rewrite Ht. now apply getOverrides_saved. }
  assert (Hsw : siteWide cfg (setTopicImage false w topic src) = siteWide cfg w).
  { unfold setTopicImage. rewrite Ht. apply siteWide_saved. }
  assert (Hrem : remote (setTopicImage false w topic src) = remote w).
  { unfold setTopicImage. now rewrite Ht. }
  unfold getTopicImage. rewrite Hsw, Hov, Hrem.
  subst next. cbn [ImageOverrides.topics]. rewrite lookup_delete_eq.
  reflexivity.
Qed.

(** X17. The resolvers never answer an empty image source when the
    caller's default is not empty, in either context and whatever the
    configuration, the remote tables and the storage hold. *)
Theorem resolved_image_never_empty (cfg : Config) (IS_PUBLIC : bool) (w : World)
    (topic : TopicKey) (articleId defaultSrc : string)
    (topicKey : option TopicKey) :
  nonempty defaultSrc = true ->
  nonempty (getTopicImage cfg IS_PUBLIC w topic defaultSrc) = true
  /\ nonempty (getArticleImage cfg IS_PUBLIC w articleId defaultSrc topicKey) = true.
Proof.
  intros H. unfold getTopicImage, getArticleImage, resolveTopicDefault,
    resolveArticleDefault.
  split; destruct IS_PUBLIC; repeat apply return_if_nonempty; try exact H;
    destruct topicKey; try exact H; now apply return_if_nonempty.
Qed.

(** X18. A site-wide image set through [setSiteWideImage] is shown
    everywhere: when the configuration has no site-wide override and the
    storage works, both resolvers answer the trimmed text for every topic
    and article in both contexts, while [null] or a blank text leaves no
    site-wide override in force; the stored per-topic and per-article
    overrides are not touched and one change event is dispatched. *)
Theorem local_site_wide_set_and_clear (cfg : Config) (IS_PUBLIC : bool)
    (w : World) (src : option string) (topic : TopicKey)
    (articleId d : string) (topicKey : option TopicKey) :
  let w' := setSiteWideImage w src in
  truthy (siteWideImageOverride cfg) = false ->
  readable (storage w) = true -> writable (storage w) = true ->
  match text_of src with
  | Some v => getTopicImage cfg IS_PUBLIC w' topic d = v
              /\ getArticleImage cfg IS_PUBLIC w' articleId d topicKey = v
  | None => siteWide cfg w' = None
  end
  /\ getOverrides (storage w') = getOverrides (storage w)
  /\ dispatched w' = (dispatched w ++ [OV_EVENT])%list.
Proof.
  intros w' Hc Hr Hw. split; [|split].
  - destruct (text_of src) as [v|] eqn:Ht.
    + destruct (setSiteWideImage_read_back w src v Ht Hr Hw) as (_ & Hl & _).
      destruct (siteWide_resolved cfg w' v (or_intror (conj Hc Hl))) as [Hs Hv].
      unfold getTopicImage, getArticleImage. rewrite Hs.
      split; now apply return_if_truthy.
    + subst w'. unfold siteWide, or_else. rewrite Hc.
      unfold setSiteWideImage, removeItem. rewrite Ht, Hr.
      unfold getSiteWideImageLocal, getItem. cbn [storage readable items].
      now rewrite lookup_delete_eq.
  - subst w'. unfold setSiteWideImage, setItem, removeItem, getOverrides, getItem.
    rewrite Hr, Hw.
    destruct (text_of src); cbn [storage readable items]; rewrite ?Hr.
    + now rewrite lookup_insert_ne.
    + now rewrite lookup_delete_ne.
  - subst w'. unfold setSiteWideImage, setItem, removeItem. rewrite Hr, Hw.
    now destruct (text_of src).
Qed.

End LocalOverrides.

Section LocalOverridesRuns.
Import ImageOverrides ArticleEngine Fixtures MoreFixtures Samples.

Lemma local_topic_override_round_trip_witness :
  getTopicImage (codec := constant_codec "saved" (stored_form ethics_override))
    config_without_override false
    (setTopicImage (codec := constant_codec "saved" (stored_form ethics_override))
       false fresh_world ethics (Some " https://mine/e.png "))
    ethics "generated.jpg"
  = "https://mine/e.png".
Proof.
  exact (proj1 (local_topic_override_round_trip
                  (codec := constant_codec "saved" (stored_form ethics_override))
                  config_without_override fresh_world ethics
                  (Some " https://mine/e.png ") "https://mine/e.png"
                  "generated.jpg" eq_refl eq_refl eq_refl eq_refl eq_refl eq_refl)).
Defined.


Lemma cleared_topic_override_shows_public_image_witness :
  getTopicImage (codec := overrides_table_codec) config_without_override false
    (setTopicImage (codec := overrides_table_codec) false (world_with "saved")
       ethics (Some "  "))
    ethics "generated.jpg"
  = "https://overlay/topic.jpg".
Proof.
  exact (cleared_topic_override_shows_public_image
           (codec := overrides_table_codec) config_without_override
           (world_with "saved") ethics (Some "  ") "generated.jpg"
           eq_refl eq_refl eq_refl eq_refl eq_refl).
Defined.

Lemma resolved_image_never_empty_witness :
  nonempty (getTopicImage (codec := overrides_codec) sourceConfig true busy_world
              ethics "generated.jpg") = true.
Proof.
  exact (proj1 (resolved_image_never_empty (codec := overrides_codec)
                  sourceConfig true busy_world ethics "ethics-20250811-1"
                  "generated.jpg" (Some ethics) eq_refl)).
Defined.

Lemma local_site_wide_set_and_clear_witness :
  getTopicImage (codec := overrides_codec) config_without_override true
    (setSiteWideImage fresh_world (Some " https://local/w.png ")) ethics
    "generated.jpg"
  = "https://local/w.png".
Proof.
  exact (proj1 (proj1 (local_site_wide_set_and_clear (codec := overrides_codec)
                         config_without_override true fresh_world
                         (Some " https://local/w.png ") ethics
                         "ethics-20250811-1" "generated.jpg" (Some ethics)
                         eq_refl eq_refl eq_refl))).
Defined.

End LocalOverridesRuns.

(** ** Content overrides *)

Section ContentStore.
Import ContentOverrides.
Context {codec : JSON (gmap string ArticleContentOverride)}.

Lemma readAll_written (w : World) (map : gmap string ArticleContentOverride) :
  readable (storage w) = true -> writable (storage w) = true ->
  nonempty (stringify map) = true -> parse (stringify map) = Some map ->
  readAll (storage (writeAll w map)) = map.
Proof.
  intros Hr Hw Hne Hp. unfold writeAll, readAll, setItem, getItem.
  rewrite Hw. cbn [storage readable items].
  now rewrite Hr, lookup_insert_eq, Hne, Hp.
Qed.

Lemma get_member_assign {A : Type} (obj : gmap string A) (k : string) (v : A) :
  k <> "__proto__" \/ is_Some (obj !! k) ->
  assign obj k v = <[k := v]> obj.
Proof.
  unfold assign. intros [H|[x H]].
  - destruct (obj !! k); [reflexivity|].
    apply String.eqb_neq in H. now rewrite H.
  - now rewrite H.
Qed.

Lemma get_member_other {A : Type} (obj obj' : gmap string A) (k : string) :
  obj' !! k = obj !! k -> get_member obj' k = get_member obj k.
Proof. unfold get_member. now intros ->. Qed.

(** X19. [setContentOverride] merges into what is stored and the result
    is what [getContentOverride] then answers: each field named in the
    given object replaces the stored one (a field named with the value
    [undefined] erases it), each field not named keeps its stored value,
    the overrides of the other articles are as before, and one change event
    is dispatched. The one id this fails for is [__proto__] when the stored
    object has no entry of that name: the assignment then sets the
    prototype of the object, nothing is stored for the id, and
    [getContentOverride] answers the inherited member as before. Stated
    for a storage that takes the write and a codec that reads back what it
    wrote. *)
Theorem content_override_set_get (w : World) (articleId : string)
    (override : OverridePatch) :
  let map := readAll (storage w) in
  let prev := previous map articleId in
  let next := assign map articleId (spread prev override) in
  let w' := setContentOverride w articleId override in
  readable (storage w) = true -> writable (storage w) = true ->
  nonempty (stringify next) = true -> parse (stringify next) = Some next ->
  (articleId <> "__proto__" \/ is_Some (map !! articleId) ->
     exists stored,
       getContentOverride w' articleId = Own stored
       /\ o_title stored = match p_title override with Some x => x | None => o_title prev end
       /\ o_excerpt stored = match p_excerpt override with Some x => x | None => o_excerpt prev end
       /\ o_tags stored = match p_tags override with Some x => x | None => o_tags prev end
       /\ o_body stored = match p_body override with Some x => x | None => o_body prev end
       /\ o_quote stored = match p_quote override with Some x => x | None => o_quote prev end)
  /\ (articleId = "__proto__" -> map !! articleId = None ->
        getContentOverride w' articleId = Inherited
        /\ getAllContentOverrides w' = map)
  /\ (forall id, id <> articleId ->
        getContentOverride w' id = getContentOverride w id)
  /\ dispatched w' = (dispatched w ++ [CONTENT_EVENT])%list.
Proof.
  intros map prev next w' Hr Hw Hne Hp.
  assert (Hall : readAll (storage w') = next).
  { subst w'. unfold setContentOverride. now apply readAll_written. }
  split; [|split; [|split]].
  - intros Hid. exists (spread prev override).
    unfold getContentOverride, get_member. rewrite Hall. subst next.
    rewrite (get_member_assign _ _ _ Hid), lookup_insert_eq. repeat split.
  - intros -> Hnone. unfold getContentOverride, getAllContentOverrides.
    rewrite Hall. subst next. unfold assign. rewrite Hnone. cbn.
    split; [|reflexivity]. unfold get_member. now rewrite Hnone.
  - intros id Hid. unfold getContentOverride. rewrite Hall.
    apply get_member_other. subst next. unfold assign.
    destruct (map !! articleId); [now rewrite lookup_insert_ne|].
    destruct (String.eqb articleId "__proto__"); [reflexivity|].
    now rewrite lookup_insert_ne.
  - reflexivity.
Qed.

(** X20. [clearContentOverride] removes the stored override of one
    article and nothing else: afterwards the stored object has no entry for
    the id, so [getContentOverride] answers [undefined] for it, or the
    inherited member when the id names a member of [Object.prototype], and
    answers as before for every other id. The storage is rewritten and one
    change event dispatched whenever the look-up of the id was truthy, that
    is for a stored override and for the name of an inherited member alike;
    when the look-up gave [undefined] the storage is not written and no
    event is dispatched. *)
Theorem content_override_clear (w : World) (articleId : string) :
  let map := readAll (storage w) in
  let w' := clearContentOverride w articleId in
  readable (storage w) = true -> writable (storage w) = true ->
  nonempty (stringify (delete articleId map)) = true ->
  parse (stringify (delete articleId map)) = Some (delete articleId map) ->
  getContentOverride w' articleId
  = (if is_prototype_member articleId then Inherited else Missing)
  /\ (forall id, id <> articleId ->
        getContentOverride w' id = getContentOverride w id)
  /\ (getContentOverride w articleId = Missing -> w' = w)
  /\ (getContentOverride w articleId <> Missing ->
        getAllContentOverrides w' = delete articleId map
        /\ dispatched w' = (dispatched w ++ [CONTENT_EVENT])%list).
Proof.
  intros map w' Hr Hw Hne Hp. subst w'.
  unfold clearContentOverride, getContentOverride, getAllContentOverrides.
  fold map.
  pose proof (readAll_written w (delete articleId map) Hr Hw Hne Hp) as Hall.
  assert (Hgone : get_member (delete articleId map) articleId
                  = if is_prototype_member articleId then Inherited else Missing).
  { unfold get_member. now rewrite lookup_delete_eq. }
  assert (Hother : forall id, id <> articleId ->
             get_member (delete articleId map) id = get_member map id).
  { intros id Hid. apply get_member_other. now rewrite lookup_delete_ne. }
  destruct (get_member map articleId) as [o| |] eqn:E.
  - rewrite Hall. split; [exact Hgone|]. split; [exact Hother|].
    split; [discriminate|]. now split.
  - rewrite Hall. split; [exact Hgone|]. split; [exact Hother|].
    split; [discriminate|]. now split.
  - split.
    + fold map. rewrite E. unfold get_member in E.
      destruct (map !! articleId); [discriminate|].
      now destruct (is_prototype_member articleId).
    + split; [reflexivity|]. split; [reflexivity|]. now intros H.
Qed.

End ContentStore.

Section ContentStoreRuns.
Import ContentOverrides Samples.

Lemma content_override_set_get_witness :
  exists stored,
    getContentOverride (codec := content_table_codec)
      (setContentOverride (codec := content_table_codec) (content_world "{}")
         "ethics-20250811-1" title_patch)
      "ethics-20250811-1" = Own stored
    /\ o_title stored = Some "Edited title" /\ o_excerpt stored = None.
Proof.
  destruct (content_override_set_get (codec := content_table_codec)
              (content_world "{}") "ethics-20250811-1" title_patch
              eq_refl eq_refl eq_refl eq_refl)
    as [Hset _].
  destruct Hset as (stored & Hs & Ht & He & _); [left; discriminate|].
  exists stored. split; [exact Hs|]. split; [exact Ht|exact He].
Defined.

Lemma content_override_clear_witness :
  getContentOverride (codec := content_table_codec)
    (clearContentOverride (codec := content_table_codec) (content_world "one")
       "ethics-20250811-1")
    "ethics-20250811-1" = Missing.
Proof.
  exact (proj1 (content_override_clear (codec := content_table_codec)
                  (content_world "one") "ethics-20250811-1"
                  eq_refl eq_refl eq_refl eq_refl)).
Defined.

(** Free text as an article id: [__proto__] is not stored, and clearing
    [constructor] on an empty store writes and dispatches. *)
Example content_override_prototype_ids :
  getContentOverride (codec := content_table_codec)
    (setContentOverride (codec := content_table_codec) (content_world "{}")
       "__proto__" title_patch) "__proto__" = Inherited
  /\ getAllContentOverrides (codec := content_table_codec)
       (setContentOverride (codec := content_table_codec) (content_world "{}")
          "__proto__" title_patch) = ∅
  /\ dispatched (clearContentOverride (codec := content_table_codec)
                   (content_world "{}") "constructor") = [CONTENT_EVENT]
  /\ getContentOverride (codec := content_table_codec)
       (clearContentOverride (codec := content_table_codec)
          (content_world "{}") "constructor") "constructor" = Inherited.
Proof. repeat split. Qed.

End ContentStoreRuns.

(** ** Outcomes of the reflection generator *)

Section ReflectionOutcomes.
Import ContentEngine.

Lemma keep_first_pair_within (q1 q2 q : string) :
  q ∈ keep_first [q1; q2] -> q = q1 \/ q = q2.
Proof.
  rewrite keep_first_pair. destruct (String.eqb q1 q2).
  - intros ->%list_elem_of_singleton. now left.
  - rewrite !elem_of_cons, elem_of_nil. tauto.
Qed.

(** X21. [generateReflection] throws exactly when one of the five pools
    it picks from (scriptures, quotes, the theme's titles, prayers,
    questions) is empty, always with the message of [pick]; an empty list
    of body templates is no error. Otherwise every slot of the reflection
    comes from its pool, the body has one paragraph per template, and the
    date, theme and tags are those of the request. *)
Theorem generateReflection_outcomes (P : Pools) (date : Date)
    (t : ReflectionTheme) :
  match generateReflection P date t with
  | Throw m =>
      m = "Cannot pick from empty array"
      /\ (scripturePool P = [] \/ quotePool P = [] \/ titleFragments P t = []
          \/ prayers P = [] \/ questionsPool P = [])
  | Ok r =>
      scripturePool P <> [] /\ quotePool P <> [] /\ titleFragments P t <> []
      /\ prayers P <> [] /\ questionsPool P <> []
      /\ scripture r ∈ scripturePool P /\ quote r ∈ quotePool P
      /\ title r ∈ titleFragments P t /\ prayer r ∈ prayers P
      /\ (forall q, q ∈ questions r -> q ∈ questionsPool P)
      /\ length (body r) = length (bodyTemplates P)
      /\ dateISO r = dateISO_of date /\ theme r = t
      /\ tags r = [humanizeTheme t; "daily"; "reflection"]
  end.
Proof.
  unfold generateReflection.
  set (seed := hash (dateISO_of date +:+ "|" +:+ theme_string t)).
  destruct (scripturePool P) as [|s0 sl] eqn:Es; [cbn; tauto|].
  destruct (content_pick_elem (s0 :: sl) (seed + 1)) as (scr & -> & Hscr);
    [discriminate|]. cbn [bind].
  destruct (quotePool P) as [|q0 ql] eqn:Eq; [cbn; tauto|].
  destruct (content_pick_elem (q0 :: ql) (seed + 7)) as (quo & -> & Hquo);
    [discriminate|]. cbn [bind].
  destruct (titleFragments P t) as [|t0 tl] eqn:Et; [cbn; tauto|].
  destruct (content_pick_elem (t0 :: tl) (seed + 13)) as (ttl & -> & Httl);
    [discriminate|]. cbn [bind].
  destruct (prayers P) as [|p0 pl] eqn:Ep; [cbn; tauto|].
  destruct (content_pick_elem (p0 :: pl) (seed + 17)) as (pry & -> & Hpry);
    [discriminate|]. cbn [bind].
  destruct (questionsPool P) as [|u0 ul] eqn:Eu; [cbn; tauto|].
  destruct (content_pick_elem (u0 :: ul) (seed + 19)) as (q1 & -> & Hq1);
    [discriminate|].
  destruct (content_pick_elem (u0 :: ul) (seed + 23)) as (q2 & -> & Hq2);
    [discriminate|]. cbn [bind].
  cbn [scripture quote title prayer questions body dateISO theme tags].
  do 5 (split; [discriminate|]).
  do 4 (split; [assumption|]).
  split; [intros q [->| ->]%keep_first_pair_within; assumption|].
  split; [unfold makeBody; apply length_map|].
  repeat split.
Qed.

End ReflectionOutcomes.

Section FirstVisitCache.
Import ContentEngine.
Context {codec : JSON Reflection}.

(** X22. The first request of a day generates and caches: when nothing
    is stored for the day and theme, the generator succeeds, the storage
    works and the codec reads back what it wrote, [getReflectionForDate]
    returns the generated reflection, stores its text under the key of the
    day and theme and leaves every other item alone; a later request
    returns the same reflection without writing, whatever the content
    tables have become. *)
Theorem first_request_generates_and_caches (P P' : Pools) (ls : LocalStorage)
    (d : Date) (t : ReflectionTheme) (g : Reflection) :
  getStoredReflection ls (cacheKey d t) = None ->
  generateReflection P d t = Ok g ->
  readable ls = true -> writable ls = true ->
  nonempty (stringify g) = true -> parse (stringify g) = Some g ->
  let first := getReflectionForDate P ls d t in
  fst first = Ok g
  /\ items (snd first) !! cacheKey d t = Some (stringify g)
  /\ (forall k, k <> cacheKey d t -> items (snd first) !! k = items ls !! k)
  /\ getReflectionForDate P' (snd first) d t = (Ok g, snd first).
Proof.
  intros Hmiss Hgen Hr Hw Hne Hp first.
  destruct (first_generation_is_cached P P' ls d t g Hmiss Hgen Hr Hw Hne Hp)
    as [H1 H2].
  split; [exact H1|]. split; [|split; [|exact H2]].
  - subst first. unfold getReflectionForDate. rewrite Hmiss, Hgen.
    cbn [snd]. unfold storeReflection, setItem. rewrite Hw. cbn [items].
    apply lookup_insert_eq.
  - intros k Hk. subst first. unfold getReflectionForDate. rewrite Hmiss, Hgen.
    cbn [snd]. unfold storeReflection, setItem. rewrite Hw. cbn [items].
    now rewrite lookup_insert_ne.
Qed.

End FirstVisitCache.

Section FirstVisitCacheRuns.
Import ContentEngine Fixtures MoreFixtures Samples.

Lemma first_request_generates_and_caches_witness :
  fst (getReflectionForDate (codec := constant_codec "generated" generated_sample)
         sourcePools empty_storage new_year_2025 mindfulness)
  = Ok generated_sample.
Proof.
  refine (proj1 (first_request_generates_and_caches
                   (codec := constant_codec "generated" generated_sample)
                   sourcePools edited_pools empty_storage new_year_2025
                   mindfulness generated_sample eq_refl _ eq_refl eq_refl
                   eq_refl eq_refl)).
  vm_compute. reflexivity.
Defined.

End FirstVisitCacheRuns.

(** ** Rotation and sampling *)

Section Sampling.
Import ArticleEngine.
Context {T : Type}.

Lemma rotate_lookup (arr : list T) (seed : N) (i : nat) :
  (i < length arr)%nat ->
  rotate arr seed !! i
  = arr !! ((i + N.to_nat (seed mod N.of_nat (length arr))) mod length arr)%nat.
Proof.
  intros Hi. unfold rotate.
  destruct (length arr =? 0)%nat eqn:E; [apply Nat.eqb_eq in E; lia|].
  apply Nat.eqb_neq in E.
  set (n := length arr) in *.
  assert (Ho : (N.to_nat (seed mod N.of_nat n) < n)%nat).
  { assert (seed mod N.of_nat n < N.of_nat n) by (apply N.mod_lt; lia). lia. }
  set (o := N.to_nat (seed mod N.of_nat n)) in *.
  destruct (decide (i < n - o)%nat) as [Hlt|Hge].
  - rewrite lookup_app_l by (rewrite length_drop; fold n; lia).
    rewrite lookup_drop. rewrite Nat.mod_small by lia. f_equal. lia.
  - rewrite lookup_app_r by (rewrite length_drop; fold n; lia).
    rewrite length_drop. fold n.
    rewrite lookup_take_lt by lia.
    f_equal. apply (Nat.mod_unique _ _ 1%nat); lia.
Qed.

(** X23. [sampleDeterministic] selects by rotating and cutting: the
    sample has [min count length] elements, its element [i] is the element
    of the array at position [(i + seed mod length) mod length], so every
    element comes from the array, a duplicate-free array gives a
    duplicate-free sample, and asking for at least as many elements as
    there are returns a rearrangement of the whole array; an empty array
    gives an empty sample. *)
Theorem sample_is_rotated_selection (arr : list T) (count seed : N) :
  let s := sampleDeterministic arr count seed in
  length s = Nat.min (N.to_nat count) (length arr)
  /\ (forall i, (i < length s)%nat ->
        s !! i = arr !! ((i + N.to_nat (seed mod N.of_nat (length arr)))
                         mod length arr)%nat)
  /\ (forall x, x ∈ s -> x ∈ arr)
  /\ (NoDup arr -> NoDup s)
  /\ (N.of_nat (length arr) <= count -> s ≡ₚ arr).
Proof.
  cbn zeta. unfold sampleDeterministic.
  destruct (length arr =? 0)%nat eqn:E.
  { apply Nat.eqb_eq in E. destruct arr; [|discriminate E].
    cbn. repeat split; try lia; try easy. }
  apply Nat.eqb_neq in E.
  destruct (N.of_nat (length arr) <=? count) eqn:C.
  - apply N.leb_le in C. split; [rewrite rotate_length; lia|].
    split; [intros i Hi; apply rotate_lookup; now rewrite rotate_length in Hi|].
    split; [intros x Hx; now rewrite rotate_Permutation in Hx|].
    split; [intros H; now rewrite rotate_Permutation|].
    intros _. apply rotate_Permutation.
  - apply N.leb_gt in C.
    split; [rewrite length_take, rotate_length; lia|].
    split.
    { intros i Hi. rewrite length_take, rotate_length in Hi.
      rewrite lookup_take_lt by lia. apply rotate_lookup. lia. }
    split; [intros x Hx; eapply sample_within, Hx|].
    split; [apply sample_NoDup|]. lia.
Qed.

End Sampling.

(** ** Where the parts of an article come from *)

Section ArticleParts.
Import ArticleEngine.

(** X24. [generateArticleCore] builds an article for every topic, every
    date text (also one that is no date) and every index, and the article
    is made of its topic's own material: the title, the excerpt and the
    third tag come from the topic's pools, the quote from the shared pool
    of quotes, the first two tags are the topic's label and [daily], and
    the topic, date text and id are those of the request. *)
Theorem generated_article_from_topic_pools (topic : TopicKey)
    (dateISO : string) (index : N) :
  exists a extra,
    generateArticleCore topic dateISO index = Some a
    /\ title a ∈ titlePool topic /\ excerpt a ∈ excerptPool topic
    /\ quote a ∈ quotePool
    /\ extra ∈ extraTags topic /\ tags a = [humanLabel topic; "daily"; extra]
    /\ buildBody topic
         (hash (key_string topic +:+ "|" +:+ dateISO +:+ "|"
                  +:+ number_to_string index) + 13) = Some (body a)
    /\ ArticleEngine.topic a = topic /\ ArticleEngine.dateISO a = dateISO
    /\ id a = articleId topic dateISO index.
Proof.
  unfold generateArticleCore.
  set (seedBase := hash _).
  destruct (article_pick_elem (titlePool topic) (seedBase + 3))
    as (ti & -> & Hti); [destruct topic; discriminate|].
  destruct (article_pick_elem (excerptPool topic) (seedBase + 7))
    as (ex & -> & Hex); [destruct topic; discriminate|].
  destruct (article_pick_elem quotePool (seedBase + 11))
    as (qu & -> & Hqu); [discriminate|].
  destruct (buildBody_defined topic (seedBase + 13)) as (paragraphs & Hbody).
  rewrite Hbody.
  destruct (article_pick_elem (extraTags topic) (seedBase + 29))
    as (extra & -> & Hextra); [destruct topic; discriminate|].
  eexists _, extra. cbn [mbind option_bind].
  split; [reflexivity|]. cbn [title excerpt quote tags body].
  do 4 (split; [assumption|]). repeat split.
Qed.

End ArticleParts.

(** ** Day keys *)

Section DayKeys.

Lemma all_from_spec (fuel : nat) (z : Z) (p : Z -> bool) :
  all_from fuel z p = true ->
  forall k, (z <= k < z + Z.of_nat fuel)%Z -> p k = true.
Proof.
  revert z. induction fuel as [|fuel IH]; intros z H k Hk; [lia|].
  cbn [all_from] in H. apply andb_prop in H as [Hz H].
  destruct (Z.eq_dec k z) as [->|Hne]; [exact Hz|].
  apply (IH (z + 1)%Z H). lia.
Qed.

(** Every day of an era is found again from its fields. *)
Lemma era_day_fields (doe : Z) :
  (0 <= doe < 146097)%Z ->
  let '(yoe, m, d) := era_fields doe in
  (0 <= yoe <= 399)%Z /\ era_day yoe m d = doe.
Proof.
  intros Hdoe. unfold era_fields.
  set (yoe := ((doe - doe / 1460 + doe / 36524 - doe / 146096) / 365)%Z).
  assert (Hyoe : (0 <= yoe <= 399)%Z)
    by (subst yoe; Z.div_mod_to_equations; lia).
  set (doy := (doe - (365 * yoe + yoe / 4 - yoe / 100))%Z).
  assert (Hdoy : (0 <= doy <= 365)%Z)
    by (subst doy yoe; Z.div_mod_to_equations; lia).
  assert (Edoe : (doe = 365 * yoe + yoe / 4 - yoe / 100 + doy)%Z)
    by (subst doy; lia).
  clearbody doy. clearbody yoe.
  set (mp := ((5 * doy + 2) / 153)%Z).
  assert (Hmp : (0 <= mp <= 11)%Z) by (subst mp; Z.div_mod_to_equations; lia).
  clearbody mp. cbv zeta. split; [exact Hyoe|]. unfold era_day.
  destruct (mp <? 10)%Z eqn:E.
  - apply Z.ltb_lt in E.
    assert ((mp + 3 <=? 2)%Z = false) as -> by (apply Z.leb_gt; lia).
    replace (mp + 3 - 3)%Z with mp by lia. lia.
  - apply Z.ltb_ge in E.
    assert ((mp - 9 <=? 2)%Z = true) as -> by (apply Z.leb_le; lia).
    replace (mp - 9 + 9)%Z with mp by lia. lia.
Qed.

Lemma civil_from_days_fields (days : Z) :
  civil_from_days days
  = let era := ((days + 719468) / 146097)%Z in
    let '(yoe, m, d) := era_fields (days + 719468 - era * 146097) in
    ((if (m <=? 2)%Z then yoe + era * 400 + 1 else yoe + era * 400)%Z, m, d).
Proof. reflexivity. Qed.

(** Two days with the same civil date are the same day. *)
Lemma civil_from_days_inj (a b : Z) :
  civil_from_days a = civil_from_days b -> a = b.
Proof.
  rewrite !civil_from_days_fields. cbv zeta.
  set (ea := ((a + 719468) / 146097)%Z).
  set (eb := ((b + 719468) / 146097)%Z).
  assert (Ha : (0 <= a + 719468 - ea * 146097 < 146097)%Z)
    by (subst ea; Z.div_mod_to_equations; lia).
  assert (Hb : (0 <= b + 719468 - eb * 146097 < 146097)%Z)
    by (subst eb; Z.div_mod_to_equations; lia).
  pose proof (era_day_fields _ Ha) as Fa.
  pose proof (era_day_fields _ Hb) as Fb.
  destruct (era_fields (a + 719468 - ea * 146097)) as [[ya ma] da].
  destruct (era_fields (b + 719468 - eb * 146097)) as [[yb mb] db].
  destruct Fa as [Ra Ia], Fb as [Rb Ib].
  intros [= Hy Hm Hd]. subst mb db.
  assert (Hyy : (ya + ea * 400 = yb + eb * 400)%Z)
    by (destruct (ma <=? 2)%Z; lia).
  assert (ea = eb) by lia. assert (ya = yb) by lia. subst eb yb.
  rewrite Ia in Ib. lia.
Qed.

Lemma digits_inj (w : nat) (bound : N) (y1 y2 : Z) :
  all_from (N.to_nat bound) 0
    (fun z => match parseInt10 (digits w z) with
              | Int n => (Z.of_N n =? z)%Z
              | Infinity => false
              end) = true ->
  (0 <= y1 < Z.of_N bound)%Z -> (0 <= y2 < Z.of_N bound)%Z ->
  digits w y1 = digits w y2 -> y1 = y2.
Proof.
  intros Hall H1 H2 E. pose proof (all_from_spec _ _ _ Hall) as Hs.
  cbv beta in Hs.
  pose proof (Hs y1 ltac:(lia)) as A1. pose proof (Hs y2 ltac:(lia)) as A2.
  rewrite E in A1. destruct (parseInt10 (digits w y2)); [|discriminate].
  apply Z.eqb_eq in A1, A2. congruence.
Qed.

Lemma digits_4_inj (y1 y2 : Z) :
  (0 <= y1 <= 9999)%Z -> (0 <= y2 <= 9999)%Z ->
  digits 4 y1 = digits 4 y2 -> y1 = y2.
Proof.
  intros H1 H2. apply (digits_inj 4 10000); [vm_compute; reflexivity|lia|lia].
Qed.

Lemma digits_2_inj (y1 y2 : Z) :
  (0 <= y1 <= 99)%Z -> (0 <= y2 <= 99)%Z ->
  digits 2 y1 = digits 2 y2 -> y1 = y2.
Proof.
  intros H1 H2. apply (digits_inj 2 100); [vm_compute; reflexivity|lia|lia].
Qed.

(** The first ten characters of a text that starts with a year, a month
    and a day of four, two and two characters. *)
Lemma iso_slice (Y M D rest : string) :
  digit_field 4 Y = true -> digit_field 2 M = true -> digit_field 2 D = true ->
  slice 0 10 (Y +:+ "-" +:+ M +:+ "-" +:+ D +:+ rest)
  = Y +:+ "-" +:+ M +:+ "-" +:+ D.
Proof.
  unfold digit_field. intros HY HM HD.
  apply andb_prop in HY as [LY _], HM as [LM _], HD as [LD _].
  apply Nat.eqb_eq in LY, LM, LD.
  destruct Y as [|y1 [|y2 [|y3 [|y4 [|]]]]]; try discriminate LY.
  destruct M as [|m1 [|m2 [|]]]; try discriminate LM.
  destruct D as [|d1 [|d2 [|]]]; try discriminate LD.
  reflexivity.
Qed.

Lemma iso_fields_inj (Y1 M1 D1 Y2 M2 D2 : string) :
  digit_field 4 Y1 = true -> digit_field 2 M1 = true -> digit_field 2 D1 = true ->
  digit_field 4 Y2 = true -> digit_field 2 M2 = true -> digit_field 2 D2 = true ->
  Y1 +:+ "-" +:+ M1 +:+ "-" +:+ D1 = Y2 +:+ "-" +:+ M2 +:+ "-" +:+ D2 ->
  Y1 = Y2 /\ M1 = M2 /\ D1 = D2.
Proof.
  unfold digit_field. intros HY1 HM1 HD1 HY2 HM2 HD2.
  apply andb_prop in HY1 as [LY1 _], HM1 as [LM1 _], HD1 as [LD1 _].
  apply andb_prop in HY2 as [LY2 _], HM2 as [LM2 _], HD2 as [LD2 _].
  apply Nat.eqb_eq in LY1, LM1, LD1, LY2, LM2, LD2.
  destruct Y1 as [|? [|? [|? [|? [|]]]]]; try discriminate LY1.
  destruct M1 as [|? [|? [|]]]; try discriminate LM1.
  destruct D1 as [|? [|? [|]]]; try discriminate LD1.
  destruct Y2 as [|? [|? [|? [|? [|]]]]]; try discriminate LY2.
  destruct M2 as [|? [|? [|]]]; try discriminate LM2.
  destruct D2 as [|? [|? [|]]]; try discriminate LD2.
  cbv [String.append]. intros [= -> -> -> -> -> -> -> ->]. repeat split.
Qed.

(** The day key, written from the civil date of the day. *)
Lemma toDateISO_civil (d : Date) :
  (year_0000 <= d < year_10000)%Z ->
  let '(y, m, dd) := civil_from_days (d / msPerDay) in
  ((0 <= y <= 9999)%Z /\ (1 <= m <= 12)%Z /\ (1 <= dd <= 31)%Z)
  /\ ArticleEngine.toDateISO d
     = digits 4 y +:+ "-" +:+ digits 2 m +:+ "-" +:+ digits 2 dd.
Proof.
  intros H. unfold ArticleEngine.toDateISO, toISOString.
  assert (Hdays : (-719528 <= d / msPerDay <= 2932896)%Z).
  { unfold year_0000, year_10000, msPerDay in *. Z.div_mod_to_equations. lia. }
  pose proof (civil_year_four_digits _ Hdays) as Hy.
  pose proof (civil_month_day (d / msPerDay)) as Hmd.
  destruct (civil_from_days (d / msPerDay)) as [[y m] dd].
  destruct Hmd as [Hm Hd]. split; [now repeat split|].
  assert (((0 <=? y) && (y <=? 9999))%Z = true) as ->.
  { apply andb_true_intro. split; [apply Z.leb_le|apply Z.leb_le]; lia. }
  apply iso_slice; [apply digits_4|apply digits_2|apply digits_2]; lia.
Qed.

Lemma toDateISO_inj (d1 d2 : Date) :
  (year_0000 <= d1 < year_10000)%Z -> (year_0000 <= d2 < year_10000)%Z ->
  ArticleEngine.toDateISO d1 = ArticleEngine.toDateISO d2 ->
  (d1 / msPerDay = d2 / msPerDay)%Z.
Proof.
  intros H1 H2 E.
  pose proof (toDateISO_civil d1 H1) as C1.
  pose proof (toDateISO_civil d2 H2) as C2.
  apply civil_from_days_inj.
  destruct (civil_from_days (d1 / msPerDay)) as [[y1 m1] dd1].
  destruct (civil_from_days (d2 / msPerDay)) as [[y2 m2] dd2].
  destruct C1 as [(Ry1 & Rm1 & Rd1) E1], C2 as [(Ry2 & Rm2 & Rd2) E2].
  rewrite E1, E2 in E.
  apply iso_fields_inj in E as (Ey & Em & Ed);
    try apply digits_4; try apply digits_2; try lia.
  apply digits_4_inj in Ey; [|lia|lia].
  apply digits_2_inj in Em; [|lia|lia].
  apply digits_2_inj in Ed; [|lia|lia].
  now subst.
Qed.

Lemma toDateISO_same_day (d1 d2 : Date) :
  (year_0000 <= d1 < year_10000)%Z -> (year_0000 <= d2 < year_10000)%Z ->
  (d1 / msPerDay = d2 / msPerDay)%Z ->
  ArticleEngine.toDateISO d1 = ArticleEngine.toDateISO d2.
Proof.
  intros H1 H2 E.
  pose proof (toDateISO_civil d1 H1) as C1.
  pose proof (toDateISO_civil d2 H2) as C2.
  rewrite E in C1.
  destruct (civil_from_days (d2 / msPerDay)) as [[y m] dd].
  destruct C1 as [_ ->], C2 as [_ ->]. reflexivity.
Qed.

End DayKeys.

Section DayKeyUses.
Import ArticleEngine.

Lemma range_sig (d : Date) :
  (year_0000 <= d < year_10000)%Z -> is_iso_date (toDateISO d) = true.
Proof. apply toISOString_date_shape. Qed.

Lemma append_inj_length (a b r1 r2 : string) :
  String.length a = String.length b ->
  a +:+ r1 = b +:+ r2 -> a = b /\ r1 = r2.
Proof.
  revert b. induction a as [|c a IH]; intros [|c' b] L E; try discriminate L.
  - now split.
  - rewrite !append_cons in E. injection E as -> E. injection L as L.
    destruct (IH b L E) as [-> ->]. now split.
Qed.

(** Ids of dated articles are equal only for the same topic and date
    text, whatever the indices. *)
Lemma articleId_inj_dated (t1 t2 : TopicKey) (s1 s2 : string) (i1 i2 : number) :
  is_iso_date s1 = true -> is_iso_date s2 = true ->
  articleId t1 s1 i1 = articleId t2 s2 i2 -> t1 = t2 /\ s1 = s2.
Proof.
  intros H1 H2 E. unfold articleId in E.
  destruct (iso_date_digits s1 H1) as (L1 & _ & B1).
  destruct (iso_date_digits s2 H2) as (L2 & _ & B2).
  cbv zeta in *.
  set (c1 := replace_all "-" "" s1) in *.
  set (c2 := replace_all "-" "" s2) in *. clearbody c1 c2.
  assert (Ht : t1 = t2).
  { destruct t1, t2; try reflexivity; cbn in E; discriminate E. }
  subst t2. split; [reflexivity|].
  apply (inj (String.append _)) in E. apply (inj (String.append _)) in E.
  apply append_inj_length in E as [E _]; [|now rewrite L1, L2].
  rewrite <- B1, <- B2, E. reflexivity.
Qed.

(** X25. Between the years 0000 and 9999 the day key stands for the UTC
    day and nothing else: two instants get the same key from [toDateISO]
    (and from the reflection engine's [dateISO_of]) exactly when they fall
    on the same UTC day. *)
Theorem day_key_identifies_day (d1 d2 : Date) :
  (year_0000 <= d1 < year_10000)%Z -> (year_0000 <= d2 < year_10000)%Z ->
  (toDateISO d1 = toDateISO d2 <-> (d1 / msPerDay = d2 / msPerDay)%Z)
  /\ (ContentEngine.dateISO_of d1 = ContentEngine.dateISO_of d2
      <-> (d1 / msPerDay = d2 / msPerDay)%Z).
Proof.
  intros H1 H2.
  assert (H : toDateISO d1 = toDateISO d2 <-> (d1 / msPerDay = d2 / msPerDay)%Z).
  { split; [now apply toDateISO_inj|now apply toDateISO_same_day]. }
  split; exact H.
Qed.

Lemma day_key_identifies_day_witness :
  toDateISO 1754870400123%Z = toDateISO 1754913600000%Z.
Proof.
  apply (proj1 (day_key_identifies_day 1754870400123%Z 1754913600000%Z
                  ltac:(unfold year_0000, year_10000; lia)
                  ltac:(unfold year_0000, year_10000; lia))).
  reflexivity.
Defined.

(** X26. The listing of a day belongs to that day: for two dates between
    the years 0000 and 9999, on the same UTC day [listArticlesForDate]
    returns the same cards for the same number per topic, and on different
    days no card of one listing has the id of a card of the other. *)
Theorem listings_are_per_day (d1 d2 : Date) (n1 n2 : N) :
  (year_0000 <= d1 < year_10000)%Z -> (year_0000 <= d2 < year_10000)%Z ->
  exists all1 all2,
    listArticlesForDate d1 n1 = Some all1
    /\ listArticlesForDate d2 n2 = Some all2
    /\ ((d1 / msPerDay = d2 / msPerDay)%Z -> n1 = n2 -> all1 = all2)
    /\ ((d1 / msPerDay <> d2 / msPerDay)%Z ->
        forall c1 c2, c1 ∈ all1 -> c2 ∈ all2 -> c_id c1 <> c_id c2).
Proof.
  intros H1 H2.
  destruct (cards_of_pairs (toDateISO d1)
              (t ← topics; i ← indices n1; [(t, i)])) as (all1 & A1 & F1).
  destruct (cards_of_pairs (toDateISO d2)
              (t ← topics; i ← indices n2; [(t, i)])) as (all2 & A2 & F2).
  exists all1, all2. split; [exact A1|]. split; [exact A2|]. split.
  - intros Hday <-. rewrite (toDateISO_same_day d1 d2 H1 H2 Hday) in A1.
    rewrite A1 in A2. now injection A2.
  - intros Hday c1 c2 Hc1 Hc2 E.
    apply list_elem_of_lookup_1 in Hc1 as [k1 Hk1], Hc2 as [k2 Hk2].
    destruct (Forall2_lookup_r _ _ _ _ _ F1 Hk1)
      as ([t1 i1] & _ & a1 & _ & -> & Hid1).
    destruct (Forall2_lookup_r _ _ _ _ _ F2 Hk2)
      as ([t2 i2] & _ & a2 & _ & -> & Hid2).
    cbn [card_of c_id fst snd] in *. rewrite Hid1, Hid2 in E.
    apply articleId_inj_dated in E as (_ & E);
      [|now apply range_sig|now apply range_sig].
    apply Hday. now apply toDateISO_inj.
Qed.

Lemma listings_are_per_day_witness :
  exists all1 all2,
    listArticlesForDate 1754870400123%Z 2 = Some all1
    /\ listArticlesForDate 1755000000000%Z 2 = Some all2
    /\ forall c1 c2, c1 ∈ all1 -> c2 ∈ all2 -> c_id c1 <> c_id c2.
Proof.
  destruct (listings_are_per_day 1754870400123%Z 1755000000000%Z 2 2
              ltac:(unfold year_0000, year_10000; lia)
              ltac:(unfold year_0000, year_10000; lia))
    as (all1 & all2 & A1 & A2 & _ & Hne).
  exists all1, all2. split; [exact A1|]. split; [exact A2|].
  apply Hne. vm_compute. discriminate.
Defined.

End DayKeyUses.

Section WeeklyHighlights.
Import ArticleEngine NewsletterDigest.
Context {codec : JSON ContentEngine.Reflection}.
Variable formatHumanDate : Date -> string.

(** X27. On a host whose time zone keeps one offset from UTC, the weekly
    digest shows seven different articles: for an end date whose week lies
    between the years 0000 and 9999, [buildWeeklyDigest] returns seven
    cards, the card of day [i] back from the end date being the first
    faith-and-reason article of that day, and no two of the seven ids are
    equal. *)
Theorem weekly_highlights_distinct (offset : Z) (ls : LocalStorage)
    (endDate : Date) :
  (year_0000 + 6 * msPerDay <= endDate < year_10000)%Z ->
  exists digest ls',
    buildWeeklyDigest formatHumanDate (fixed_zone offset)
      ContentEngine.sourcePools ls endDate
    = (Ok digest, ls')
    /\ c_id <$> articles digest
       = (fun i : Z => articleId faith_and_reason
                         (toDateISO (endDate - i * msPerDay)%Z) 1)
           <$> [0; 1; 2; 3; 4; 5; 6]%Z
    /\ NoDup (c_id <$> articles digest).
Proof.
  intros Hrange.
  destruct (weekly_digest_cards formatHumanDate (fixed_zone offset) ls endDate)
    as (refl & ls' & cards & _ & Hb & Hids & _).
  assert (Hback : forall i : Z,
             UTC (fixed_zone offset)
                 (LocalTime (fixed_zone offset) endDate - i * msPerDay)
             = (endDate - i * msPerDay)%Z).
  { intros i. unfold UTC, LocalTime, fixed_zone.
    cbn [offset_at offset_of_local]. lia. }
  assert (Hids' : c_id <$> cards
                  = (fun i : Z => articleId faith_and_reason
                                    (toDateISO (endDate - i * msPerDay)%Z) 1)
                      <$> [0; 1; 2; 3; 4; 5; 6]%Z).
  { rewrite Hids. apply list_fmap_ext. intros _ i _. now rewrite Hback. }
  eexists _, ls'. split; [exact Hb|]. cbn [articles].
  split; [exact Hids'|]. rewrite Hids'.
  apply (NoDup_fmap_2_strong _).
  - intros i j Hi Hj E.
    assert (Bi : (0 <= i <= 6)%Z).
    { rewrite !elem_of_cons, elem_of_nil in Hi. lia. }
    assert (Bj : (0 <= j <= 6)%Z).
    { rewrite !elem_of_cons, elem_of_nil in Hj. lia. }
    assert (Ri : (year_0000 <= endDate - i * msPerDay < year_10000)%Z)
      by (unfold year_0000, year_10000, msPerDay in *; lia).
    assert (Rj : (year_0000 <= endDate - j * msPerDay < year_10000)%Z)
      by (unfold year_0000, year_10000, msPerDay in *; lia).
    apply articleId_inj_dated in E as (_ & E);
      [|now apply range_sig|now apply range_sig].
    apply (toDateISO_inj _ _ Ri Rj) in E. unfold msPerDay in E.
    replace (endDate - i * 86400000)%Z
      with (endDate + (- i) * 86400000)%Z in E by lia.
    replace (endDate - j * 86400000)%Z
      with (endDate + (- j) * 86400000)%Z in E by lia.
    rewrite !Z.div_add in E by lia. lia.
  - repeat (apply NoDup_cons; split;
            [rewrite ?elem_of_cons, elem_of_nil; lia|]).
    apply NoDup_nil_2.
Qed.

End WeeklyHighlights.

Section WeeklyHighlightsRuns.
Import ArticleEngine NewsletterDigest Fixtures.

Lemma weekly_highlights_distinct_witness :
  exists digest ls',
    buildWeeklyDigest (codec := reflection_codec) (fun _ => "a day")
      (fixed_zone 3600000) ContentEngine.sourcePools empty_storage
      1754870400123%Z
    = (Ok digest, ls')
    /\ NoDup (c_id <$> articles digest).
Proof.
  destruct (weekly_highlights_distinct (codec := reflection_codec)
              (fun _ => "a day") 3600000%Z empty_storage 1754870400123%Z
              ltac:(unfold year_0000, year_10000, msPerDay; lia))
    as (digest & ls' & H & _ & Hnd).
  exists digest, ls'. split; [exact H|exact Hnd].
Defined.

End WeeklyHighlightsRuns.

Section CacheKeys.
Import ContentEngine.
Context {codec : JSON Reflection}.

Lemma is_iso_date_length (s : string) :
  ArticleEngine.is_iso_date s = true -> String.length s = 10%nat.
Proof.
  destruct s as [|? [|? [|? [|? [|? [|? [|? [|? [|? [|? [|]]]]]]]]]]];
    try discriminate. reflexivity.
Qed.

Lemma theme_string_inj (t1 t2 : ReflectionTheme) :
  theme_string t1 = theme_string t2 -> t1 = t2.
Proof. destruct t1, t2; intros H; try reflexivity; discriminate H. Qed.

Lemma cacheKey_inj (d1 d2 : Date) (t1 t2 : ReflectionTheme) :
  (year_0000 <= d1 < year_10000)%Z -> (year_0000 <= d2 < year_10000)%Z ->
  cacheKey d1 t1 = cacheKey d2 t2 ->
  (d1 / msPerDay = d2 / msPerDay)%Z /\ t1 = t2.
Proof.
  intros H1 H2 E. unfold cacheKey in E.
  apply (inj (String.append _)) in E.
  apply append_inj_length in E as [Ed Et].
  - split; [now apply toDateISO_inj|].
    apply (inj (String.append _)) in Et. now apply theme_string_inj.
  - rewrite !is_iso_date_length; [reflexivity| |];
      now apply toISOString_date_shape.
Qed.

(** X28. The cache of reflections is kept per UTC day and theme: for
    dates between the years 0000 and 9999 two requests use the same storage
    key exactly when they fall on the same day and ask for the same theme.
    So a reflection cached at one instant is served at every other instant
    of that day, and a request for one day and theme never changes what is
    cached for another day or theme. *)
Theorem reflection_cache_is_per_day_and_theme (P : Pools) (ls : LocalStorage)
    (d1 d2 : Date) (t1 t2 : ReflectionTheme) :
  (year_0000 <= d1 < year_10000)%Z -> (year_0000 <= d2 < year_10000)%Z ->
  (cacheKey d1 t1 = cacheKey d2 t2
   <-> (d1 / msPerDay = d2 / msPerDay)%Z /\ t1 = t2)
  /\ ((d1 / msPerDay = d2 / msPerDay)%Z -> t1 = t2 ->
      forall r, getStoredReflection ls (cacheKey d1 t1) = Some r ->
                getReflectionForDate P ls d2 t2 = (Ok r, ls))
  /\ (~ ((d1 / msPerDay = d2 / msPerDay)%Z /\ t1 = t2) ->
      getStoredReflection (snd (getReflectionForDate P ls d1 t1)) (cacheKey d2 t2)
      = getStoredReflection ls (cacheKey d2 t2)).
Proof.
  intros H1 H2.
  assert (Hsame : (d1 / msPerDay = d2 / msPerDay)%Z -> t1 = t2 ->
                  cacheKey d1 t1 = cacheKey d2 t2).
  { intros Hd ->. unfold cacheKey, dateISO_of.
    change (slice 0 10 (toISOString d1)) with (ArticleEngine.toDateISO d1).
    change (slice 0 10 (toISOString d2)) with (ArticleEngine.toDateISO d2).
    now rewrite (toDateISO_same_day d1 d2 H1 H2 Hd). }
  split; [|split].
  - split; [now apply cacheKey_inj|]. intros [Hd Ht]. now apply Hsame.
  - intros Hd Ht r Hr. rewrite (Hsame Hd Ht) in Hr.
    now apply getReflectionForDate_hit.
  - intros Hne.
    assert (Hk : cacheKey d1 t1 <> cacheKey d2 t2).
    { intros E. apply Hne. now apply cacheKey_inj. }
    unfold getReflectionForDate.
    destruct (getStoredReflection ls (cacheKey d1 t1)); [reflexivity|].
    destruct (generateReflection P d1 t1) as [g|m]; [|reflexivity].
    cbn [snd]. unfold storeReflection, setItem.
    destruct (writable ls); [|reflexivity].
    unfold getStoredReflection, getItem. cbn [readable items].
    now rewrite lookup_insert_ne.
Qed.

End CacheKeys.

Section CacheKeysRuns.
Import ContentEngine Fixtures.

Lemma reflection_cache_is_per_day_and_theme_witness :
  cacheKey 1754870400123%Z mindfulness = cacheKey 1754913600000%Z mindfulness.
Proof.
  apply (proj1 (reflection_cache_is_per_day_and_theme
                  (codec := reflection_codec) sourcePools empty_storage
                  1754870400123%Z 1754913600000%Z mindfulness mindfulness
                  ltac:(unfold year_0000, year_10000; lia)
                  ltac:(unfold year_0000, year_10000; lia))).
  split; reflexivity.
Defined.

End CacheKeysRuns.

(** ** The rows of the imagery editor *)

Section EditorRows.
Import RemoteImages ImageryEditor.

Lemma fromRows_entries (table : gmap string string) (rows : list MappingRow) :
  rows ≡ₚ entries table ->
  fromRows rows
  = filter (fun r : MappingRow => nonempty r.1 && nonempty r.2 = true) table.
Proof.
  intros Hrows. unfold fromRows, entries in *.
  set (P := fun r : MappingRow => nonempty r.1 && nonempty r.2 = true).
  assert (Hnd : NoDup (filter P rows).*1).
  { eapply sublist_NoDup; [|apply fmap_sublist, sublist_filter].
    rewrite Hrows. apply NoDup_fst_map_to_list. }
  rewrite (fold_write_rows _ Hnd).
  etrans; [|symmetry; apply (map_filter_alt P table)].
  apply list_to_map_proper; [exact Hnd|]. now rewrite Hrows.
Qed.

(** X29. Loading tables into the editor and turning the rows back keeps
    exactly the entries that have a key and a url: [rowsToMaps] of
    [mapsToRows] holds an entry if and only if the tables hold it and
    neither its key nor its url is empty, so tables without empty keys and
    urls come back unchanged. The order in which the rows are listed plays
    no part. *)
Theorem editor_rows_round_trip (maps : RemoteMaps)
    (topicRows articleRows : list MappingRow) :
  topicRows ≡ₚ (mapsToRows maps).1 -> articleRows ≡ₚ (mapsToRows maps).2 ->
  (forall k u, topics (rowsToMaps topicRows articleRows) !! k = Some u
               <-> topics maps !! k = Some u
                   /\ nonempty k = true /\ nonempty u = true)
  /\ (forall k u, articles (rowsToMaps topicRows articleRows) !! k = Some u
                  <-> articles maps !! k = Some u
                      /\ nonempty k = true /\ nonempty u = true)
  /\ (map_Forall (fun k u => nonempty k && nonempty u = true) (topics maps) ->
      map_Forall (fun k u => nonempty k && nonempty u = true) (articles maps) ->
      rowsToMaps topicRows articleRows = maps).
Proof.
  unfold mapsToRows, rowsToMaps. cbn [fst snd topics articles].
  intros Ht Ha.
  rewrite (fromRows_entries _ _ Ht), (fromRows_entries _ _ Ha).
  split; [|split].
  - intros k u. rewrite map_lookup_filter_Some. cbn [fst snd].
    rewrite andb_true_iff. tauto.
  - intros k u. rewrite map_lookup_filter_Some. cbn [fst snd].
    rewrite andb_true_iff. tauto.
  - intros Pt Pa. destruct maps as [ts rs]. cbn [topics articles] in *.
    f_equal; apply map_filter_id; intros k u Hk.
    + exact (Pt k u Hk).
    + exact (Pa k u Hk).
Qed.

Lemma editor_rows_round_trip_witness :
  topics (rowsToMaps [("ethics", "https://x/y.jpg")] []) !! "ethics"
  = Some "https://x/y.jpg".
Proof.
  apply (proj1 (editor_rows_round_trip
                  {| topics := {[ "ethics" := "https://x/y.jpg" ]}; articles := ∅ |}
                  [("ethics", "https://x/y.jpg")] []
                  ltac:(unfold mapsToRows, entries; cbn [fst topics];
                        now rewrite map_to_list_singleton)
                  ltac:(unfold mapsToRows, entries; cbn [snd articles];
                        now rewrite map_to_list_empty))).
  repeat split.
Defined.

End EditorRows.

(** ** The range of the seeds *)

Section Seeds.

Lemma toInt32_range (z : Z) : (- 2 ^ 31 <= toInt32 z < 2 ^ 31)%Z.
Proof.
  unfold toInt32. cbv zeta.
  pose proof (Z.mod_pos_bound z (2 ^ 32) ltac:(lia)) as H.
  destruct (z mod 2 ^ 32 <? 2 ^ 31)%Z eqn:E.
  - apply Z.ltb_lt in E. lia.
  - apply Z.ltb_ge in E. lia.
Qed.

Lemma hash_loop_range (h : Z) (s : string) :
  (- 2 ^ 31 <= h < 2 ^ 31)%Z ->
  (- 2 ^ 31 <= ContentEngine.hash_loop h s < 2 ^ 31)%Z.
Proof.
  revert h. induction s as [|c r IH]; intros h H; [exact H|].
  cbn [ContentEngine.hash_loop]. apply IH, toInt32_range.
Qed.

Lemma article_hash_loop (h : Z) (s : string) :
  ArticleEngine.hash_loop h s = ContentEngine.hash_loop h s.
Proof.
  revert h. induction s as [|c r IH]; intros h; [reflexivity|].
  cbn [ArticleEngine.hash_loop ContentEngine.hash_loop]. apply IH.
Qed.

(** X30. The seeds are small non-negative integers: the two engines
    compute the same [hash]; it is 2166136261 for the empty text and at most
    2^31 for every other text. Every seed derived from it by adding one of
    the small offsets of the generators therefore stays far below 2^53,
    where JavaScript's numbers are exact, so the remainder that [pick] and
    [rotate] take is the remainder of the integer. *)
Theorem hash_is_a_small_seed (s : string) :
  ArticleEngine.hash s = ContentEngine.hash s
  /\ (s = EmptyString -> ContentEngine.hash s = 2166136261)
  /\ (s <> EmptyString -> ContentEngine.hash s <= 2 ^ 31)
  /\ ContentEngine.hash s + 409 < 2 ^ 53.
Proof.
  assert (Hne : s <> EmptyString -> ContentEngine.hash s <= 2 ^ 31).
  { destruct s as [|c r]; [congruence|]. intros _.
    unfold ContentEngine.hash. cbn [ContentEngine.hash_loop].
    pose proof (hash_loop_range _ r (toInt32_range
      (toInt32 (xor32 2166136261 (Z.of_N (code c))) * toInt32 16777619))) as H.
    fold (imul (xor32 2166136261 (Z.of_N (code c))) 16777619) in H.
    lia. }
  split; [|split; [|split]].
  - unfold ArticleEngine.hash, ContentEngine.hash.
    now rewrite article_hash_loop.
  - intros ->. reflexivity.
  - exact Hne.
  - destruct s as [|c r]; [vm_compute; reflexivity|].
    assert (ContentEngine.hash (String c r) <= 2 ^ 31) by (apply Hne; discriminate).
    assert (2 ^ 31 + 409 < 2 ^ 53) by (vm_compute; reflexivity).
    lia.
Qed.

End Seeds.
